(** * PyKED: ReSpecTh <-> ChemKED conversion and ChemKED validation

    A shallow embedding of [pyked/validation.py] and [pyked/converters.py].
    Python dictionaries are finite maps, exceptions are an error monad,
    the module-level skip flag and the warnings and lookups a validation
    call emits are threaded through an explicit process state, and the
    external services (Crossref, ORCID) are oracles passed to the functions
    that query them.  Strings are ASCII, floats are exact rationals, and
    an XML file or a YAML file is the tree or the dictionary it holds. *)

From Stdlib Require Import String Ascii List ZArith QArith Qround Qabs Lqa Bool Lia.
From stdpp Require Import gmap strings list fin_maps pretty.

Open Scope string_scope.
Open Scope list_scope.

(** ** Exceptions *)

Inductive exn : Type :=
| IndexError
| UnboundLocalError
| KeyError (key : string)
| TypeError
| AttributeError
| ValueError
| AssertionError (msg : string)
| NotImplementedError (msg : string)
| KeywordError (msg : string)
| MissingElementError (elem : string)
| MissingAttributeError (attr elem : string)
| UndefinedUnitError (unit_name : string)
| DimensionalityError.

Inductive result (A : Type) : Type :=
| Ok (a : A)
| Raise (e : exn).

Arguments Ok {A} a.
Arguments Raise {A} e.

Definition bind {A B : Type} (r : result A) (k : A -> result B) : result B :=
  match r with
  | Ok a => k a
  | Raise e => Raise e
  end.

#[global] Instance result_bind : MBind result := fun A B k r => bind r k.
#[global] Instance result_ret : MRet result := fun A a => Ok a.
#[global] Instance result_fmap : FMap result := fun A B f r =>
  match r with
  | Ok a => Ok (f a)
  | Raise e => Raise e
  end.

Definition is_ok {A : Type} (r : result A) : bool :=
  match r with Ok _ => true | Raise _ => false end.

(** [try: r except p: h] for a handler selected by a predicate on exceptions. *)
Definition try_except {A : Type} (r : result A) (catches : exn -> bool)
    (handler : exn -> result A) : result A :=
  match r with
  | Ok a => Ok a
  | Raise e => if catches e then handler e else Raise e
  end.

Definition of_option {A : Type} (o : option A) (e : exn) : result A :=
  match o with Some a => Ok a | None => Raise e end.

(** [l[i]] on a Python list. *)
Definition py_index {A : Type} (l : list A) (i : nat) : result A :=
  of_option (l !! i) IndexError.

(** [l[i] = x] on a Python list. *)
Definition py_setitem {A : Type} (l : list A) (i : nat) (x : A) : result (list A) :=
  if (i <? length l)%nat then Ok (<[i:=x]> l) else Raise IndexError.

(** [del l[i]] on a Python list. *)
Definition py_delitem {A : Type} (l : list A) (i : nat) : result (list A) :=
  if (i <? length l)%nat then Ok (delete i l) else Raise IndexError.

(** ** Text

    Strings are byte strings; [lower], [upper] and [strip] act on the ASCII
    range as Python's [str] methods do there. *)

Definition in_range (lo hi : nat) (c : ascii) : bool :=
  ((lo <=? nat_of_ascii c) && (nat_of_ascii c <=? hi))%nat.

Definition lower_char (c : ascii) : ascii :=
  if in_range 65 90 c then ascii_of_nat (nat_of_ascii c + 32) else c.

Definition upper_char (c : ascii) : ascii :=
  if in_range 97 122 c then ascii_of_nat (nat_of_ascii c - 32) else c.

Fixpoint map_string (f : ascii -> ascii) (s : string) : string :=
  match s with
  | EmptyString => EmptyString
  | String c s' => String (f c) (map_string f s')
  end.

Definition lower (s : string) : string := map_string lower_char s.
Definition upper (s : string) : string := map_string upper_char s.

(** [c in s] for a one-character [c]. *)
Fixpoint contains_char (c : ascii) (s : string) : bool :=
  match s with
  | EmptyString => false
  | String d s' => Ascii.eqb c d || contains_char c s'
  end.

(** [s.split(c)]: every occurrence of [c] separates two (possibly empty)
    pieces. *)
Fixpoint split_char (c : ascii) (s : string) : list string :=
  match s with
  | EmptyString => [EmptyString]
  | String d s' =>
      if Ascii.eqb c d then EmptyString :: split_char c s'
      else match split_char c s' with
           | [] => [String d EmptyString]
           | piece :: rest => String d piece :: rest
           end
  end.

(** [sep.join(l)]. *)
Fixpoint join (sep : string) (l : list string) : string :=
  match l with
  | [] => EmptyString
  | [x] => x
  | x :: rest => x +:+ sep +:+ join sep rest
  end.

(** The characters [str.strip()] removes: tab, newline, vertical tab, form
    feed, carriage return, the separators 28..31 and the space. *)
Definition is_space (c : ascii) : bool :=
  in_range 9 13 c || in_range 28 32 c.

Fixpoint lstrip (s : string) : string :=
  match s with
  | EmptyString => EmptyString
  | String c s' => if is_space c then lstrip s' else s
  end.

Fixpoint rstrip_by (p : ascii -> bool) (s : string) : string :=
  match s with
  | EmptyString => EmptyString
  | String c s' =>
      match rstrip_by p s' with
      | EmptyString => if p c then EmptyString else String c EmptyString
      | t => String c t
      end
  end.

Definition strip (s : string) : string := lstrip (rstrip_by is_space s).

(** [re.split("[...]+", s)] for a character class [sep]: the pieces between
    the maximal runs of separator characters, empty pieces at the ends kept.
    [cur] is the piece being read and [in_run] tells that the last character
    was a separator. *)
Fixpoint re_split_from (sep : ascii -> bool) (s : string) (cur : string)
    (in_run : bool) : list string :=
  match s with
  | EmptyString => [cur]
  | String c s' =>
      if sep c then
        if in_run then re_split_from sep s' cur true
        else cur :: re_split_from sep s' EmptyString true
      else re_split_from sep s' (cur +:+ String c EmptyString) false
  end.

Definition re_split (sep : ascii -> bool) (s : string) : list string :=
  re_split_from sep s EmptyString false.

(** The class [[, \-.]] of [compare_name]. *)
Definition name_separator (c : ascii) : bool :=
  Ascii.eqb c "," || Ascii.eqb c " " || Ascii.eqb c "-" || Ascii.eqb c ".".

Definition nonempty (s : string) : bool :=
  match s with EmptyString => false | _ => true end.

(** [list(filter(None, re.split("[, \-.]+", s)))]. *)
Definition name_tokens (s : string) : list string :=
  filter (fun t => Is_true (nonempty t)) (re_split name_separator s).

(** [s[0]] on a string. *)
Definition str_first (s : string) : result string :=
  match s with
  | EmptyString => Raise IndexError
  | String c _ => Ok (String c EmptyString)
  end.

Definition len (s : string) : nat := String.length s.

(** ** validation.py: the name matcher *)

Definition compare_name (given_name family_name question_name : string)
    : result bool :=
  (* lowercase everything *)
  let given_name := lower given_name in
  let family_name := lower family_name in
  let question_name := lower question_name in
  (* rearrange names given as "last, first middle" *)
  let question_name :=
    if contains_char "," question_name
    then strip (join " " (rev (split_char "," question_name)))
    else question_name in
  (* split name in question by , <space> - . *)
  let name_split := name_tokens question_name in
  n0 ← py_index name_split 0;
  first_name ←
    (if (length name_split =? 3)%nat
     then n1 ← py_index name_split 1 ; Ok [n0; n1]
     else Ok [n0]);
  let given_name := name_tokens given_name in
  '(first_name, given_name) ←
    (if (length first_name =? 2)%nat && (length given_name =? 2)%nat then
       (* both have first and middle name/initial *)
       f1 ← py_index first_name 1 ; f1i ← str_first f1;
       first_name ← py_setitem first_name 1 f1i;
       g1 ← py_index given_name 1 ; g1i ← str_first g1;
       given_name ← py_setitem given_name 1 g1i;
       Ok (first_name, given_name)
     else if (length given_name =? 2)%nat && (length first_name =? 1)%nat then
       given_name ← py_delitem given_name 1 ; Ok (first_name, given_name)
     else if (length first_name =? 2)%nat && (length given_name =? 1)%nat then
       first_name ← py_delitem first_name 1 ; Ok (first_name, given_name)
     else Ok (first_name, given_name));
  (* first initial *)
  f0 ← py_index first_name 0;
  cond ← (if (len f0 =? 1)%nat then Ok true
           else g0 ← py_index given_name 0 ; Ok (len g0 =? 1)%nat);
  '(first_name, given_name) ←
    (if cond : bool then
       g0 ← py_index given_name 0 ; g0i ← str_first g0;
       given_name ← py_setitem given_name 0 g0i;
       f0 ← py_index first_name 0 ; f0i ← str_first f0;
       first_name ← py_setitem first_name 0 f0i;
       Ok (first_name, given_name)
     else Ok (first_name, given_name));
  (* first and middle initials combined *)
  f0 ← py_index first_name 0;
  cond ← (if (len f0 =? 2)%nat then Ok true
           else g0 ← py_index given_name 0 ; Ok (len g0 =? 2)%nat);
  '(first_name, given_name) ←
    (if cond : bool then
       g0 ← py_index given_name 0 ; g0i ← str_first g0;
       given_name ← py_setitem given_name 0 g0i;
       n0 ← py_index name_split 0 ; n0i ← str_first n0;
       first_name ← py_setitem first_name 0 n0i;
       Ok (first_name, given_name)
     else Ok (first_name, given_name));
  last_name ← of_option (last name_split) IndexError;
  Ok (bool_decide (given_name = first_name)
      && bool_decide (family_name = last_name)).

(** ** Numbers as text

    [int(s)] and [float(s)] for plain decimal notation ([-12], [1.5],
    [2.5e-3]); a float is an exact rational here.  [str] of an integer is
    stdpp's [pretty].  [str] of a float is the shortest text that [float]
    reads back as the same number: for a rational that is its decimal
    expansion when the expansion ends, with at least one fractional digit,
    and an expansion that does not end is cut.  It is written in plain
    notation throughout (Python writes [1e-05] where this writes
    [0.00001]). *)

Definition digit_of (c : ascii) : option Z :=
  if in_range 48 57 c then Some (Z.of_nat (nat_of_ascii c) - 48)%Z else None.

(** The longest prefix of digits: its value after [acc], how many digits
    were read, and the rest of the text. *)
Fixpoint read_digits (s : string) (acc : Z) (n : nat) : Z * nat * string :=
  match s with
  | EmptyString => (acc, n, EmptyString)
  | String c s' =>
      match digit_of c with
      | Some d => read_digits s' (10 * acc + d)%Z (S n)
      | None => (acc, n, s)
      end
  end.

Definition read_sign (s : string) : bool * string :=
  match s with
  | String "-" s' => (true, s')
  | String "+" s' => (false, s')
  | _ => (false, s)
  end.

Definition int_of_string (s : string) : result Z :=
  let '(neg, s1) := read_sign (strip s) in
  let '(v, n, rest) := read_digits s1 0%Z 0 in
  if (0 <? n)%nat && negb (nonempty rest)
  then Ok (if neg then (- v)%Z else v)
  else Raise ValueError.

Definition pow10 (e : Z) : Q :=
  if (0 <=? e)%Z then inject_Z (10 ^ e) else / inject_Z (10 ^ (- e)).

Definition read_exponent (s : string) : option (Z * string) :=
  match s with
  | EmptyString => Some (0%Z, EmptyString)
  | String c s' =>
      if Ascii.eqb c "e" || Ascii.eqb c "E" then
        let '(neg, s1) := read_sign s' in
        let '(v, n, rest) := read_digits s1 0%Z 0 in
        if (0 <? n)%nat then Some (if neg then (- v)%Z else v, rest) else None
      else None
  end.

Definition float_of_string (s : string) : result Q :=
  let '(neg, s1) := read_sign (strip s) in
  let '(ip, n_int, s2) := read_digits s1 0%Z 0 in
  let '(fp, n_frac, s3) :=
    match s2 with
    | String "." s' => read_digits s' 0%Z 0
    | _ => (0%Z, 0, s2)
    end in
  if (0 <? n_int + n_frac)%nat then
    match read_exponent s3 with
    | Some (e, EmptyString) =>
        let m := ((inject_Z ip + inject_Z fp * pow10 (- Z.of_nat n_frac)) * pow10 e)%Q in
        Ok (Qred (if neg then - m else m)%Q)
    | _ => Raise ValueError
    end
  else Raise ValueError.

(** [float(x)] for the text of an XML element, which is [None] when the
    element is empty. *)
Definition float_of_text (t : option string) : result Q :=
  match t with
  | None => Raise TypeError
  | Some s => float_of_string s
  end.

Definition str_int (z : Z) : string := pretty z.

Definition float_digits : nat := 17.

(** The fractional digits written for a reduced fraction [r]: an expansion
    that ends does so within as many digits as the denominator has bits,
    and one that does not end is cut after that many digits, or after
    [float_digits] if that is more. *)
Definition digits_for (r : Q) : nat :=
  Nat.max float_digits (Pos.size_nat (Qden r)).

Fixpoint frac_digits (fuel : nat) (r : Q) : string :=
  match fuel with
  | O => EmptyString
  | S fuel' =>
      let d := Qfloor (r * 10) in
      let r' := Qred (r * 10 - inject_Z d) in
      str_int d +:+ (if Qeq_bool r' 0 then EmptyString else frac_digits fuel' r')
  end.

Definition str_float (q : Q) : string :=
  let a := Qabs q in
  let ip := Qfloor a in
  let r := Qred (a - inject_Z ip) in
  (if Qle_bool 0 q then "" else "-") +:+ str_int ip +:+ "." +:+
  frac_digits (digits_for r) r.

(** ** The units library *)

(** Modelled from the spec: [pyked/utils.py], which exports the registry
    [units] and the constructor [Q_] of the external units library, is not
    among the sources.  Following section 3 of the specification (a
    quantity is a scalar bound to a physical unit, dimensionally compatible
    or not with a reference unit), a unit is a name, a dimension and a
    linear map to the root unit of its dimension, the registry is a table
    of the unit expressions used below, and a quantity is a magnitude with
    a unit. *)
Record Dim : Type := mkDim
  { d_length : Z; d_mass : Z; d_time : Z; d_temperature : Z }.

Definition dim_eqb (a b : Dim) : bool :=
  (d_length a =? d_length b)%Z && (d_mass a =? d_mass b)%Z &&
  (d_time a =? d_time b)%Z && (d_temperature a =? d_temperature b)%Z.

(** A magnitude [m] in the unit is [m * factor + offset] in the root unit. *)
Record Unit : Type := mkUnit
  { unit_name : string; dim : Dim; factor : Q; offset : Q }.

Definition unit_eqb (u v : Unit) : bool :=
  String.eqb (unit_name u) (unit_name v) && dim_eqb (dim u) (dim v) &&
  Qeq_bool (factor u) (factor v) && Qeq_bool (offset u) (offset v).

Definition dim_none : Dim := mkDim 0 0 0 0.
Definition dim_temperature : Dim := mkDim 0 0 0 1.
Definition dim_pressure : Dim := mkDim (-1) 1 (-2) 0.
Definition dim_time : Dim := mkDim 0 0 1 0.
Definition dim_frequency : Dim := mkDim 0 0 (-1) 0.
Definition dim_volume : Dim := mkDim 3 0 0 0.

Definition unit_table : list (list string * Unit) :=
  [ (["kelvin"; "K"], mkUnit "kelvin" dim_temperature 1 0);
    (["degC"; "celsius"], mkUnit "degC" dim_temperature 1 (27315 # 100));
    (["pascal"; "Pa"], mkUnit "pascal" dim_pressure 1 0);
    (["kilopascal"; "kPa"], mkUnit "kilopascal" dim_pressure 1000 0);
    (["megapascal"; "MPa"], mkUnit "megapascal" dim_pressure 1000000 0);
    (["bar"], mkUnit "bar" dim_pressure 100000 0);
    (["atm"; "atmosphere"], mkUnit "atmosphere" dim_pressure 101325 0);
    (["torr"], mkUnit "torr" dim_pressure (101325 # 760) 0);
    (["second"; "s"], mkUnit "second" dim_time 1 0);
    (["millisecond"; "ms"], mkUnit "millisecond" dim_time (1 # 1000) 0);
    (["microsecond"; "us"], mkUnit "microsecond" dim_time (1 # 1000000) 0);
    (["1.0 / second"; "1 / second"; "1/s"],
       mkUnit "1 / second" dim_frequency 1 0);
    (["1 / millisecond"; "1/ms"],
       mkUnit "1 / millisecond" dim_frequency 1000 0);
    (["meter**3"; "meter ** 3"; "m**3"; "m3"],
       mkUnit "meter ** 3" dim_volume 1 0);
    (["centimeter**3"; "centimeter ** 3"; "cm**3"; "cm3"],
       mkUnit "centimeter ** 3" dim_volume (1 # 1000000) 0);
    (["dimensionless"; ""], mkUnit "dimensionless" dim_none 1 0) ].

Definition lookup_unit (s : string) : option Unit :=
  snd <$> List.find (fun e => existsb (String.eqb s) (fst e)) unit_table.

Record Quantity : Type := mkQuantity { magnitude : Q; q_units : Unit }.

(** [units(s)]: the unit expression [s] as a quantity of magnitude one. *)
Definition units (s : string) : result Quantity :=
  match lookup_unit (strip s) with
  | Some u => Ok (mkQuantity 1 u)
  | None => Raise (UndefinedUnitError s)
  end.

(** [x * q] for a float [x]. *)
Definition scale (x : Q) (q : Quantity) : Quantity :=
  mkQuantity (Qred (x * magnitude q)) (q_units q).

(** The text up to the first space, and the text after it. *)
Fixpoint cut_at_space (s : string) : string * string :=
  match s with
  | EmptyString => (EmptyString, EmptyString)
  | String c s' =>
      if Ascii.eqb c " " then (EmptyString, s')
      else let '(a, b) := cut_at_space s' in (String c a, b)
  end.

(** [Q_(s)] for a text [s] of the form "<float> <unit expression>". *)
Definition Q_ (s : string) : result Quantity :=
  let '(m, u) := cut_at_space (strip s) in
  x ← float_of_string m;
  q ← units u;
  Ok (scale x q).

Definition to_root (q : Quantity) : Q :=
  (magnitude q * factor (q_units q) + offset (q_units q))%Q.

(** The magnitude of [q] in the unit [u]; the dimensions must agree. *)
Definition magnitude_in (q : Quantity) (u : Unit) : result Q :=
  if dim_eqb (dim (q_units q)) (dim u)
  then Ok (Qred ((to_root q - offset u) / factor u))
  else Raise DimensionalityError.

(** [q.to(s)]. *)
Definition to (q : Quantity) (s : string) : result Quantity :=
  target ← units s;
  m ← magnitude_in q (q_units target);
  Ok (mkQuantity m (q_units target)).

(** [a <= b]: magnitudes are compared directly under equal units and in
    root units otherwise; quantities of different dimensions do not
    compare. *)
Definition quantity_le (a b : Quantity) : result bool :=
  if unit_eqb (q_units a) (q_units b)
  then Ok (Qle_bool (magnitude a) (magnitude b))
  else if dim_eqb (dim (q_units a)) (dim (q_units b))
  then Ok (Qle_bool (to_root a) (to_root b))
  else Raise DimensionalityError.

(** [a == b] between quantities: never raises. *)
Definition quantity_eqb (a b : Quantity) : bool :=
  if unit_eqb (q_units a) (q_units b)
  then Qeq_bool (magnitude a) (magnitude b)
  else dim_eqb (dim (q_units a)) (dim (q_units b))
       && Qeq_bool (to_root a) (to_root b).

(** [a == b] where either side may be [None]. *)
Definition opt_quantity_eqb (a b : option Quantity) : bool :=
  match a, b with
  | Some x, Some y => quantity_eqb x y
  | None, None => true
  | _, _ => false
  end.

(** [bool(q)]. *)
Definition quantity_truth (q : Quantity) : bool :=
  negb (Qeq_bool (magnitude q) 0).

(** [str(q.units)] and [str(q.magnitude)]. *)
Definition str_units (q : Quantity) : string := unit_name (q_units q).
Definition str_magnitude (q : Quantity) : string := str_float (magnitude q).

(** ** validation.py: module state, external services, the validator *)

(** [d[k]] on a dictionary. *)
Definition getitem {V : Type} (d : gmap string V) (k : string) : result V :=
  of_option (d !! k) (KeyError k).

(** SI units for available value-type properties *)
Definition property_units : gmap string string :=
  list_to_map
    [ ("temperature", "kelvin");
      ("pressure", "pascal");
      ("ignition-delay", "second");
      ("pressure-rise", "1.0 / second");
      ("compression-time", "second");
      ("volume", "meter**3");
      ("time", "second") ].

(** What a call leaves behind outside its result: warnings, printed lines
    and the queries sent to the two external services. *)
Inductive event : Type :=
| Warning (msg : string)
| Printed (msg : string)
| CrossrefQuery (doi : string)
| OrcidQuery (query : string).

(** The module: its global [_mod_skip_validation] and the events so far. *)
Record process : Type := mkProcess
  { _mod_skip_validation : bool; events : list event }.

(** An [OurValidator] instance: its [_skip_validation] attribute and the
    errors [_error] has recorded, each a field and a message. *)
Record OurValidator : Type := mkValidator
  { _skip_validation : bool; errors : list (string * string) }.

Definition initial_process : process := mkProcess false [].

Definition emit (e : event) (p : process) : process :=
  mkProcess (_mod_skip_validation p) (events p ++ [e]).

(** Module-level [disable_validation()] and [enable_validation()]. *)
Definition disable_validation (p : process) : process :=
  mkProcess true (events (emit (Warning "validation disabled.") p)).

Definition enable_validation (p : process) : process :=
  mkProcess false (events (emit (Warning "validation enabled.") p)).

(** [OurValidator.__init__]. *)
Definition OurValidator_init (p : process) : OurValidator :=
  mkValidator (_mod_skip_validation p) [].

(** Methods run against the process and their instance, and may raise. *)
Record M (A : Type) : Type := mkM
  { run : process * OurValidator -> result A * (process * OurValidator) }.

Arguments mkM {A} run.
Arguments run {A} m s.

#[global] Instance M_ret : MRet M := fun A a => mkM (fun s => (Ok a, s)).
#[global] Instance M_bind : MBind M := fun A B k m =>
  mkM (fun s =>
         match run m s with
         | (Ok a, s') => run (k a) s'
         | (Raise e, s') => (Raise e, s')
         end).

Definition lift {A : Type} (r : result A) : M A := mkM (fun s => (r, s)).

Definition warn (msg : string) : M unit :=
  mkM (fun s => (Ok tt, (emit (Warning msg) (fst s), snd s))).

Definition query (e : event) : M unit :=
  mkM (fun s => (Ok tt, (emit e (fst s), snd s))).

(** [self._error(field, msg)]. *)
Definition _error (field msg : string) : M unit :=
  mkM (fun s =>
         (Ok tt, (fst s, mkValidator (_skip_validation (snd s))
                                     (errors (snd s) ++ [(field, msg)])))).

(** Reading [self._skip_validation]. *)
Definition self_skip_validation : M bool :=
  mkM (fun s => (Ok (_skip_validation (snd s)), s)).

(** [try: m except DimensionalityError: h]. *)
Definition except_dimensionality {A : Type} (m : M A) (h : M A) : M A :=
  mkM (fun s =>
         match run m s with
         | (Raise DimensionalityError, s') => run h s'
         | r => r
         end).

(** [OurValidator.disable_validation] and [OurValidator.enable_validation]. *)
Definition OurValidator_disable_validation : M unit :=
  _ ← warn "validation disabled.";
  mkM (fun s => (Ok tt, (fst s, mkValidator true (errors (snd s))))).

Definition OurValidator_enable_validation : M unit :=
  _ ← warn "validation enabled.";
  mkM (fun s => (Ok tt, (fst s, mkValidator false (errors (snd s))))).

(** Crossref's answer to [works(ids=doi)]: the message, or one of the two
    groups of exceptions the code tells apart. *)
Record CrossrefAuthor : Type := mkCrossrefAuthor
  { given : string; family : string; cr_ORCID : option string }.

Record CrossrefMessage : Type := mkCrossrefMessage
  { container_title : list string;
    published_print : option Z;   (* ['date-parts'][0][0] *)
    published_online : option Z;
    cr_volume : option string;
    cr_page : option string;
    cr_author : option (list CrossrefAuthor) }.

Inductive crossref_reply : Type :=
| Works (message : CrossrefMessage)
| NotFound        (* HTTPError, habanero.RequestError *)
| Unreachable.    (* ConnectionError, UnboundLocalError *)

(** ORCID's answer to [search_public]: the number found and the names of
    the profiles returned (given names, family name), or no connection. *)
Inductive orcid_reply : Type :=
| OrcidResults (num_found : nat) (profiles : list (string * string))
| OrcidUnreachable.

Record services : Type := mkServices
  { crossref_works : string -> crossref_reply;
    orcid_search_public : string -> orcid_reply }.

(** An author entry and a reference, as ChemKED documents hold them. *)
Record Author : Type := mkAuthor { a_name : string; a_ORCID : option string }.

Record Reference : Type := mkReference
  { r_doi : option string;
    r_journal : option string;
    r_year : option Z;
    r_volume : option Z;
    r_pages : option string;
    r_authors : option (list Author);
    r_detail : option string }.

Definition _validate_isvalid_unit (isvalid_unit : bool) (field : string)
    (value : gmap string string) : M unit :=
  skip ← self_skip_validation;
  if isvalid_unit && negb skip then
    value_units ← lift (getitem value "units");
    one ← lift (units value_units);
    let quantity := scale 1 one in
    except_dimensionality
      (target ← lift (getitem property_units field);
       _ ← lift (to quantity target);
       mret tt)
      (target ← lift (getitem property_units field);
       _error field ("incompatible units; should be consistent with " +:+ target))
  else mret tt.

Definition _validate_isvalid_quantity (isvalid_quantity : bool)
    (field : string) (value : string) : M unit :=
  skip ← self_skip_validation;
  if isvalid_quantity && negb skip then
    quantity ← lift (Q_ value);
    target ← lift (getitem property_units field);
    zero ← lift (units target);
    let low_lim := scale 0 zero in
    except_dimensionality
      (below ← lift (quantity_le quantity low_lim);
       if below : bool
       then _error field ("value must be greater than 0.0 " +:+ target)
       else mret tt)
      (_error field ("incompatible units; should be consistent with " +:+ target))
  else mret tt.

(** [s[s.rfind('/') + 1:]]. *)
Definition after_last_slash (s : string) : string :=
  match rev (split_char "/" s) with
  | piece :: _ => piece
  | [] => s
  end.

(** [l.remove(x)]: the first occurrence goes; [ValueError] when there is
    none. *)
Fixpoint py_remove (l : list string) (x : string) : result (list string) :=
  match l with
  | [] => Raise ValueError
  | y :: l' =>
      if String.eqb y x then Ok l'
      else (r ← py_remove l' x; Ok (y :: r))
  end.

(** [next((a for a in l if p(a)), None)] for a test that may raise. *)
Fixpoint py_next {A : Type} (p : A -> result bool) (l : list A)
    : result (option A) :=
  match l with
  | [] => Ok None
  | a :: l' => b ← p a; if b : bool then Ok (Some a) else py_next p l'
  end.

(** One turn of the loop over [ref['author']]; [author_names] is the list
    the loop removes matched names from. *)
Definition check_author (field : string) (authors : list Author)
    (author : CrossrefAuthor) (author_names : list string) : M (list string) :=
  (* find using family name *)
  author_match ←
    lift (py_next (fun a => compare_name (given author) (family author) (a_name a))
                  authors);
  match author_match with
  | None =>
      (* error if missing author in given reference information *)
      _ ← _error field ("Missing author: " +:+ join " " [given author; family author]);
      mret author_names
  | Some author_match =>
      author_names ← lift (py_remove author_names (a_name author_match));
      (* validate ORCID if given *)
      match cr_ORCID author with
      | Some orcid =>
          if nonempty orcid then
            let orcid := after_last_slash orcid in
            match a_ORCID author_match with
            | Some given_orcid =>
                _ ← (if negb (String.eqb given_orcid orcid)
                     then _error field
                            (a_name author_match +:+ " ORCID does " +:+
                             "not match that in reference. Reference: " +:+
                             orcid +:+ ". Given: " +:+ given_orcid)
                     else mret tt);
                mret author_names
            | None =>
                (* ORCID not given, suggest adding it *)
                _ ← warn ("ORCID " +:+ orcid +:+ " missing for " +:+ a_name author_match);
                mret author_names
            end
          else mret author_names
      | None => mret author_names
      end
  end.

Fixpoint check_authors (field : string) (authors : list Author)
    (ref_authors : list CrossrefAuthor) (author_names : list string)
    : M (list string) :=
  match ref_authors with
  | [] => mret author_names
  | author :: rest =>
      author_names ← check_author field authors author author_names;
      check_authors field authors rest author_names
  end.

(** The checks made once Crossref has answered with [ref]. *)
Definition check_reference (field : string) (value : Reference)
    (ref : CrossrefMessage) : M unit :=
  (* check journal name *)
  _ ← match r_journal value with
      | Some journal =>
          if negb (bool_decide (journal ∈ container_title ref))
          then _error field ("journal does not match: " +:+
                             join ", " (container_title ref))
          else mret tt
      | None => mret tt
      end;
  (* check year *)
  pub_year ←
    lift (of_option (match published_print ref with
                     | Some y => Some y
                     | None => published_online ref
                     end) TypeError);
  _ ← match r_year value with
      | Some year =>
          if negb (year =? pub_year)%Z
          then _error field ("year should be " +:+ str_int pub_year)
          else mret tt
      | None => mret tt
      end;
  (* check volume number *)
  _ ← match r_volume value, cr_volume ref with
      | Some volume, Some ref_volume =>
          ref_number ← lift (int_of_string ref_volume);
          if negb (volume =? ref_number)%Z
          then _error field ("volume number should be " +:+ ref_volume)
          else mret tt
      | _, _ => mret tt
      end;
  (* check pages *)
  _ ← match r_pages value, cr_page ref with
      | Some pages, Some ref_page =>
          if negb (String.eqb pages ref_page)
          then _error field ("pages should be " +:+ ref_page)
          else mret tt
      | _, _ => mret tt
      end;
  (* check that all authors present *)
  authors ← lift (of_option (r_authors value) (KeyError "authors"));
  let author_names := a_name <$> authors in
  ref_authors ← lift (of_option (cr_author ref) (KeyError "author"));
  author_names ← check_authors field authors ref_authors author_names;
  (* check for extra names given *)
  if (0 <? length author_names)%nat
  then _error field ("Extra author(s) given: " +:+ join ", " author_names)
  else mret tt.

Definition _validate_isvalid_reference (srv : services)
    (isvalid_reference : bool) (field : string) (value : Reference) : M unit :=
  skip ← self_skip_validation;
  match r_doi value with
  | Some doi =>
      if isvalid_reference && negb skip then
        _ ← query (CrossrefQuery doi);
        match crossref_works srv doi with
        | NotFound => _error field "DOI not found"
        | Unreachable => warn "network not available, DOI not validated."
        | Works ref => check_reference field value ref
        end
      else mret tt
  | None => mret tt
  end.

Definition _validate_isvalid_orcid (srv : services) (isvalid_orcid : bool)
    (field : string) (value : Author) : M unit :=
  skip ← self_skip_validation;
  match a_ORCID value with
  | Some orcid =>
      if isvalid_orcid && negb skip then
        _ ← query (OrcidQuery ("orcid:" +:+ orcid));
        match orcid_search_public srv ("orcid:" +:+ orcid) with
        | OrcidUnreachable => warn "network not available, ORCID not validated."
        | OrcidResults num_found profiles =>
            (* Return error if no results are found for the given ORCID *)
            if (num_found =? 0)%nat
            then _error field ("ORCID incorrect or invalid for " +:+ a_name value)
            else
              '(given_name, family_name) ← lift (py_index profiles 0);
              matches ← lift (compare_name given_name family_name (a_name value));
              if negb matches
              then _error field
                     ("Name and ORCID do not match. Name supplied: " +:+
                      a_name value +:+ ". Name associated with ORCID: " +:+
                      join " " [given_name; family_name])
              else mret tt
        end
      else mret tt
  | None => mret tt
  end.

(** ** XML element trees *)

Inductive Element : Type :=
  mkElement (tag : string) (attrib : gmap string string)
            (text : option string) (children : list Element).

Definition tag (e : Element) : string :=
  match e with mkElement t _ _ _ => t end.
Definition attrib (e : Element) : gmap string string :=
  match e with mkElement _ a _ _ => a end.
Definition text (e : Element) : option string :=
  match e with mkElement _ _ x _ => x end.
Definition children (e : Element) : list Element :=
  match e with mkElement _ _ _ c => c end.

Definition has_tag (t : string) (e : Element) : bool := String.eqb (tag e) t.

(** [e.findall(t)] and [e.find(t)] for a tag [t]. *)
Definition findall (e : Element) (t : string) : list Element :=
  List.filter (has_tag t) (children e).

Definition find (e : Element) (t : string) : option Element :=
  head (findall e t).

(** [e.iterfind('a/b')] and [e.find('a/b')]. *)
Definition iterfind2 (e : Element) (a b : string) : list Element :=
  flat_map (fun x => findall x b) (findall e a).

Definition find2 (e : Element) (a b : string) : option Element :=
  head (iterfind2 e a b).

(** [e.iter(t)]: [e] itself and all its descendants with tag [t], in
    document order. *)
Fixpoint iter (e : Element) (t : string) : list Element :=
  match e with
  | mkElement _ _ _ c =>
      (if has_tag t e then [e] else []) ++ flat_map (fun x => iter x t) c
  end.

(** [x.text] and [x.attrib] where [x] is the result of a [find]: [None] has
    neither. *)
Definition text_of (x : option Element) : result (option string) :=
  match x with
  | Some e => Ok (text e)
  | None => Raise AttributeError
  end.

Definition attrib_of (x : option Element) : result (gmap string string) :=
  match x with
  | Some e => Ok (attrib e)
  | None => Raise AttributeError
  end.

(** [a + b] where [a] may be [None]. *)
Definition str_of_text (t : option string) : result string :=
  of_option t TypeError.

Fixpoint replace_char (a b : ascii) (s : string) : string :=
  match s with
  | EmptyString => EmptyString
  | String c s' => String (if Ascii.eqb c a then b else c) (replace_char a b s')
  end.

(** ** converters.py: what the importer builds

    [properties] has a fixed set of top-level keys and is a record; the
    common properties and each data point are dictionaries whose values are
    one of four shapes.  The lines the converters print and the warnings
    they emit are left out. *)

Record SpeciesEntry : Type := mkSpeciesEntry
  { species_name : string; InChI : option string; amount : list Q }.

Record CompositionDict : Type := mkCompositionDict
  { species : list SpeciesEntry; kind : string }.

Record IgnitionType : Type := mkIgnitionType
  { ign_type : string; ign_target : string }.

Record ColumnDict : Type := mkColumnDict { col_units : string; column : nat }.

Record VolumeHistoryDict : Type := mkVolumeHistoryDict
  { vh_time : ColumnDict; vh_volume : ColumnDict;
    vh_values : list (option Q * option Q) }.

Inductive pval : Type :=
| PQuantity (l : list string)          (* ['1000 K'] *)
| PComposition (c : CompositionDict)
| PIgnitionType (i : IgnitionType)
| PVolumeHistory (v : VolumeHistoryDict).

(** Truth value of such a value: a list is true when it is not empty, and
    the three dictionaries always have keys. *)
Definition pval_truth (v : pval) : bool :=
  match v with
  | PQuantity [] => false
  | _ => true
  end.

Record Properties : Type := mkProperties
  { file_author_name : option string;
    file_author_ORCID : option string;
    file_version : Z;
    chemked_version : string;
    reference : Reference;
    experiment_type : string;
    apparatus_kind : string;
    apparatus_institution : string;
    apparatus_facility : string;
    common_properties : gmap string pval;
    datapoints : list (gmap string pval) }.

(** Valid properties for ReSpecTh dataGroup *)
Definition datagroup_properties : list string :=
  ["temperature"; "pressure"; "ignition delay"; "pressure rise"].

(** [get_file_metadata]: the file author's name; the two versions are
    constants set by the caller. *)
Definition get_file_metadata (root : Element) : result (option string) :=
  name ← try_except (text_of (find root "fileAuthor"))
            (fun e => match e with AttributeError => true | _ => false end)
            (fun _ => Raise (MissingElementError "fileAuthor"));
  match name with
  | Some "" => Raise (MissingElementError "fileAuthor")
  | _ => Ok name
  end.

Definition is_KeyError (e : exn) : bool :=
  match e with KeyError _ => true | _ => false end.

Definition empty_reference : Reference :=
  mkReference None None None None None None None.

(** The [try] block of [get_reference] after the [doi] attribute has been
    read.  The dictionary is filled key by key, so the reference built so
    far comes back with the exception when one is raised. *)
Definition reference_from_doi (srv : services) (doi : string)
    : Reference * result unit :=
  let r0 := mkReference (Some doi) None None None None None None in
  match crossref_works srv doi with
  | NotFound | Unreachable => (r0, Raise (KeyError ""))
  | Works ref =>
      match py_index (container_title ref) 0 with
      | Raise e => (r0, Raise e)
      | Ok journal =>
      let r1 := mkReference (Some doi) (Some journal) None None None None None in
      match of_option (match published_print ref with
                       | Some y => Some y
                       | None => published_online ref
                       end) TypeError with
      | Raise e => (r1, Raise e)
      | Ok year =>
      let r2 := mkReference (Some doi) (Some journal) (Some year) None None None None in
      match (v ← of_option (cr_volume ref) TypeError; int_of_string v) with
      | Raise e => (r2, Raise e)
      | Ok volume =>
      let r3 := mkReference (Some doi) (Some journal) (Some year) (Some volume)
                            (cr_page ref) (Some []) None in
      match cr_author ref with
      | None => (r3, Raise (KeyError "author"))
      | Some ref_authors =>
          (mkReference (Some doi) (Some journal) (Some year) (Some volume)
             (cr_page ref)
             (Some ((fun author =>
                       mkAuthor (join " " [given author; family author])
                                (* Add ORCID if available *)
                                (match cr_ORCID author with
                                 | Some o => if nonempty o then Some o else None
                                 | None => None
                                 end)) <$> ref_authors))
             None,
           Ok tt)
      end end end end
  end.

Definition last_char_is (c : ascii) (s : string) : result bool :=
  match rev (list_ascii_of_string s) with
  | [] => Raise IndexError
  | d :: _ => Ok (Ascii.eqb c d)
  end.

Definition get_reference (srv : services) (root : Element) : result Reference :=
  match find root "bibliographyLink" with
  | None => Raise (MissingElementError "bibliographyLink")
  | Some elem =>
      (* Try to get reference info via DOI *)
      let '(reference, outcome) :=
        match attrib elem !! "doi" with
        | None => (empty_reference, Raise (KeyError "doi"))
        | Some doi => reference_from_doi srv doi
        end in
      match outcome with
      | Ok _ => Ok reference
      | Raise e =>
          if is_KeyError e then
            match attrib elem !! "preferredKey" with
            | None =>
                (* Need one of DOI or preferredKey *)
                Raise (MissingAttributeError "preferredKey" "bibliographyLink")
            | Some detail =>
                dotted ← last_char_is "." detail;
                Ok (mkReference (r_doi reference) (r_journal reference)
                      (r_year reference) (r_volume reference)
                      (r_pages reference) (r_authors reference)
                      (Some (if dotted : bool then detail else detail +:+ ".")))
            end
          else Raise e
      end
  end.

Record ExperimentKind : Type := mkExperimentKind
  { ek_experiment_type : string; ek_apparatus_kind : string }.

Definition get_experiment_kind (root : Element) : result ExperimentKind :=
  experimentType ← text_of (find root "experimentType");
  if bool_decide (experimentType = Some "Ignition delay measurement") then
    kind ← try_except (text_of (find2 root "apparatus" "kind"))
              (fun _ => true)
              (fun _ => Raise (MissingElementError "apparatus/kind"));
    if bool_decide (kind = Some "shock tube")
       || bool_decide (kind = Some "rapid compression machine")
    then k ← str_of_text kind; Ok (mkExperimentKind "ignition delay" k)
    else k ← str_of_text kind;
         Raise (NotImplementedError (k +:+ " experiment not (yet) supported"))
  else
    (* TODO: support additional experimentTypes *)
    t ← str_of_text experimentType;
    Raise (NotImplementedError (t +:+ " not (yet) supported")).

(** One turn of the loop over the [component] elements of an initial
    composition: the species list and [composition_type] so far, and the
    next component. *)
Definition read_component (acc : list SpeciesEntry * option string)
    (child : Element) : result (list SpeciesEntry * option string) :=
  let '(species, composition_type) := acc in
  link ← attrib_of (find child "speciesLink");
  name ← getitem link "preferredKey";
  (* use InChI for unique species identifier (if present) *)
  let inchi := link !! "InChI" in
  (* amount of that species *)
  amount_text ← text_of (find child "amount");
  amount ← float_of_text amount_text;
  let species := species ++ [mkSpeciesEntry name inchi [amount]] in
  (* check consistency of composition type *)
  amount_attrib ← attrib_of (find child "amount");
  match composition_type with
  | None | Some "" =>
      amount_units ← getitem amount_attrib "units";
      Ok (species, Some amount_units)
  | Some t =>
      amount_units ← getitem amount_attrib "units";
      if negb (String.eqb t amount_units)
      then Raise (KeywordError "inconsistent initial composition units")
      else Ok (species, Some t)
  end.

Fixpoint read_components (acc : list SpeciesEntry * option string)
    (l : list Element) : result (list SpeciesEntry * option string) :=
  match l with
  | [] => Ok acc
  | child :: rest => acc' ← read_component acc child; read_components acc' rest
  end.

(** The branch of [get_common_properties] for [initial composition]. *)
Definition read_composition (elem : Element) : result CompositionDict :=
  '(species, composition_type) ← read_components ([], None) (iter elem "component");
  match composition_type with
  | Some t =>
      if String.eqb t "mole fraction" || String.eqb t "mass fraction"
      then Ok (mkCompositionDict species t)
      else Raise (AssertionError "")
  | None => Raise (AssertionError "")
  end.

Definition normalize_torr (units : string) : string :=
  if String.eqb units "Torr" then "torr" else units.

(** The branch of [get_common_properties] for the four scalar properties. *)
Definition read_common_scalar (name : string) (elem : Element)
    : result (string * pval) :=
  let field := replace_char " " "-" name in
  units_attr ← getitem (attrib elem) "units";
  let units_attr := normalize_torr units_attr in
  one ← units units_attr;
  let quantity := scale 1 one in
  target ← getitem property_units field;
  _ ← try_except (to quantity target)
         (fun e => match e with DimensionalityError => true | _ => false end)
         (fun _ => Raise (KeywordError ("units incompatible for property " +:+ name)));
  value_text ← text_of (find elem "value");
  value ← str_of_text value_text;
  Ok (field, PQuantity [join " " [value; units_attr]]).

Definition common_scalar_names : list string :=
  ["temperature"; "pressure"; "pressure rise"; "compression time"].

Fixpoint read_common_properties (properties : gmap string pval)
    (l : list Element) : result (gmap string pval) :=
  match l with
  | [] => Ok properties
  | elem :: rest =>
      name ← getitem (attrib elem) "name";
      if String.eqb name "initial composition" then
        c ← read_composition elem;
        read_common_properties (<["composition" := PComposition c]> properties) rest
      else if bool_decide (name ∈ common_scalar_names) then
        '(field, v) ← read_common_scalar name elem;
        read_common_properties (<[field := v]> properties) rest
      else
        Raise (KeywordError ("Property " +:+ name +:+
                             " not supported as common property."))
  end.

Definition get_common_properties (root : Element) : result (gmap string pval) :=
  read_common_properties ∅ (iterfind2 root "commonProperties" "property").

Definition ignition_targets : list string := ["P"; "T"; "OH"; "OH*"; "CH*"; "CH"].
Definition ignition_types : list string := ["max"; "d/dt max"; "1/2 max"; "min"].

Definition get_ignition_type (root : Element) : result IgnitionType :=
  match find root "ignitionType" with
  | None => Raise (MissingElementError "ignitionType")
  | Some elem =>
      target ← of_option (attrib elem !! "target")
                 (MissingAttributeError "target" "ignitionType");
      let ign_target := upper (rstrip_by (Ascii.eqb ";") target) in
      ign_type ← of_option (attrib elem !! "type")
                   (MissingAttributeError "type" "ignitionType");
      (* ReSpecTh allows multiple ignition targets *)
      if (1 <? length (split_char ";" ign_target))%nat then
        Raise (NotImplementedError "Multiple ignition targets not supported.")
      else
        (* Acceptable ignition targets include pressure, temperature, and
           species concentrations *)
        let ign_target :=
          if String.eqb ign_target "OHEX" then "OH*"
          else if String.eqb ign_target "CHEX" then "CH*"
          else ign_target in
        if negb (bool_decide (ign_target ∈ ignition_targets)) then
          Raise (KeywordError (ign_target +:+ " not valid ignition target"))
        else if negb (bool_decide (ign_type ∈ ignition_types)) then
          Raise (KeywordError (ign_type +:+ " not valid ignition type"))
        else
          let ign_target :=
            if String.eqb ign_target "P" then "pressure"
            else if String.eqb ign_target "T" then "temperature"
            else ign_target in
          Ok (mkIgnitionType ign_type ign_target)
  end.

(** The loop of [get_datapoints] over the [property] elements of the first
    data group, filling [unit_id] and [property_id]. *)
Fixpoint read_datagroup_properties (ids : gmap string string * gmap string string)
    (l : list Element) : result (gmap string string * gmap string string) :=
  match l with
  | [] => Ok ids
  | prop :: rest =>
      let '(unit_id, property_id) := ids in
      prop_units ← getitem (attrib prop) "units";
      id ← getitem (attrib prop) "id";
      name ← getitem (attrib prop) "name";
      if negb (bool_decide (name ∈ datagroup_properties))
      then Raise (KeyError (name +:+ " not valid dataPoint property"))
      else read_datagroup_properties
             (<[id := prop_units]> unit_id, <[id := name]> property_id) rest
  end.

(** The loop over the values of one [dataPoint] row. *)
Fixpoint read_datapoint (unit_id property_id : gmap string string)
    (datapoint : gmap string pval) (l : list Element) : result (gmap string pval) :=
  match l with
  | [] => Ok datapoint
  | val :: rest =>
      val_units ← getitem unit_id (tag val);
      let val_units := normalize_torr val_units in
      name ← getitem property_id (tag val);
      val_text ← str_of_text (text val);
      read_datapoint unit_id property_id
        (<[replace_char " " "-" name := PQuantity [val_text +:+ " " +:+ val_units]]>
           datapoint)
        rest
  end.

Fixpoint read_datapoints (unit_id property_id : gmap string string)
    (l : list Element) : result (list (gmap string pval)) :=
  match l with
  | [] => Ok []
  | dp :: rest =>
      datapoint ← read_datapoint unit_id property_id ∅ (children dp);
      others ← read_datapoints unit_id property_id rest;
      Ok (datapoint :: others)
  end.

(** The loop over the [property] elements of the second data group: the
    [time] and [volume] columns found so far, each with its tag. *)
Fixpoint read_history_columns
    (cols : option (ColumnDict * string) * option (ColumnDict * string))
    (l : list Element)
    : result (option (ColumnDict * string) * option (ColumnDict * string)) :=
  match l with
  | [] => Ok cols
  | prop :: rest =>
      name ← getitem (attrib prop) "name";
      if String.eqb name "time" then
        u ← getitem (attrib prop) "units";
        id ← getitem (attrib prop) "id";
        read_history_columns (Some (mkColumnDict u 0, id), snd cols) rest
      else if String.eqb name "volume" then
        u ← getitem (attrib prop) "units";
        id ← getitem (attrib prop) "id";
        read_history_columns (fst cols, Some (mkColumnDict u 1, id)) rest
      else read_history_columns cols rest
  end.

(** One row of the volume history. *)
Fixpoint read_history_row (time_tag volume_tag : string)
    (row : option Q * option Q) (l : list Element) : result (option Q * option Q) :=
  match l with
  | [] => Ok row
  | val :: rest =>
      if String.eqb (tag val) time_tag then
        t ← float_of_text (text val);
        read_history_row time_tag volume_tag (Some t, snd row) rest
      else if String.eqb (tag val) volume_tag then
        v ← float_of_text (text val);
        read_history_row time_tag volume_tag (fst row, Some v) rest
      else read_history_row time_tag volume_tag row rest
  end.

Fixpoint read_history_rows (time_tag volume_tag : string) (l : list Element)
    : result (list (option Q * option Q)) :=
  match l with
  | [] => Ok []
  | dp :: rest =>
      row ← read_history_row time_tag volume_tag (None, None) (children dp);
      others ← read_history_rows time_tag volume_tag rest;
      Ok (row :: others)
  end.

Definition py_assert (b : bool) (msg : string) : result unit :=
  if b then Ok tt else Raise (AssertionError msg).

Definition get_datapoints (root : Element) : result (list (gmap string pval)) :=
  (* Shock tube experiment will have one data group, while RCM may have one
     or two (one for ignition delay, one for volume-history) *)
  let dataGroups := findall root "dataGroup" in
  match dataGroups with
  | [] => Raise (MissingElementError "dataGroup")
  | dataGroup :: _ =>
      (* get properties of dataGroup *)
      '(unit_id, property_id) ←
        read_datagroup_properties (∅, ∅) (findall dataGroup "property");
      if bool_decide (property_id = ∅) then Raise (MissingElementError "property")
      else
        (* now get data points *)
        datapoints ← read_datapoints unit_id property_id (findall dataGroup "dataPoint");
        if (length datapoints =? 0)%nat then Raise (MissingElementError "dataPoint")
        else
          (* RCM files may have a second dataGroup with volume-time history *)
          if (length dataGroups =? 2)%nat then
            kind ← text_of (find2 root "apparatus" "kind");
            _ ← py_assert (bool_decide (kind = Some "rapid compression machine"))
                  "Second dataGroup only valid for RCM.";
            _ ← py_assert (length datapoints =? 1)%nat
                  "Multiple datapoints for single volume history.";
            dataGroup ← py_index dataGroups 1;
            cols ← read_history_columns (None, None) (findall dataGroup "property");
            '(time_dict, time_tag) ← of_option (fst cols) UnboundLocalError;
            '(volume_dict, volume_tag) ← of_option (snd cols) UnboundLocalError;
            (* collect volume-time history *)
            values ← read_history_rows time_tag volume_tag (findall dataGroup "dataPoint");
            let volume_history := mkVolumeHistoryDict time_dict volume_dict values in
            first ← py_index datapoints 0;
            py_setitem datapoints 0
              (<["volume-history" := PVolumeHistory volume_history]> first)
          else if (2 <? length dataGroups)%nat then
            Raise (NotImplementedError "More than two DataGroups not supported.")
          else Ok datapoints
  end.

(** [k in d] and [d.get(k)] being true. *)
Definition has_key {V : Type} (d : gmap string V) (k : string) : bool :=
  bool_decide (is_Some (d !! k)).

Definition get_truth (d : gmap string pval) (k : string) : bool :=
  match d !! k with
  | Some v => pval_truth v
  | None => false
  end.

(** [for prop in common: datapoint[prop] = common[prop]]: the inner loop of
    the step that applies the common properties to one data point. *)
Definition apply_common_properties (common datapoint : gmap string pval)
    : gmap string pval :=
  map_fold (fun prop v dp => <[prop := v]> dp) datapoint common.

(** [convert_ReSpecTh] up to the point where the YAML file is written: the
    XML tree [root] read from [filename_xml], whose base name is
    [basename], gives the dictionary that is dumped.  [version] is
    [pyked.__version__]. *)
Definition read_ReSpecTh (srv : services) (version : string) (root : Element)
    (basename file_author file_author_orcid : string) : result Properties :=
  (* get file metadata *)
  author_name ← get_file_metadata root;
  (* get reference info *)
  ref ← get_reference srv root;
  (* Save name of original data filename *)
  let detail := default "" (r_detail ref) in
  let ref := mkReference (r_doi ref) (r_journal ref) (r_year ref) (r_volume ref)
               (r_pages ref) (r_authors ref)
               (Some (detail +:+ "Converted from XML file " +:+ basename)) in
  (* Ensure ignition delay, and get which kind of experiment *)
  experiment ← get_experiment_kind root;
  (* Get properties shared across the file *)
  common ← get_common_properties root;
  (* Determine definition of ignition delay *)
  ignition ← get_ignition_type root;
  let common := <["ignition-type" := PIgnitionType ignition]> common in
  (* Now parse ignition delay datapoints *)
  dps ← get_datapoints root;
  (* Ensure combinations of volume, time, pressure-rise are correct. *)
  _ ← (if has_key common "volume" && negb (has_key common "time")
       then Raise (KeywordError "Time values needed for volume history")
       else if existsb (fun dp => has_key dp "volume") dps
               && negb (existsb (fun dp => has_key dp "time") dps)
       then Raise (KeywordError "Time values needed for volume history")
       else Ok tt);
  _ ← (if (has_key common "compression-time"
           || existsb (fun dp => get_truth dp "compression-time") dps)
          && String.eqb (ek_apparatus_kind experiment) "shock tube"
       then Raise (KeywordError "Compression time cannot be defined for shock tube.")
       else Ok tt);
  _ ← (if (has_key common "pressure-rise"
           || existsb (fun dp => get_truth dp "pressure-rise") dps)
          && String.eqb (ek_apparatus_kind experiment) "rapid compression machine"
       then Raise (KeywordError "Pressure rise cannot be defined for RCM.")
       else Ok tt);
  _ ← (if (has_key common "volume" && has_key common "pressure-rise")
          || (has_key common "volume"
              && existsb (fun dp => get_truth dp "pressure-rise") dps)
          || (has_key common "pressure-rise"
              && existsb (fun dp => get_truth dp "volume") dps)
       then Raise (KeywordError "Both volume history and pressure rise cannot be specified")
       else Ok tt);
  (* apply any overrides *)
  let author_name := if nonempty file_author then Some file_author else author_name in
  let author_orcid := if nonempty file_author_orcid then Some file_author_orcid else None in
  (* Now go through datapoints and apply common properties *)
  let dps := apply_common_properties common <$> dps in
  (* compression time doesn't belong in common-properties *)
  let common := delete "compression-time" common in
  Ok (mkProperties author_name author_orcid 0 version ref
        (ek_experiment_type experiment) (ek_apparatus_kind experiment) "" ""
        common dps).

(** ** The loaded record *)

(** Modelled from the spec: [pyked/chemked.py] (the classes [ChemKED] and
    [DataPoint], which [convert_ReSpecTh] calls to validate what it wrote and
    [convert_to_ReSpecTh] calls to load what it exports) is not among the
    sources.  Following sections 3 and 6 of the specification, a data point
    has a quantity per tracked property where the document gives one, a
    composition with its kind, an ignition definition and an optional
    volume history; the reference keeps the keys of the document, an absent
    key reading as [None]; and the experiment type, apparatus and file
    author are those of the document.  The schema validation the loader
    runs first can only reject a document and is left out. *)
Record Species : Type := mkSpecies
  { sp_name : string; sp_InChI : option string; sp_amount : Quantity }.

(** A quantity over an array: the magnitudes and their common unit. *)
Record ArrayQuantity : Type := mkArrayQuantity
  { a_magnitudes : list Q; a_units : Unit }.

Record VolumeHistory : Type := mkVolumeHistory
  { time : ArrayQuantity; volume : ArrayQuantity }.

Record DataPoint : Type := mkDataPoint
  { temperature : option Quantity;
    pressure : option Quantity;
    ignition_delay : option Quantity;
    pressure_rise : option Quantity;
    compression_time : option Quantity;
    composition : list Species;
    composition_type : string;
    ignition_type : IgnitionType;
    volume_history : option VolumeHistory }.

Record ChemKED : Type := mkChemKED
  { c_file_author_name : option string;
    c_file_version : Z;
    c_experiment_type : string;
    c_reference : Reference;
    c_apparatus_kind : string;
    c_datapoints : list DataPoint }.

Definition load_quantity (properties : gmap string pval) (prop : string)
    : result (option Quantity) :=
  match properties !! prop with
  | None => Ok None
  | Some (PQuantity l) => s ← py_index l 0; q ← Q_ s; Ok (Some q)
  | Some _ => Raise TypeError
  end.

Definition dimensionless : Unit := mkUnit "dimensionless" dim_none 1 0.

Definition load_species (e : SpeciesEntry) : result Species :=
  x ← py_index (amount e) 0;
  Ok (mkSpecies (species_name e) (InChI e) (mkQuantity x dimensionless)).

Fixpoint load_all {A B : Type} (f : A -> result B) (l : list A) : result (list B) :=
  match l with
  | [] => Ok []
  | a :: rest => b ← f a; bs ← load_all f rest; Ok (b :: bs)
  end.

Definition load_column (c : ColumnDict) (values : list (option Q))
    : result ArrayQuantity :=
  one ← units (col_units c);
  ms ← load_all (fun v => of_option v TypeError) values;
  Ok (mkArrayQuantity ms (q_units one)).

Definition load_volume_history (properties : gmap string pval)
    : result (option VolumeHistory) :=
  match properties !! "volume-history" with
  | None => Ok None
  | Some (PVolumeHistory v) =>
      t ← load_column (vh_time v) (fst <$> vh_values v);
      vol ← load_column (vh_volume v) (snd <$> vh_values v);
      Ok (Some (mkVolumeHistory t vol))
  | Some _ => Raise TypeError
  end.

(** Modelled from the spec: [DataPoint.__init__] of [pyked/chemked.py], one
    quantity per tracked property the dictionary holds, the composition,
    the ignition definition and the volume history if any. *)
Definition DataPoint_init (properties : gmap string pval) : result DataPoint :=
  ignition_delay ← load_quantity properties "ignition-delay";
  temperature ← load_quantity properties "temperature";
  pressure ← load_quantity properties "pressure";
  pressure_rise ← load_quantity properties "pressure-rise";
  compression_time ← load_quantity properties "compression-time";
  comp ← getitem properties "composition";
  comp ← match comp with
         | PComposition c => Ok c
         | _ => Raise TypeError
         end;
  species ← load_all load_species (species comp);
  ign ← getitem properties "ignition-type";
  ign ← match ign with
        | PIgnitionType i => Ok i
        | _ => Raise TypeError
        end;
  history ← load_volume_history properties;
  Ok (mkDataPoint temperature pressure ignition_delay pressure_rise
        compression_time species (kind comp) ign history).

(** Modelled from the spec: [ChemKED.__init__] of [pyked/chemked.py], after
    its validation of the document. *)
Definition ChemKED_init (properties : Properties) : result ChemKED :=
  dps ← load_all DataPoint_init (datapoints properties);
  Ok (mkChemKED (file_author_name properties) (file_version properties)
        (experiment_type properties) (reference properties)
        (apparatus_kind properties) dps).

(** [convert_ReSpecTh]: the dictionary written to the YAML file, once
    [ChemKED(yaml_file=filename_yaml)] has accepted it. *)
Definition convert_ReSpecTh (srv : services) (version : string) (root : Element)
    (basename file_author file_author_orcid : string) : result Properties :=
  properties ← read_ReSpecTh srv version root basename file_author file_author_orcid;
  (* now validate *)
  _ ← ChemKED_init properties;
  Ok properties.

(** ** converters.py: the exporter *)

(** [etree.SubElement] and [set] used together: an element with its
    attributes, text and children. *)
Definition element (t : string) (attrs : list (string * string))
    (txt : option string) (kids : list Element) : Element :=
  mkElement t (list_to_map attrs) txt kids.

(** [getattr(dp, attribute)] for the attributes that hold a quantity; any
    other name has no such attribute (or one without a magnitude). *)
Definition getattr (dp : DataPoint) (attribute : string)
    : result (option Quantity) :=
  if String.eqb attribute "temperature" then Ok (temperature dp)
  else if String.eqb attribute "pressure" then Ok (pressure dp)
  else if String.eqb attribute "ignition_delay" then Ok (ignition_delay dp)
  else if String.eqb attribute "pressure_rise" then Ok (pressure_rise dp)
  else if String.eqb attribute "compression_time" then Ok (compression_time dp)
  else Raise AttributeError.

(** [x.units] and [x.magnitude] where [x] may be [None]. *)
Definition the_quantity (x : option Quantity) : result Quantity :=
  of_option x AttributeError.

(** Truth of [getattr(dp, attribute, None)]. *)
Definition attr_truth (x : option Quantity) : bool :=
  match x with
  | Some q => quantity_truth q
  | None => false
  end.

Definition opt_string_eqb (a b : option string) : bool :=
  match a, b with
  | Some x, Some y => String.eqb x y
  | None, None => true
  | _, _ => false
  end.

Definition species_eqb (a b : Species) : bool :=
  String.eqb (sp_name a) (sp_name b) && opt_string_eqb (sp_InChI a) (sp_InChI b)
  && quantity_eqb (sp_amount a) (sp_amount b).

Fixpoint composition_eqb (a b : list Species) : bool :=
  match a, b with
  | [], [] => true
  | x :: a', y :: b' => species_eqb x y && composition_eqb a' b'
  | _, _ => false
  end.

Definition species_link (sp : Species) : Element :=
  element "speciesLink"
    (("preferredKey", sp_name sp) ::
     match sp_InChI sp with
     | Some i => if nonempty i then [("InChI", i)] else []
     | None => []
     end)
    None [].

Definition labels : gmap string string :=
  list_to_map [ ("temperature", "T"); ("pressure", "P");
                ("ignition delay", "tau"); ("pressure rise", "dP/dt") ].

(** ['x{}'.format(n)]. *)
Definition column_id (n : nat) : string := "x" +:+ pretty n.

(** [[getattr(dp, attribute) for dp in datapoints]]. *)
Definition getattr_all (dps : list DataPoint) (attribute : string)
    : result (list (option Quantity)) :=
  load_all (fun dp => getattr dp attribute) dps.

(** The loop that looks for common properties when several data points
    are present: the names found common and their [property] elements. *)
Fixpoint find_common (dps : list DataPoint) (names : list string)
    : result (list string * list Element) :=
  match names with
  | [] => Ok ([], [])
  | prop_name :: rest =>
      let attribute := replace_char " " "_" prop_name in
      first ← py_index dps 0;
      quantity ← getattr first attribute;
      values ← getattr_all dps attribute;
      '(common, props) ← find_common dps rest;
      match quantity with
      | Some q =>
          if forallb (opt_quantity_eqb (Some q)) values then
            Ok (prop_name :: common,
                element "property"
                  [("description", ""); ("name", prop_name); ("units", str_units q)]
                  None
                  [element "value" [] (Some (str_magnitude q)) []] :: props)
          else Ok (common, props)
      | None => Ok (common, props)
      end
  end.

(** The loop that declares the columns of the data group for the
    properties that are not common; [property_idx] maps column identifiers
    to property names, in insertion order. *)
Fixpoint declare_columns (dps : list DataPoint) (common : list string)
    (property_idx : list (string * string)) (names : list string)
    : result (list (string * string) * list Element) :=
  match names with
  | [] => Ok (property_idx, [])
  | prop_name :: rest =>
      let attribute := replace_char " " "_" prop_name in
      values ← getattr_all dps attribute;
      if negb (bool_decide (prop_name ∈ common)) && existsb attr_truth values then
        first ← py_index dps 0;
        x ← getattr first attribute;
        q ← the_quantity x;
        let idx := column_id (length property_idx + 1) in
        label ← getitem labels prop_name;
        '(property_idx', props) ←
          declare_columns dps common (property_idx ++ [(idx, prop_name)]) rest;
        Ok (property_idx',
            element "property"
              [("description", ""); ("name", prop_name); ("units", str_units q);
               ("id", idx); ("label", label)]
              None [] :: props)
      else declare_columns dps common property_idx rest
  end.

(** The columns for the species when the composition is not common. *)
Fixpoint declare_species (composition_type : string)
    (property_idx : list (string * string)) (l : list Species)
    : list (string * string) * list Element :=
  match l with
  | [] => (property_idx, [])
  | sp :: rest =>
      let idx := column_id (length property_idx + 1) in
      let '(property_idx', props) :=
        declare_species composition_type (property_idx ++ [(idx, sp_name sp)]) rest in
      (property_idx',
       element "property"
         [("description", ""); ("id", idx); ("label", "[" +:+ sp_name sp +:+ "]");
          ("name", "composition"); ("units", composition_type)]
         None [species_link sp] :: props)
  end.

(** One [dataPoint] row: a value per column. *)
Definition datapoint_row (property_idx : list (string * string)) (dp : DataPoint)
    : result Element :=
  values ← load_all
             (fun col : string * string =>
                x ← getattr dp (replace_char " " "_" (snd col));
                q ← the_quantity x;
                Ok (element (fst col) [] (Some (str_magnitude q)) []))
             property_idx;
  Ok (element "dataPoint" [] None values).

Definition datagroup_link : Element :=
  element "dataGroupLink" [("dataGroupID", ""); ("dataPointID", "")] None [].

(** The second data group, for the volume history of the first point. *)
Definition history_datagroup (property_idx : list (string * string))
    (volume_history : VolumeHistory) : Element :=
  let time_idx := column_id (length property_idx + 1) in
  let volume_idx := column_id (length property_idx + 2) in
  element "dataGroup" [("id", "dg1")] None
    ([ datagroup_link;
       element "property"
         [("description", ""); ("name", "time");
          ("units", unit_name (a_units (time volume_history)));
          ("id", time_idx); ("label", "t")] None [];
       element "property"
         [("description", ""); ("name", "volume");
          ("units", unit_name (a_units (volume volume_history)));
          ("id", volume_idx); ("label", "V")] None [] ]
     ++ zip_with
          (fun t v =>
             element "dataPoint" [] None
               [ element time_idx [] (Some (str_float t)) [];
                 element volume_idx [] (Some (str_float v)) [] ])
          (a_magnitudes (time volume_history))
          (a_magnitudes (volume volume_history))).

(** [str(x)] for an integer that may be [None]. *)
Definition str_opt_int (x : option Z) : string :=
  match x with
  | Some z => str_int z
  | None => "None"
  end.

(** The text of the [preferredKey] attribute. *)
Definition citation_of (r : Reference) : result string :=
  authors ← of_option (r_authors r) TypeError;
  let citation := foldl (fun acc a => acc +:+ a_name a +:+ ", ") "" authors in
  journal ← of_option (r_journal r) TypeError;
  pages ← of_option (r_pages r) TypeError;
  detail ← of_option (r_detail r) TypeError;
  Ok (citation +:+ journal +:+ " (" +:+ str_opt_int (r_year r) +:+ ") " +:+
      str_opt_int (r_volume r) +:+ ":" +:+ pages +:+ ". " +:+ detail).

(** [convert_to_ReSpecTh] after [c = ChemKED(yaml_file=filename_ck)], in the
    order of the source: file metadata, reference and apparatus. *)
Definition export_header (c : ChemKED) : result (list Element) :=
  let file_author := element "fileAuthor" [] (c_file_author_name c) [] in
  (* right now ChemKED just uses an integer file version *)
  let file_version :=
    element "fileVersion" [] None
      [ element "major" [] (Some (str_int (c_file_version c))) [];
        element "minor" [] (Some "0") [] ] in
  let respecth_version :=
    element "ReSpecThVersion" [] None
      [ element "major" [] (Some "1") []; element "minor" [] (Some "0") [] ] in
  (* Only ignition delay currently supported *)
  exp ← (if String.eqb (c_experiment_type c) "ignition delay"
         then Ok (element "experimentType" [] (Some "Ignition delay measurement") [])
         else Raise (NotImplementedError
                       "Only ignition delay type supported for conversion."));
  citation ← citation_of (c_reference c);
  doi ← of_option (r_doi (c_reference c)) TypeError;
  let reference :=
    element "bibliographyLink" [("preferredKey", citation); ("doi", doi)] None [] in
  let apparatus :=
    element "apparatus" [] None [element "kind" [] (Some (c_apparatus_kind c)) []] in
  Ok [file_author; file_version; respecth_version; exp; reference; apparatus].

(** The common properties: the list [common] of their names and the
    [commonProperties] element. *)
Definition export_common (c : ChemKED) : result (list string * Element) :=
  (* ChemKED objects have no common properties once loaded... can we check
     for properties among datapoints that tend to be common? *)
  first ← py_index (c_datapoints c) 0;
  let comp := composition first in
  (* Composition type *has* to be the same *)
  let comp_type := composition_type first in
  let '(common, common_props) :=
    if forallb (fun dp => composition_eqb comp (composition dp)) (c_datapoints c)
    then
      (* initial composition is common *)
      (["composition"],
       [element "property" [("name", "initial composition")] None
          ((fun sp =>
              element "component" [] None
                [ species_link sp;
                  element "amount" [("units", comp_type)]
                    (Some (str_magnitude (sp_amount sp))) [] ]) <$> comp)])
    else ([], []) in
  (* If multiple datapoints present, then find any common properties. If
     only one datapoint, then composition should be the only "common"
     property. *)
  if (1 <? length (c_datapoints c))%nat then
    '(found, props) ← find_common (c_datapoints c) datagroup_properties;
    Ok (common ++ found, element "commonProperties" [] None (common_props ++ props))
  else Ok (common, element "commonProperties" [] None common_props).

(** The first data group: [property_idx] and the [dataGroup] element. *)
Definition export_datagroup (c : ChemKED) (common : list string)
    : result (list (string * string) * Element) :=
  (* Ignition delay can't be common, unless only a single datapoint. *)
  '(property_idx, column_props) ←
    declare_columns (c_datapoints c) common []
      ["temperature"; "pressure"; "ignition delay"; "pressure rise"];
  first ← py_index (c_datapoints c) 0;
  let '(property_idx, species_props) :=
    if negb (bool_decide ("composition" ∈ common))
    then declare_species (composition_type first) property_idx (composition first)
    else (property_idx, []) in
  rows ← load_all (datapoint_row property_idx) (c_datapoints c);
  Ok (property_idx,
      element "dataGroup" [("id", "dg1")] None
        ([datagroup_link] ++ column_props ++ species_props ++ rows)).

Definition volume_history_message : string :=
  "Error: ReSpecTh files do not support multiple datapoints " +:+
  "with a volume history.".

(** The second data group, if any. *)
Definition export_histories (c : ChemKED) (property_idx : list (string * string))
    : result (list Element) :=
  (* if RCM and has volume history, need a second dataGroup *)
  if (1 <? length (c_datapoints c))%nat
     && existsb (fun dp => bool_decide (is_Some (volume_history dp))) (c_datapoints c)
  then Raise (NotImplementedError volume_history_message)
  else
    first ← py_index (c_datapoints c) 0;
    match volume_history first with
    | Some vh => Ok [history_datagroup property_idx vh]
    | None => Ok []
    end.

(** In ReSpecTh files all datapoints share ignition type *)
Definition export_ignition (first : DataPoint) : Element :=
  let target := ign_target (ignition_type first) in
  element "ignitionType"
    [ ("target",
       if String.eqb target "pressure" then "P"
       else if String.eqb target "temperature" then "T"
       else (* options left are species *) target);
      ("type", ign_type (ignition_type first)) ]
    None [].

Definition export_ReSpecTh (c : ChemKED) : result Element :=
  header ← export_header c;
  '(common, common_properties) ← export_common c;
  '(property_idx, datagroup) ← export_datagroup c common;
  histories ← export_histories c property_idx;
  first ← py_index (c_datapoints c) 0;
  Ok (element "experiment" [] None
        (header ++ [common_properties; datagroup] ++ histories
         ++ [export_ignition first])).

(** [convert_to_ReSpecTh]: the YAML file is loaded, then exported. *)
Definition convert_to_ReSpecTh (filename_ck : Properties) : result Element :=
  c ← ChemKED_init filename_ck;
  export_ReSpecTh c.

(** ** Sample documents and services *)

Definition sample_message : CrossrefMessage :=
  mkCrossrefMessage ["Combustion and Flame"] (Some 2016%Z) None (Some "172")
    (Some "116-135")
    (Some [ mkCrossrefAuthor "Kyle" "Niemeyer" (Some "http://orcid.org/0000-0003-4425-7097");
            mkCrossrefAuthor "Chih-Jen" "Sung" None ]).

(** Crossref knows one DOI; ORCID knows one identifier. *)
Definition sample_services : services :=
  mkServices
    (fun doi => if String.eqb doi "10.1000/sample" then Works sample_message
                else NotFound)
    (fun q => if String.eqb q "orcid:0000-0003-4425-7097"
              then OrcidResults 1 [("Kyle", "Niemeyer")]
              else OrcidResults 0 []).

(** Both services out of reach. *)
Definition offline_services : services :=
  mkServices (fun _ => Unreachable) (fun _ => OrcidUnreachable).

Definition sample_component (name units_attr amount_text : string) : Element :=
  element "component" [] None
    [ element "speciesLink" [("preferredKey", name)] None [];
      element "amount" [("units", units_attr)] (Some amount_text) [] ].

Definition sample_composition (units_h2 units_o2 : string) : Element :=
  element "property" [("name", "initial composition")] None
    [ sample_component "H2" units_h2 "0.25";
      sample_component "O2" units_o2 "0.75" ].

(** A row of the sample data group (temperature, ignition delay) and the
    group itself. *)
Definition sample_row (row : string * string) : Element :=
  element "dataPoint" [] None
    [ element "x1" [] (Some (fst row)) [];
      element "x2" [] (Some (snd row)) [] ].

Definition sample_datagroup (rows : list (string * string)) : Element :=
  element "dataGroup" [("id", "dg1")] None
    ([ element "property"
         [("name", "temperature"); ("id", "x1"); ("units", "K")] None [];
       element "property"
         [("name", "ignition delay"); ("id", "x2"); ("units", "us")] None [] ]
     ++ (sample_row <$> rows)).

(** A ReSpecTh document for a shock tube with one data group.  The
    parameters are the attributes of [bibliographyLink], the common
    properties, the rows of the data group and the ignition target. *)
Definition sample_document (link : list (string * string))
    (common : list Element) (rows : list (string * string)) (target : string)
    : Element :=
  element "experiment" [] None
    [ element "fileAuthor" [] (Some "Kyle Niemeyer") [];
      element "experimentType" [] (Some "Ignition delay measurement") [];
      element "bibliographyLink" link None [];
      element "apparatus" [] None [element "kind" [] (Some "shock tube") []];
      element "commonProperties" [] None common;
      sample_datagroup rows;
      element "ignitionType" [("target", target); ("type", "max")] None [] ].

Definition common_scalar (name units_attr value : string) : Element :=
  element "property" [("name", name); ("units", units_attr)] None
    [element "value" [] (Some value) []].

(** ** Calls, for statements about every rule and every sequence of
    module-level switches *)

Inductive module_call : Type := CallDisable | CallEnable.

Definition apply_call (p : process) (c : module_call) : process :=
  match c with
  | CallDisable => disable_validation p
  | CallEnable => enable_validation p
  end.

Definition apply_calls (calls : list module_call) (p : process) : process :=
  foldl apply_call p calls.

(** The four semantic rules with their arguments. *)
Inductive rule_call : Type :=
| IsValidUnit (isvalid_unit : bool) (field : string) (value : gmap string string)
| IsValidQuantity (isvalid_quantity : bool) (field : string) (value : string)
| IsValidReference (isvalid_reference : bool) (field : string) (value : Reference)
| IsValidOrcid (isvalid_orcid : bool) (field : string) (value : Author).

Definition invoke (srv : services) (call : rule_call) : M unit :=
  match call with
  | IsValidUnit b f v => _validate_isvalid_unit b f v
  | IsValidQuantity b f v => _validate_isvalid_quantity b f v
  | IsValidReference b f v => _validate_isvalid_reference srv b f v
  | IsValidOrcid b f v => _validate_isvalid_orcid srv b f v
  end.

(** What a method call yields when run in process [p] on instance [v]: its
    result, the instance afterwards and the events it added. *)
Definition outcome {A : Type} (m : M A) (p : process) (v : OurValidator)
    : result A * OurValidator * list event :=
  let '(r, (p', v')) := run m (p, v) in
  (r, v', drop (length (events p)) (events p')).

(** A method that never reads or writes the module's flag: from an instance
    [v] it gives a result, an instance and added events that do not depend
    on the process it runs in. *)
Definition process_blind {A : Type} (m : M A) : Prop :=
  forall v, exists r v' added, forall p,
    run m (p, v) = (r, (mkProcess (_mod_skip_validation p) (events p ++ added), v')).

(** A source with the temperature both as a common property (1200 K) and
    in the row of its only data point (1000 K); its DOI resolves. *)
Definition overlapping_document : Element :=
  sample_document [("preferredKey", "Niemeyer 2016"); ("doi", "10.1000/sample")]
    [ sample_composition "mole fraction" "mole fraction";
      common_scalar "pressure" "atm" "1.0";
      common_scalar "temperature" "K" "1200" ]
    [("1000", "100")] "P".

(** The value of [prop] in each data point. *)
Definition values_of (prop : string) (dps : list (gmap string pval))
    : list (option pval) :=
  (fun dp => dp !! prop) <$> dps.

(** A reference whose DOI Crossref does not know. *)
Definition unverifiable_reference : Reference :=
  mkReference (Some "10.1000/unknown") (Some "Combustion and Flame") (Some 2016%Z)
    (Some 172%Z) (Some "116-135") (Some [mkAuthor "Kyle Niemeyer" None]) None.

(** The process once the module-level [disable_validation()] has run. *)
Definition skipping_process : process := disable_validation initial_process.

(** The fixed semantic unit of a field: the unit [property_units] names
    for it. *)
Definition semantic_unit (field : string) : option Unit :=
  target ← property_units !! field; lookup_unit (strip target).

Definition second_unit : Unit := mkUnit "second" dim_time 1 0.


(** Loaded records. *)
Definition kelvin : Unit := mkUnit "kelvin" dim_temperature 1 0.
Definition pascal : Unit := mkUnit "pascal" dim_pressure 1 0.
Definition microsecond : Unit := mkUnit "microsecond" dim_time (1 # 1000000) 0.
Definition cubic_centimeter : Unit :=
  mkUnit "centimeter ** 3" dim_volume (1 # 1000000) 0.

Definition sample_species : list Species :=
  [ mkSpecies "H2" None (mkQuantity (1 # 4) dimensionless);
    mkSpecies "O2" None (mkQuantity (3 # 4) dimensionless) ].

(** A data point at temperature [T] kelvin and one atmosphere with an
    ignition delay of [tau] microseconds. *)
Definition sample_point (T tau : Q) (history : option VolumeHistory) : DataPoint :=
  mkDataPoint (Some (mkQuantity T kelvin)) (Some (mkQuantity 101325 pascal))
    (Some (mkQuantity tau microsecond)) None None sample_species "mole fraction"
    (mkIgnitionType "max" "pressure") history.

Definition sample_reference : Reference :=
  mkReference (Some "10.1000/sample") (Some "Combustion and Flame") (Some 2016%Z)
    (Some 172%Z) (Some "116-135")
    (Some [mkAuthor "Kyle Niemeyer" None; mkAuthor "Chih-Jen Sung" None])
    (Some "Converted from XML file st.xml").

Definition sample_record (kind : string) (dps : list DataPoint) : ChemKED :=
  mkChemKED (Some "Kyle Niemeyer") 0 "ignition delay" sample_reference kind dps.

Definition sample_history : VolumeHistory :=
  mkVolumeHistory (mkArrayQuantity [0; 1 # 1000; 2 # 1000]%Q second_unit)
                  (mkArrayQuantity [500; 480; 450]%Q cubic_centimeter).

(** Two data points, of which exactly one carries a volume history. *)
Definition one_history_record : ChemKED :=
  sample_record "rapid compression machine"
    [sample_point 800 100 (Some sample_history); sample_point 900 50 None].

(** One data point with its volume history. *)
Definition single_history_record : ChemKED :=
  sample_record "rapid compression machine"
    [sample_point 800 100 (Some sample_history)].

(** Two data points at different temperatures with the same ignition
    delay. *)
Definition equal_delay_record : ChemKED :=
  sample_record "shock tube" [sample_point 1000 100 None; sample_point 1100 100 None].

(** The [name] attributes of the record-level common properties of an
    exported document. *)
Definition common_property_names (doc : Element) : list (option string) :=
  (fun e => attrib e !! "name") <$> iterfind2 doc "commonProperties" "property".

(** The document of a successful export (an empty element otherwise). *)
Definition exported (r : result Element) : Element :=
  match r with
  | Ok doc => doc
  | Raise _ => element "" [] None []
  end.

(** ** Round trip: what export followed by import preserves *)

(** The ignition target as the importer canonicalises it, before [P] and
    [T] are renamed. *)
Definition canonical_target (target : string) : string :=
  let t := upper (rstrip_by (Ascii.eqb ";") target) in
  if String.eqb t "OHEX" then "OH*"
  else if String.eqb t "CHEX" then "CH*"
  else t.



(** The renaming of [P] and [T] that ends [get_ignition_type]. *)
Definition rename_target (t : string) : string :=
  if String.eqb t "P" then "pressure"
  else if String.eqb t "T" then "temperature"
  else t.



Definition tracked_fields : list string :=
  ["temperature"; "pressure"; "ignition-delay"; "pressure-rise"].

(** The record of a successful import (an empty record otherwise). *)
Definition imported (r : result Properties) : Properties :=
  match r with
  | Ok p => p
  | Raise _ => mkProperties None None 0 "" empty_reference "" "" "" "" ∅ []
  end.

(** A source with one data point and a resolving DOI, whose temperature is
    given both as a common property (1200 K) and in the row (1000 K) and
    whose ignition target is written OHEX. *)
Definition noncanonical_document : Element :=
  sample_document [("preferredKey", "Niemeyer 2016"); ("doi", "10.1000/sample")]
    [ sample_composition "mole fraction" "mole fraction";
      common_scalar "pressure" "atm" "1.0";
      common_scalar "temperature" "K" "1200" ]
    [("1000", "100")] "OHEX".

(** The same source without the [doi] attribute and without the common
    temperature, its target written P. *)
Definition detail_only_document : Element :=
  sample_document [("preferredKey", "Niemeyer 2016")]
    [ sample_composition "mole fraction" "mole fraction";
      common_scalar "pressure" "atm" "1.0" ]
    [("1000", "100")] "P".

(** Import followed by export. *)
Definition round_trip (srv : services) (root : Element) : result Element :=
  convert_ReSpecTh srv "0.1" root "st.xml" "" "" ≫= convert_to_ReSpecTh.

(** The [target] attribute of the [ignitionType] element. *)
Definition target_attribute (doc : Element) : option string :=
  find doc "ignitionType" ≫= fun e => attrib e !! "target".

(** The [units] attribute of the [amount] of a component. *)
Definition amount_units (child : Element) : option string :=
  find child "amount" ≫= fun a => attrib a !! "units".

(** The data points all have the value the first of them has for the
    attribute read by [f], and it has one. *)
Definition shared (f : DataPoint -> option Quantity) (dps : list DataPoint) : bool :=
  match dps with
  | first :: _ =>
      match f first with
      | Some q => forallb (fun dp => opt_quantity_eqb (Some q) (f dp)) dps
      | None => false
      end
  | [] => false
  end.

(** How many [property] children of [cp] are named [name]. *)
Definition count_named (cp : Element) (name : string) : nat :=
  length (List.filter (fun e => bool_decide (attrib e !! "name" = Some name))
                      (findall cp "property")).

(** The common properties of a successful export (none otherwise). *)
Definition exported_common (c : ChemKED) : list string * Element :=
  match export_common c with
  | Ok r => r
  | Raise _ => ([], element "" [] None [])
  end.

(** Every character of [s] satisfies [p]. *)
Fixpoint all_chars (p : ascii -> bool) (s : string) : bool :=
  match s with
  | EmptyString => true
  | String c s' => p c && all_chars p s'
  end.

(** A character that [compare_name] keeps in a token and [strip] keeps at
    the ends of a name. *)
Definition name_char (c : ascii) : bool :=
  negb (name_separator c) && negb (is_space c).

(** A single word: not empty, and without separators or white space. *)
Definition single_word (s : string) : bool :=
  nonempty s && all_chars name_char s.

(** The question name as [compare_name] tokenises it: lower-cased, put in
    given-name-first order when it has a comma, then split. *)
Definition question_tokens (question_name : string) : list string :=
  let question_name := lower question_name in
  let question_name :=
    if contains_char "," question_name
    then strip (join " " (rev (split_char "," question_name)))
    else question_name in
  name_tokens question_name.

(** A method that only adds: whatever the state it runs in, it leaves the
    module's flag and the instance's flag as they were, and keeps the events
    and the errors recorded so far, in order, before those it adds. *)
Definition only_adds {A : Type} (m : M A) : Prop :=
  forall p v, exists r added errs,
    run m (p, v)
    = (r, (mkProcess (_mod_skip_validation p) (events p ++ added),
           mkValidator (_skip_validation v) (errors v ++ errs))).

(** The reference [get_reference] falls back to: the [doi] attribute if
    there is one, and the [preferredKey] attribute, closed by a period, as
    the detail. *)
Definition fallback_reference (elem : Element) : result Reference :=
  match attrib elem !! "preferredKey" with
  | None => Raise (MissingAttributeError "preferredKey" "bibliographyLink")
  | Some key =>
      dotted ← last_char_is "." key;
      Ok (mkReference (attrib elem !! "doi") None None None None None
            (Some (if dotted : bool then key else key +:+ ".")))
  end.

(** Crossref has no record to give for the [doi] attribute of [elem]: there
    is no such attribute, the DOI is not found, or the service is out of
    reach. *)
Definition unresolved (srv : services) (elem : Element) : bool :=
  match attrib elem !! "doi" with
  | None => true
  | Some doi =>
      match crossref_works srv doi with
      | Works _ => false
      | NotFound | Unreachable => true
      end
  end.

(** The unit expression [units_attr] names a unit of the registry that has
    the dimension of the reference unit of [field]. *)
Definition compatible_units (field units_attr : string) : Prop :=
  exists unit reference_unit,
    lookup_unit (strip units_attr) = Some unit /\
    semantic_unit field = Some reference_unit /\
    dim_eqb (dim unit) (dim reference_unit) = true.

(** The fields of the scalar common properties. *)
Definition common_scalar_fields : list string :=
  ["temperature"; "pressure"; "pressure-rise"; "compression-time"].

(** The ignition targets of a converted record. *)
Definition converted_targets : list string :=
  ["pressure"; "temperature"; "OH"; "OH*"; "CH*"; "CH"].

(** An element as [e] with its [target] attribute set to [t]. *)
Definition with_target (t : string) (e : Element) : Element :=
  mkElement (tag e) (<["target" := t]> (attrib e)) (text e) (children e).

(** A value as the importer reads it from a row of the first data group:
    under one of the four tracked fields, a one-element list. *)
Definition row_value (k : string) (v : pval) : Prop :=
  k ∈ tracked_fields /\ exists s, v = PQuantity [s].

(** A value of a data point as [get_datapoints] returns it: a row value,
    or the volume history. *)
Definition point_value (k : string) (v : pval) : Prop :=
  row_value k v \/ (k = "volume-history" /\ exists vh, v = PVolumeHistory vh).

(** The messages of the two checks of [convert_ReSpecTh] on a volume given
    as a property. *)
Definition time_needed_message : string :=
  "Time values needed for volume history".
Definition volume_and_rise_message : string :=
  "Both volume history and pressure rise cannot be specified".

Definition is_keyword_error (e : exn) : bool :=
  match e with KeywordError _ => true | _ => false end.

(** An exception other than those of the two checks on a volume given as a
    property. *)
Definition not_history_error (e : exn) : Prop :=
  e <> KeywordError time_needed_message /\
  e <> KeywordError volume_and_rise_message.

(** The reference has what [convert_to_ReSpecTh] reads from it to build the
    [bibliographyLink] element. *)
Definition citable (r : Reference) : Prop :=
  is_Some (r_authors r) /\ is_Some (r_journal r) /\ is_Some (r_pages r) /\
  is_Some (r_detail r) /\ is_Some (r_doi r).

(** The [component] element of a species of the common composition. *)
Definition component_of (composition_type : string) (sp : Species) : Element :=
  element "component" [] None
    [ species_link sp;
      element "amount" [("units", composition_type)]
        (Some (str_magnitude (sp_amount sp))) [] ].

(** The attributes of a data point that hold a quantity. *)
Definition quantity_attributes : list string :=
  ["temperature"; "pressure"; "ignition_delay"; "pressure_rise"; "compression_time"].

(** Two data points that differ in composition. *)
Definition varying_composition_record : ChemKED :=
  sample_record "shock tube"
    [ sample_point 1000 100 None;
      mkDataPoint (Some (mkQuantity 1100 kelvin)) (Some (mkQuantity 101325 pascal))
        (Some (mkQuantity 50 microsecond)) None None
        [ mkSpecies "H2" None (mkQuantity (1 # 2) dimensionless);
          mkSpecies "O2" None (mkQuantity (1 # 2) dimensionless) ]
        "mole fraction" (mkIgnitionType "max" "pressure") None ].








(** * Properties *)

Example compare_name_doc1 :
  compare_name "Kyle" "Niemeyer" "Kyle E Niemeyer" = Ok true.
Proof. vm_compute. reflexivity. Qed.





(** ** The name matcher *)

Lemma lower_char_idemp (c : ascii) : lower_char (lower_char c) = lower_char c.
Proof. destruct c as [[] [] [] [] [] [] [] []]; reflexivity. Qed.

Lemma lower_upper_char (c : ascii) : lower_char (upper_char c) = lower_char c.
Proof. destruct c as [[] [] [] [] [] [] [] []]; reflexivity. Qed.

Lemma lower_idemp (s : string) : lower (lower s) = lower s.
Proof.
  unfold lower. induction s as [|c s IH]; [reflexivity|].
  cbn [map_string]. f_equal; [apply lower_char_idemp | exact IH].
Qed.

Lemma lower_upper (s : string) : lower (upper s) = lower s.
Proof.
  unfold lower, upper. induction s as [|c s IH]; [reflexivity|].
  cbn [map_string]. f_equal; [apply lower_upper_char | exact IH].
Qed.

Lemma compare_name_folds (g f q g' f' q' : string) :
  lower g = lower g' -> lower f = lower f' -> lower q = lower q' ->
  compare_name g f q = compare_name g' f' q'.
Proof. intros Hg Hf Hq. unfold compare_name. now rewrite Hg, Hf, Hq. Qed.

(** C7: [compare_name] is a function of its three arguments whose result
    depends on them only through their lower-case forms (so it does not
    change when the arguments are lower-cased or upper-cased), and it gives
    the three documented answers. *)
Theorem compare_name_case_insensitive :
  (forall g f q g' f' q',
      lower g = lower g' -> lower f = lower f' -> lower q = lower q' ->
      compare_name g f q = compare_name g' f' q') /\
  (forall g f q, compare_name (lower g) (lower f) (lower q) = compare_name g f q) /\
  (forall g f q, compare_name (upper g) (upper f) (upper q) = compare_name g f q) /\
  compare_name "Kyle" "Niemeyer" "Kyle E Niemeyer" = Ok true /\
  compare_name "Chih-Jen" "Sung" "C-J Sung" = Ok true /\
  compare_name "Kyle" "Niemeyer" "John Smith" = Ok false.
Proof.
  split; [exact compare_name_folds|].
  split; [intros; apply compare_name_folds; apply lower_idemp|].
  split; [intros; apply compare_name_folds; apply lower_upper|].
  repeat split; vm_compute; reflexivity.
Qed.

(** ** The broadcast of the common properties *)

Lemma apply_common_properties_union (common datapoint : gmap string pval) :
  apply_common_properties common datapoint = common ∪ datapoint.
Proof.
  unfold apply_common_properties.
  apply (map_fold_weak_ind
           (fun r (m : gmap string pval) => r = m ∪ datapoint)).
  - now rewrite (left_id_L ∅ (∪)).
  - intros i x m r Hi ->. now rewrite insert_union_l.
Qed.

Lemma apply_common_properties_lookup (common datapoint : gmap string pval)
    (prop : string) :
  apply_common_properties common datapoint !! prop =
  match common !! prop with
  | Some v => Some v
  | None => datapoint !! prop
  end.
Proof.
  rewrite apply_common_properties_union, lookup_union.
  destruct (common !! prop), (datapoint !! prop); reflexivity.
Qed.

(** C1 (amended): after the broadcast step every data point has, for each
    property, the common value when the common properties define it, and
    its own original value exactly when they do not. *)
Theorem broadcast_common_value_wins (common : gmap string pval)
    (dps : list (gmap string pval)) (i : nat) (prop : string) :
  (apply_common_properties common <$> dps) !! i ≫= (fun dp => dp !! prop) =
  dps !! i ≫= (fun datapoint =>
                 match common !! prop with
                 | Some v => Some v
                 | None => datapoint !! prop
                 end).
Proof.
  rewrite list_lookup_fmap. destruct (dps !! i) as [datapoint|]; [|reflexivity].
  apply apply_common_properties_lookup.
Qed.

(** C1 (as stated) fails: the row of the only data point gives the
    temperature as 1000 K, the common properties give 1200 K, and the data
    point of the converted record holds 1200 K. *)
Lemma broadcast_overwrites_own_value :
  (values_of "temperature" <$> get_datapoints overlapping_document)
    = Ok [Some (PQuantity ["1000 K"])] /\
  (values_of "temperature" <$>
     (datapoints <$>
        convert_ReSpecTh sample_services "0.1" overlapping_document "st.xml" "" ""))
    = Ok [Some (PQuantity ["1200 K"])].
Proof. split; vm_compute; reflexivity. Qed.

(** ** The skip flag *)

Lemma run_bind {A B : Type} (m : M A) (k : A -> M B) (s : process * OurValidator) :
  run (m ≫= k) s =
  match run m s with
  | (Ok a, s') => run (k a) s'
  | (Raise e, s') => (Raise e, s')
  end.
Proof. reflexivity. Qed.

Lemma emit_events (e : event) (p : process) :
  emit e p = mkProcess (_mod_skip_validation p) (events p ++ [e]).
Proof. reflexivity. Qed.

Lemma blind_ret {A : Type} (a : A) : process_blind (mret a).
Proof.
  intros v. exists (Ok a), v, []. intros [flag evs]. cbn. now rewrite app_nil_r.
Qed.

Lemma blind_lift {A : Type} (r : result A) : process_blind (lift r).
Proof.
  intros v. exists r, v, []. intros [flag evs]. cbn. now rewrite app_nil_r.
Qed.

Lemma blind_warn (msg : string) : process_blind (warn msg).
Proof. intros v. exists (Ok tt), v, [Warning msg]. now intros [flag evs]. Qed.

Lemma blind_query (e : event) : process_blind (query e).
Proof. intros v. exists (Ok tt), v, [e]. now intros [flag evs]. Qed.

Lemma blind_error (field msg : string) : process_blind (_error field msg).
Proof.
  intros v.
  exists (Ok tt), (mkValidator (_skip_validation v) (errors v ++ [(field, msg)])), [].
  intros [flag evs]. cbn. now rewrite app_nil_r.
Qed.

Lemma blind_self_skip : process_blind self_skip_validation.
Proof.
  intros v. exists (Ok (_skip_validation v)), v, []. intros [flag evs]. cbn.
  now rewrite app_nil_r.
Qed.

Lemma blind_bind {A B : Type} (m : M A) (k : A -> M B) :
  process_blind m -> (forall a, process_blind (k a)) -> process_blind (m ≫= k).
Proof.
  intros Hm Hk v. destruct (Hm v) as (r & v1 & added1 & H1).
  destruct r as [a|e].
  - destruct (Hk a v1) as (r2 & v2 & added2 & H2).
    exists r2, v2, (added1 ++ added2). intros p.
    rewrite run_bind, H1, H2. cbn. now rewrite app_assoc.
  - exists (Raise e), v1, added1. intros p. now rewrite run_bind, H1.
Qed.

Lemma blind_except {A : Type} (m h : M A) :
  process_blind m -> process_blind h -> process_blind (except_dimensionality m h).
Proof.
  intros Hm Hh v. destruct (Hm v) as (r & v1 & added1 & H1).
  destruct (Hh v1) as (r2 & v2 & added2 & H2).
  destruct r as [a|e].
  - exists (Ok a), v1, added1. intros p. unfold except_dimensionality. cbn.
    now rewrite H1.
  - destruct e;
      try (exists r2, v2, (added1 ++ added2); intros p;
           unfold except_dimensionality; cbn; rewrite H1, H2; cbn;
           now rewrite app_assoc);
      eexists _, v1, added1; intros p; unfold except_dimensionality; cbn;
      now rewrite H1.
Qed.

Ltac blind_step :=
  first
    [ apply blind_ret | apply blind_lift | apply blind_warn | apply blind_query
    | apply blind_error | apply blind_self_skip
    | apply blind_except
    | apply blind_bind; [|intros ?]
    | match goal with
      | |- process_blind (if ?b then _ else _) => destruct b
      | |- process_blind (match ?x with _ => _ end) => destruct x
      | |- process_blind (let '(_, _) := ?x in _) => destruct x
      end ].

Lemma blind_check_author field authors author names :
  process_blind (check_author field authors author names).
Proof. unfold check_author. repeat blind_step. Qed.

Lemma blind_check_authors field authors ref_authors names :
  process_blind (check_authors field authors ref_authors names).
Proof.
  revert names. induction ref_authors as [|a rest IH]; intros names;
    cbn [check_authors].
  - apply blind_ret.
  - apply blind_bind; [apply blind_check_author | intros ?; apply IH].
Qed.

Lemma blind_check_reference field value ref :
  process_blind (check_reference field value ref).
Proof.
  unfold check_reference.
  repeat first [apply blind_check_authors | blind_step].
Qed.

Lemma blind_invoke (srv : services) (call : rule_call) :
  process_blind (invoke srv call).
Proof.
  destruct call; cbn [invoke].
  - unfold _validate_isvalid_unit. repeat blind_step.
  - unfold _validate_isvalid_quantity. repeat blind_step.
  - unfold _validate_isvalid_reference.
    repeat first [apply blind_check_reference | blind_step].
  - unfold _validate_isvalid_orcid. repeat blind_step.
Qed.

Lemma outcome_blind {A : Type} (m : M A) (v : OurValidator) (p q : process) :
  process_blind m -> outcome m p v = outcome m q v.
Proof.
  intros Hm. destruct (Hm v) as (r & v' & added & H).
  unfold outcome. rewrite !H. cbn. now rewrite !drop_app_length.
Qed.

Lemma apply_calls_snoc (calls : list module_call) (c : module_call) (p : process) :
  apply_calls (calls ++ [c]) p = apply_call (apply_calls calls p) c.
Proof. unfold apply_calls. now rewrite foldl_app. Qed.

(** C9: a validator takes the module's flag when it is constructed and
    keeps it: whatever module-level [disable_validation] and
    [enable_validation] calls follow (and whatever they leave the module
    flag at), each of the four rules gives on that instance the same
    result, the same recorded errors and the same warnings and lookups as
    before those calls; the instance's own two methods are what sets its
    flag. *)
Theorem validator_keeps_flag_of_construction :
  (forall p, _skip_validation (OurValidator_init p) = _mod_skip_validation p) /\
  (forall srv call calls p (v : OurValidator),
      outcome (invoke srv call) (apply_calls calls p) v
      = outcome (invoke srv call) p v) /\
  (forall calls p,
      _mod_skip_validation (apply_calls (calls ++ [CallDisable]) p) = true /\
      _mod_skip_validation (apply_calls (calls ++ [CallEnable]) p) = false) /\
  (forall p v,
      _skip_validation (snd (snd (run OurValidator_disable_validation (p, v)))) = true /\
      _skip_validation (snd (snd (run OurValidator_enable_validation (p, v)))) = false).
Proof.
  split; [reflexivity|].
  split; [intros; apply outcome_blind, blind_invoke|].
  split; [|intros p v; split; reflexivity].
  intros calls p. rewrite !apply_calls_snoc. split; reflexivity.
Qed.

Lemma invoke_skipped (srv : services) (call : rule_call) (p : process)
    (v : OurValidator) :
  _skip_validation v = true -> run (invoke srv call) (p, v) = (Ok tt, (p, v)).
Proof.
  intros Hskip. destruct call as [b f x|b f x|b f x|b f x]; cbn [invoke].
  - unfold _validate_isvalid_unit. rewrite run_bind. cbn. rewrite Hskip.
    now rewrite andb_false_r.
  - unfold _validate_isvalid_quantity. rewrite run_bind. cbn. rewrite Hskip.
    now rewrite andb_false_r.
  - unfold _validate_isvalid_reference. rewrite run_bind. cbn. rewrite Hskip.
    rewrite andb_false_r. now destruct (r_doi x).
  - unfold _validate_isvalid_orcid. rewrite run_bind. cbn. rewrite Hskip.
    rewrite andb_false_r. now destruct (a_ORCID x).
Qed.

(** C8: with the module's skip flag set, a validator constructed then runs
    each of the four semantic rules, whatever its arguments and whatever
    the external services would answer, without recording an error,
    emitting a warning or sending a query; and every module-level
    [disable_validation] or [enable_validation] call adds one warning. *)
Theorem skip_flag_short_circuits (srv : services) (call : rule_call)
    (p : process) :
  _mod_skip_validation p = true ->
  run (invoke srv call) (p, OurValidator_init p)
    = (Ok tt, (p, OurValidator_init p)) /\
  errors (OurValidator_init p) = [] /\
  (forall q,
      disable_validation q = mkProcess true (events q ++ [Warning "validation disabled."]) /\
      enable_validation q = mkProcess false (events q ++ [Warning "validation enabled."])).
Proof.
  intros Hflag. split; [now apply invoke_skipped|].
  split; [reflexivity|]. intros q. split; reflexivity.
Qed.

(** The rule for a reference whose DOI cannot be verified, after
    [disable_validation()]: no error, no lookup. *)
Lemma skip_flag_short_circuits_witness :
  run (invoke sample_services (IsValidReference true "reference" unverifiable_reference))
      (skipping_process, OurValidator_init skipping_process)
    = (Ok tt, (skipping_process, OurValidator_init skipping_process)) /\
  errors (OurValidator_init skipping_process) = [] /\
  (forall q,
      disable_validation q = mkProcess true (events q ++ [Warning "validation disabled."]) /\
      enable_validation q = mkProcess false (events q ++ [Warning "validation enabled."])).
Proof.
  apply (skip_flag_short_circuits sample_services
           (IsValidReference true "reference" unverifiable_reference)
           skipping_process).
  reflexivity.
Defined.

(** The same call on a validator constructed before [disable_validation()]
    queries Crossref and records that the DOI was not found. *)
Example unverifiable_reference_checked :
  outcome (invoke sample_services (IsValidReference true "reference" unverifiable_reference))
          skipping_process (OurValidator_init initial_process)
  = (Ok tt, mkValidator false [("reference", "DOI not found")],
     [CrossrefQuery "10.1000/unknown"]).
Proof. vm_compute. reflexivity. Qed.

(** ** Quantity validity *)

Lemma div_nonpos (x f : Q) : (0 < f)%Q -> (Qred (x / f) <= 0 <-> x <= 0)%Q.
Proof.
  intros Hf. rewrite Qred_correct.
  assert (Hx : (x == x / f * f)%Q) by (field; lra).
  split; intros H.
  - rewrite Hx. nra.
  - assert (~ (0 < x / f)%Q); [|lra]. intros Hp.
    assert (0 < x / f * f)%Q by nra. lra.
Qed.

Lemma lookup_unit_positive (s : string) (u : Unit) :
  lookup_unit s = Some u -> (0 < factor u)%Q.
Proof.
  unfold lookup_unit. destruct (List.find _ unit_table) as [e|] eqn:E; [|discriminate].
  intros [= <-]. apply find_some in E as [Hin _].
  assert (H : List.Forall (fun e => (0 < factor (snd e))%Q) unit_table)
    by (repeat constructor).
  now apply (proj1 (List.Forall_forall _ _) H).
Qed.

(** C5: for a field flagged for quantity validation, on a validator that
    does not skip, with [u] the field's semantic unit and [q] the quantity
    the value reads as: the rule returns normally, leaves the process as it
    was, and either records nothing, and then the magnitude of [q] in [u]
    exists and is strictly positive, or records exactly one error for the
    field, and then [q] is dimensionally incompatible with [u] or its
    magnitude in [u] is not strictly positive.  The cases of 0 second and
    1.0 second for the ignition delay are [quantity_validity_witness]. *)
Theorem quantity_validity (field value : string) (q : Quantity) (u : Unit)
    (p : process) (v : OurValidator) :
  _skip_validation v = false ->
  semantic_unit field = Some u ->
  Q_ value = Ok q ->
  exists errs,
    run (_validate_isvalid_quantity true field value) (p, v)
      = (Ok tt, (p, mkValidator false (errors v ++ errs))) /\
    ((errs = [] /\ exists m, magnitude_in q u = Ok m /\ (0 < m)%Q) \/
     (exists msg, errs = [(field, msg)] /\
        (magnitude_in q u = Raise DimensionalityError \/
         exists m, magnitude_in q u = Ok m /\ (m <= 0)%Q))).
Proof.
  intros Hskip Hu HQ.
  unfold semantic_unit in Hu.
  destruct (property_units !! field) as [target|] eqn:Htarget; [|discriminate].
  change (lookup_unit (strip target) = Some u) in Hu. pose proof (lookup_unit_positive _ _ Hu) as Hf.
  unfold _validate_isvalid_quantity. rewrite run_bind. cbn [run self_skip_validation snd].
  rewrite Hskip. cbn [andb negb]. rewrite run_bind. cbn [run lift]. rewrite HQ.
  rewrite run_bind. cbn [run lift]. unfold getitem. rewrite Htarget. cbn [of_option].
  rewrite run_bind. cbn [run lift]. unfold units. rewrite Hu.
  replace (scale 0 {| magnitude := 1; q_units := u |}) with (mkQuantity 0 u)
    by reflexivity.
  unfold except_dimensionality. cbn [run]. rewrite run_bind. cbn [run lift].
  unfold quantity_le, magnitude_in. cbn [q_units magnitude].
  destruct v as [skip errs0]. cbn in Hskip. subst skip. cbn [errors].
  assert (Hroot : (to_root {| magnitude := 0; q_units := u |} == offset u)%Q)
    by (unfold to_root; cbn; lra).
  assert (Hsign : forall below : bool,
             (below = true <-> (to_root q - offset u <= 0)%Q) ->
             dim_eqb (dim (q_units q)) (dim u) = true ->
             exists errs,
               (let (r0, s') :=
                  run (if below
                       then _error field ("value must be greater than 0.0 " +:+ target)
                       else mret tt) (p, mkValidator false errs0) in
                match r0 with
                | Raise DimensionalityError =>
                    run (_error field
                           ("incompatible units; should be consistent with " +:+ target)) s'
                | r => (r, s')
                end)
               = (Ok tt, (p, mkValidator false (errs0 ++ errs))) /\
               ((errs = [] /\
                 exists m, Ok (Qred ((to_root q - offset u) / factor u)) = Ok m /\ (0 < m)%Q) \/
                (exists msg, errs = [(field, msg)] /\
                   ((Ok (Qred ((to_root q - offset u) / factor u)) : result Q)
                      = Raise DimensionalityError \/
                    exists m, Ok (Qred ((to_root q - offset u) / factor u)) = Ok m
                              /\ (m <= 0)%Q)))).
  { intros below Hbelow _.
    pose proof (div_nonpos (to_root q - offset u) (factor u) Hf) as Hdiv.
    destruct below.
    - exists [(field, "value must be greater than 0.0 " +:+ target)].
      split; [reflexivity|]. right. eexists. split; [reflexivity|]. right.
      eexists. split; [reflexivity|]. apply Hdiv. now apply Hbelow.
    - exists []. split; [cbn; now rewrite app_nil_r|]. left.
      split; [reflexivity|]. eexists. split; [reflexivity|].
      apply Qnot_le_lt. intros Hle. apply Hdiv in Hle.
      apply Hbelow in Hle. discriminate. }
  destruct (unit_eqb (q_units q) u) eqn:Hunit.
  - unfold unit_eqb in Hunit.
    apply andb_true_iff in Hunit as [Hunit Hoff].
    apply andb_true_iff in Hunit as [Hunit Hfac].
    apply andb_true_iff in Hunit as [_ Hdim].
    apply Qeq_bool_iff in Hoff, Hfac. rewrite Hdim.
    destruct (Hsign (Qle_bool (magnitude q) 0)) as (errs & Hrun & Hcase);
      [|exact Hdim|].
    + rewrite Qle_bool_iff. unfold to_root. split; intros H; nra.
    + exists errs. split; [|exact Hcase].
      destruct (Qle_bool (magnitude q) 0); exact Hrun.
  - destruct (dim_eqb (dim (q_units q)) (dim u)) eqn:Hdim.
    + destruct (Hsign (Qle_bool (to_root q) (to_root {| magnitude := 0; q_units := u |})))
        as (errs & Hrun & Hcase); [|reflexivity|].
      * rewrite Qle_bool_iff, Hroot. split; intros H; lra.
      * exists errs. split; [|exact Hcase].
        destruct (Qle_bool (to_root q) _); exact Hrun.
    + exists [(field, "incompatible units; should be consistent with " +:+ target)].
      split; [reflexivity|]. right. eexists. split; [reflexivity|]. now left.
Qed.

(** An ignition delay of 0 second records an error and one of 1.0 second
    records none, by the theorem above. *)
Lemma quantity_validity_witness :
  (exists msg,
      run (_validate_isvalid_quantity true "ignition-delay" "0 second")
          (initial_process, OurValidator_init initial_process)
      = (Ok tt, (initial_process, mkValidator false [("ignition-delay", msg)]))) /\
  run (_validate_isvalid_quantity true "ignition-delay" "1.0 second")
      (initial_process, OurValidator_init initial_process)
  = (Ok tt, (initial_process, mkValidator false [])).
Proof.
  split.
  - destruct (quantity_validity "ignition-delay" "0 second"
                (mkQuantity 0 second_unit) second_unit initial_process
                (OurValidator_init initial_process) eq_refl eq_refl eq_refl)
      as (errs & Hrun & [[_ (m & Hm & Hpos)] | (msg & -> & _)]).
    + exfalso. injection Hm as <-. vm_compute in Hpos. discriminate.
    + exists msg. exact Hrun.
  - destruct (quantity_validity "ignition-delay" "1.0 second"
                (mkQuantity 1 second_unit) second_unit initial_process
                (OurValidator_init initial_process) eq_refl eq_refl eq_refl)
      as (errs & Hrun & [[-> _] | (msg & _ & [Hdim | (m & Hm & Hle)])]).
    + exact Hrun.
    + exfalso. vm_compute in Hdim. discriminate.
    + exfalso. injection Hm as <-. vm_compute in Hle. now apply Hle.
Defined.

Example zero_ignition_delay_rejected :
  outcome (_validate_isvalid_quantity true "ignition-delay" "0 second")
          initial_process (OurValidator_init initial_process)
  = (Ok tt,
     mkValidator false [("ignition-delay", "value must be greater than 0.0 second")],
     []).
Proof. vm_compute. reflexivity. Qed.

Example incompatible_quantity_rejected :
  outcome (_validate_isvalid_quantity true "ignition-delay" "1.0 kelvin")
          initial_process (OurValidator_init initial_process)
  = (Ok tt,
     mkValidator false
       [("ignition-delay", "incompatible units; should be consistent with second")],
     []).
Proof. vm_compute. reflexivity. Qed.

(** ** The exporter *)

Lemma mbind_ok {A B : Type} (r : result A) (k : A -> result B) (b : B) :
  r ≫= k = Ok b -> exists a, r = Ok a /\ k a = Ok b.
Proof. destruct r as [a|e]; [|discriminate]. intros H. now exists a. Qed.

Lemma mbind_Ok {A B : Type} (a : A) (k : A -> result B) : Ok a ≫= k = k a.
Proof. reflexivity. Qed.

Lemma mbind_Raise {A B : Type} (e : exn) (k : A -> result B) :
  Raise e ≫= k = Raise e.
Proof. reflexivity. Qed.

Tactic Notation "bind_ok" hyp(H) "as" simple_intropattern(a) ident(Ha) :=
  apply mbind_ok in H as (a & Ha & H).

(** C3 (as stated) fails: of the two data points of [one_history_record]
    exactly one carries a volume history, and its export raises the
    volume-history error. *)
Lemma one_history_among_several_rejected :
  length (c_datapoints one_history_record) = 2 /\
  length (List.filter (fun dp => bool_decide (is_Some (volume_history dp)))
                      (c_datapoints one_history_record)) = 1 /\
  export_ReSpecTh one_history_record
    = Raise (NotImplementedError
               "Error: ReSpecTh files do not support multiple datapoints with a volume history.").
Proof. repeat split; vm_compute; reflexivity. Qed.

(** C3 (amended): once the header, the common properties and the first data
    group have been produced, the export raises the volume-history error
    exactly when the record has more than one data point and at least one
    of them carries a volume history. *)
Theorem volume_history_rejection (c : ChemKED) (header : list Element)
    (common : list string) (common_properties : Element)
    (property_idx : list (string * string)) (datagroup : Element) :
  export_header c = Ok header ->
  export_common c = Ok (common, common_properties) ->
  export_datagroup c common = Ok (property_idx, datagroup) ->
  export_ReSpecTh c = Raise (NotImplementedError volume_history_message) <->
  (1 < length (c_datapoints c) /\
   exists dp, dp ∈ c_datapoints c /\ is_Some (volume_history dp)).
Proof.
  intros Hh Hc Hd. unfold export_ReSpecTh.
  rewrite Hh, mbind_Ok, Hc, mbind_Ok. cbv beta iota. rewrite Hd, mbind_Ok.
  cbv beta iota. unfold export_histories.
  destruct (Nat.ltb_spec 1 (length (c_datapoints c))) as [Hlen|Hlen]; cbn [andb].
  - destruct (existsb _ (c_datapoints c)) eqn:Hex.
    + rewrite mbind_Raise.
      split; [intros _|reflexivity]. split; [exact Hlen|].
      apply existsb_exists in Hex as (dp & Hin & Hdp).
      exists dp. split; [now apply list_elem_of_In|].
      now apply bool_decide_eq_true in Hdp.
    + split.
      * intros H. exfalso.
        destruct (c_datapoints c) as [|first rest]; [cbn in Hlen; lia|].
        change (py_index (first :: rest) 0) with (Ok first : result DataPoint) in H.
        rewrite mbind_Ok in H.
        destruct (volume_history first); rewrite !mbind_Ok in H; discriminate.
      * intros (_ & dp & Hin & Hdp). exfalso.
        assert (existsb (fun dp => bool_decide (is_Some (volume_history dp)))
                        (c_datapoints c) = true); [|congruence].
        apply existsb_exists. exists dp. split; [now apply list_elem_of_In|].
        now apply bool_decide_eq_true.
  - split; [|intros (H & _); lia].
    intros H. exfalso.
    destruct (c_datapoints c) as [|first rest]; [discriminate|].
    change (py_index (first :: rest) 0) with (Ok first : result DataPoint) in H.
    rewrite mbind_Ok in H.
    destruct (volume_history first); rewrite !mbind_Ok in H; discriminate.
Qed.

(** The theorem at [one_history_record], whose first three stages succeed. *)
Lemma volume_history_rejection_witness :
  export_ReSpecTh one_history_record
    = Raise (NotImplementedError volume_history_message) <->
  (1 < length (c_datapoints one_history_record) /\
   exists dp, dp ∈ c_datapoints one_history_record /\ is_Some (volume_history dp)).
Proof.
  eapply (volume_history_rejection one_history_record); reflexivity.
Defined.

Lemma export_header_tags (c : ChemKED) (header : list Element) :
  export_header c = Ok header ->
  tag <$> header =
  ["fileAuthor"; "fileVersion"; "ReSpecThVersion"; "experimentType";
   "bibliographyLink"; "apparatus"].
Proof.
  unfold export_header. intros H.
  bind_ok H as exp Hexp. bind_ok H as citation Hcit. bind_ok H as doi Hdoi.
  injection H as <-.
  destruct (String.eqb _ _) in Hexp; [|discriminate]. injection Hexp as <-.
  reflexivity.
Qed.

Lemma filter_has_tag_nil (t : string) (l : list Element) :
  t ∉ tag <$> l -> List.filter (has_tag t) l = [].
Proof.
  induction l as [|e l IH]; [reflexivity|]. cbn. intros Hnot.
  apply not_elem_of_cons in Hnot as [Hne Hnot]. unfold has_tag at 1.
  destruct (String.eqb_spec (tag e) t) as [Heq|_]; [congruence|].
  now apply IH.
Qed.

Lemma export_common_tag (c : ChemKED) (common : list string) (cp : Element) :
  export_common c = Ok (common, cp) -> tag cp = "commonProperties".
Proof.
  unfold export_common. intros H. bind_ok H as first Hfirst.
  destruct (forallb _ _); destruct (1 <? _)%nat.
  all: try (bind_ok H as [found props] Hfound).
  all: now injection H as <- <-.
Qed.

Lemma export_datagroup_shape (c : ChemKED) (common : list string)
    (property_idx : list (string * string)) (dg : Element) :
  export_datagroup c common = Ok (property_idx, dg) ->
  tag dg = "dataGroup" /\ attrib dg !! "id" = Some "dg1".
Proof.
  unfold export_datagroup. intros H. bind_ok H as [pidx cols] Hcols.
  bind_ok H as first Hfirst.
  destruct (negb _); [destruct (declare_species _ _ _)|];
    bind_ok H as rows Hrows; injection H as <- <-; split; reflexivity.
Qed.

(** C10: in an exported document the data groups are the primary one and,
    when the first data point carries a volume history, the group built
    from that history; both have the [id] attribute [dg1]. *)
Theorem history_datagroup_shares_id (c : ChemKED) (doc : Element)
    (first : DataPoint) :
  export_ReSpecTh c = Ok doc ->
  c_datapoints c !! 0 = Some first ->
  match volume_history first with
  | Some vh =>
      exists primary second property_idx,
        findall doc "dataGroup" = [primary; second] /\
        second = history_datagroup property_idx vh /\
        attrib primary !! "id" = Some "dg1" /\
        attrib second !! "id" = Some "dg1"
  | None =>
      exists primary,
        findall doc "dataGroup" = [primary] /\ attrib primary !! "id" = Some "dg1"
  end.
Proof.
  intros H Hfirst. unfold export_ReSpecTh in H.
  bind_ok H as header Hheader. bind_ok H as [common cp] Hcommon.
  bind_ok H as [pidx dg] Hdg. bind_ok H as histories Hhist.
  assert (Hidx : py_index (c_datapoints c) 0 = Ok first)
    by (unfold py_index; now rewrite Hfirst).
  rewrite Hidx, mbind_Ok in H. injection H as <-.
  apply export_header_tags in Hheader. apply export_common_tag in Hcommon.
  apply export_datagroup_shape in Hdg as [Hdg Hid].
  assert (Hfind : findall
            (element "experiment" [] None
               (header ++ [cp; dg] ++ histories ++ [export_ignition first]))
            "dataGroup"
          = dg :: List.filter (has_tag "dataGroup") histories).
  { unfold findall. cbn [children element].
    rewrite !List.filter_app, filter_has_tag_nil.
    - assert (Hcp : has_tag "dataGroup" cp = false)
        by (unfold has_tag; now rewrite Hcommon).
      assert (Hg : has_tag "dataGroup" dg = true)
        by (unfold has_tag; now rewrite Hdg).
      cbn [List.filter]. rewrite Hcp, Hg. cbn. now rewrite app_nil_r.
    - rewrite Hheader. intros Hin.
      repeat (apply elem_of_cons in Hin as [Hin|Hin]; [discriminate|]).
      inversion Hin. }
  unfold export_histories in Hhist.
  destruct (_ && _) in Hhist; [discriminate|].
  rewrite Hidx, mbind_Ok in Hhist.
  destruct (volume_history first) as [vh|]; injection Hhist as <-.
  - exists dg, (history_datagroup pidx vh), pidx.
    split; [exact Hfind|]. repeat split; assumption.
  - exists dg. split; [exact Hfind|assumption].
Qed.

(** The theorem at [single_history_record]: two data groups, both [dg1]. *)
Lemma history_datagroup_shares_id_witness :
  exists primary second property_idx,
    findall (exported (export_ReSpecTh single_history_record)) "dataGroup"
      = [primary; second] /\
    second = history_datagroup property_idx sample_history /\
    attrib primary !! "id" = Some "dg1" /\
    attrib second !! "id" = Some "dg1".
Proof.
  exact (history_datagroup_shares_id single_history_record
           (exported (export_ReSpecTh single_history_record))
           (sample_point 800 100 (Some sample_history)) eq_refl eq_refl).
Defined.

Example single_history_export_ids :
  (fun g => attrib g !! "id")
    <$> findall (exported (export_ReSpecTh single_history_record)) "dataGroup"
  = [Some "dg1"; Some "dg1"].
Proof. vm_compute. reflexivity. Qed.

(** C4: the two data points of [equal_delay_record] have the same ignition
    delay (and pressure) and different temperatures; the export succeeds
    and writes the ignition delay as a record-level common property, which
    the importer then refuses as a common property. *)
Theorem ignition_delay_exported_as_common :
  is_ok (export_ReSpecTh equal_delay_record) = true /\
  common_property_names (exported (export_ReSpecTh equal_delay_record))
    = [Some "initial composition"; Some "pressure"; Some "ignition delay"] /\
  get_common_properties (exported (export_ReSpecTh equal_delay_record))
    = Raise (KeywordError "Property ignition delay not supported as common property.").
Proof. repeat split; vm_compute; reflexivity. Qed.

(** ** The composition of the common properties *)


(** ** Export followed by import *)



Lemma attr_truth_quantity (x : option Quantity) :
  attr_truth x = true -> exists q, x = Some q /\ quantity_truth q = true.
Proof. destruct x as [q|]; [|discriminate]. intros H. now exists q. Qed.



Lemma unit_eqb_refl (u : Unit) : unit_eqb u u = true.
Proof.
  unfold unit_eqb, dim_eqb.
  rewrite String.eqb_refl, !Z.eqb_refl.
  now rewrite !(proj2 (Qeq_bool_iff _ _) (Qeq_refl _)).
Qed.

Lemma quantity_eqb_refl (q : Quantity) : quantity_eqb q q = true.
Proof.
  unfold quantity_eqb. rewrite unit_eqb_refl.
  apply Qeq_bool_iff, Qeq_refl.
Qed.

Lemma composition_eqb_refl (l : list Species) : composition_eqb l l = true.
Proof.
  induction l as [|sp l IH]; [reflexivity|]. cbn [composition_eqb].
  rewrite IH, andb_true_r. unfold species_eqb.
  rewrite String.eqb_refl, quantity_eqb_refl.
  destruct (sp_InChI sp); cbn; [now rewrite String.eqb_refl|reflexivity].
Qed.

Lemma declare_columns_single (dp : DataPoint) (pidx : list (string * string))
    (name : string) (rest : list string) (label : string) (x : option Quantity) :
  name <> "composition" ->
  labels !! name = Some label ->
  getattr dp (replace_char " " "_" name) = Ok x ->
  declare_columns [dp] ["composition"] pidx (name :: rest) =
  if attr_truth x then
    q ← the_quantity x;
    '(pidx', props) ←
      declare_columns [dp] ["composition"]
        (pidx ++ [(column_id (length pidx + 1), name)]) rest;
    Ok (pidx',
        element "property"
          [("description", ""); ("name", name); ("units", str_units q);
           ("id", column_id (length pidx + 1)); ("label", label)]
          None [] :: props)
  else declare_columns [dp] ["composition"] pidx rest.
Proof.
  intros Hname Hlabel Hget. cbn [declare_columns].
  unfold getattr_all. cbn [load_all]. rewrite Hget, !mbind_Ok.
  rewrite bool_decide_eq_false_2
    by (intros Hin; apply list_elem_of_singleton in Hin; contradiction).
  cbn [negb andb existsb]. rewrite orb_false_r.
  destruct (attr_truth x); [|reflexivity].
  change (py_index [dp] 0) with (Ok dp : result DataPoint).
  rewrite mbind_Ok, Hget, mbind_Ok. unfold getitem. rewrite Hlabel.
  reflexivity.
Qed.


Ltac column H name label x :=
  rewrite (declare_columns_single _ _ name _ label x) in H
    by (discriminate || reflexivity);
  let E := fresh "E" in
  destruct (attr_truth x) eqn:E;
  [ apply attr_truth_quantity in E as (? & -> & ?);
    cbn [the_quantity of_option] in H; rewrite mbind_Ok in H
  | ].


(** ** Import, seen from its result *)

Lemma get_experiment_kind_inv (root : Element) (ek : ExperimentKind) :
  get_experiment_kind root = Ok ek ->
  exists k,
    text_of (find root "experimentType") = Ok (Some "Ignition delay measurement") /\
    text_of (find2 root "apparatus" "kind") = Ok (Some k) /\
    ek = mkExperimentKind "ignition delay" k.
Proof.
  unfold get_experiment_kind. intros H. bind_ok H as t Ht.
  destruct (bool_decide_reflect (t = Some "Ignition delay measurement")) as [->|_].
  - bind_ok H as kind Hkind.
    unfold try_except in Hkind.
    destruct (text_of (find2 root "apparatus" "kind")) as [kind'|e];
      [|discriminate].
    injection Hkind as ->.
    destruct (_ || _); bind_ok H as k Hk; [|discriminate].
    injection H as <-. destruct kind as [k'|]; [|discriminate].
    injection Hk as ->. now exists k.
  - bind_ok H as t' Ht'. discriminate.
Qed.

Lemma get_ignition_type_inv (root : Element) (ign : IgnitionType) :
  get_ignition_type root = Ok ign ->
  exists elem target type,
    find root "ignitionType" = Some elem /\
    attrib elem !! "target" = Some target /\
    attrib elem !! "type" = Some type /\
    canonical_target target ∈ ignition_targets /\
    type ∈ ignition_types /\
    ign = mkIgnitionType type (rename_target (canonical_target target)).
Proof.
  unfold get_ignition_type. intros H.
  destruct (find root "ignitionType") as [elem|]; [|discriminate].
  bind_ok H as target Htarget. bind_ok H as type Htype.
  destruct (1 <? _)%nat; [discriminate|].
  fold (canonical_target target) in H.
  destruct (bool_decide_reflect (canonical_target target ∈ ignition_targets))
    as [Hin|_]; [|discriminate].
  destruct (bool_decide_reflect (type ∈ ignition_types)) as [Hty|_];
    [|discriminate].
  cbn [negb] in H. injection H as <-.
  exists elem, target, type.
  destruct (attrib elem !! "target"); [|discriminate]. injection Htarget as ->.
  destruct (attrib elem !! "type"); [|discriminate]. injection Htype as ->.
  repeat split; assumption.
Qed.





Lemma read_datagroup_properties_names (l : list Element)
    (unit_id property_id unit_id' property_id' : gmap string string) :
  (forall k n, property_id !! k = Some n -> n ∈ datagroup_properties) ->
  read_datagroup_properties (unit_id, property_id) l = Ok (unit_id', property_id') ->
  forall k n, property_id' !! k = Some n -> n ∈ datagroup_properties.
Proof.
  revert unit_id property_id.
  induction l as [|prop l IH]; intros unit_id property_id Hinv H.
  - cbn in H. now injection H as <- <-.
  - cbn [read_datagroup_properties] in H.
    bind_ok H as u Hu. bind_ok H as id Hid. bind_ok H as name Hname.
    destruct (bool_decide_reflect (name ∈ datagroup_properties)) as [Hin|_];
      [|discriminate].
    cbn [negb] in H. refine (IH _ _ _ H). intros k n Hk.
    destruct (decide (id = k)) as [<-|Hne].
    + rewrite lookup_insert_eq in Hk. now injection Hk as <-.
    + rewrite lookup_insert_ne in Hk by exact Hne. now apply (Hinv k).
Qed.









(** ** Composition units that are all present *)

Lemma read_component_units (species : list SpeciesEntry) (ct : option string)
    (child : Element) (species' : list SpeciesEntry) (ct' : option string) :
  ct <> Some "" ->
  amount_units child <> Some "" ->
  read_component (species, ct) child = Ok (species', ct') ->
  amount_units child = ct' /\ ct' <> None /\ ct' <> Some "" /\
  (forall t, ct = Some t -> ct' = Some t) /\
  length species' = S (length species).
Proof.
  intros Hct Hunits H. unfold read_component in H.
  bind_ok H as link Hlink. bind_ok H as name Hname.
  bind_ok H as amount_text Htext. bind_ok H as x Hx.
  bind_ok H as a Ha.
  assert (Hau : forall u, getitem a "units" = Ok u -> amount_units child = Some u).
  { intros u Hu. unfold amount_units.
    destruct (find child "amount") as [e|]; [|discriminate].
    injection Ha as <-. unfold getitem in Hu. cbn.
    destruct (attrib e !! "units"); [|discriminate]. now injection Hu as ->. }
  destruct ct as [[|c t]|].
  - contradiction.
  - bind_ok H as u Hu. apply Hau in Hu.
    destruct (String.eqb_spec (String c t) u) as [<-|Hne]; [|discriminate].
    cbn [negb] in H. injection H as <- <-.
    repeat split; try congruence. now rewrite length_app, Nat.add_1_r.
  - bind_ok H as u Hu. apply Hau in Hu. injection H as <- <-.
    repeat split; try congruence. now rewrite length_app, Nat.add_1_r.
Qed.

Lemma read_components_units (l : list Element) (species : list SpeciesEntry)
    (ct : option string) (species' : list SpeciesEntry) (ct' : option string) :
  ct <> Some "" ->
  (forall child, child ∈ l -> amount_units child <> Some "") ->
  read_components (species, ct) l = Ok (species', ct') ->
  (forall child, child ∈ l -> amount_units child = ct') /\
  (forall t, ct = Some t -> ct' = Some t) /\
  length species' = length species + length l.
Proof.
  revert species ct.
  induction l as [|child l IH]; intros species ct Hct Hunits H.
  - cbn in H. injection H as <- <-.
    split; [intros child Hin; inversion Hin|]. split; [tauto|]. cbn. lia.
  - cbn [read_components] in H. bind_ok H as [species1 ct1] Hstep.
    apply read_component_units in Hstep
      as (Hchild & Hsome & Hne & Hkeep & Hlen);
      [|exact Hct|apply Hunits; apply list_elem_of_here].
    apply IH in H as (Hrest & Hkeep' & Hlen');
      [|exact Hne|intros c Hc; apply Hunits; now apply list_elem_of_further].
    destruct ct1 as [t1|]; [|contradiction].
    pose proof (Hkeep' t1 eq_refl) as ->.
    split; [|split].
    + intros c Hc. apply elem_of_cons in Hc as [->|Hc]; [exact Hchild|].
      now apply Hrest.
    + intros t Ht. now apply Hkeep.
    + cbn [length]. lia.
Qed.

(** X1: when no component of an initial composition has an empty [units]
    attribute and the composition is read without error, every component
    carries the unit that tags the composition, which is mole fraction or
    mass fraction, and the composition has one entry per component. *)
Theorem composition_units_consistent (elem : Element) (c : CompositionDict) :
  (forall child, child ∈ iter elem "component" -> amount_units child <> Some "") ->
  read_composition elem = Ok c ->
  (kind c = "mole fraction" \/ kind c = "mass fraction") /\
  (forall child, child ∈ iter elem "component" ->
     amount_units child = Some (kind c)) /\
  length (species c) = length (iter elem "component").
Proof.
  intros Hunits H. unfold read_composition in H.
  bind_ok H as [species ct] Hread.
  apply read_components_units in Hread as (Hall & _ & Hlen);
    [|discriminate|exact Hunits].
  destruct ct as [t|]; [|discriminate].
  destruct (String.eqb_spec t "mole fraction") as [->|Hmole].
  - cbn in H. injection H as <-. cbn. repeat split; auto.
  - destruct (String.eqb_spec t "mass fraction") as [->|Hmass]; [|discriminate].
    cbn in H. injection H as <-. cbn. repeat split; auto.
Qed.

(** The theorem at the sample composition in mole fraction. *)
Lemma composition_units_consistent_witness :
  (kind (mkCompositionDict
           [ mkSpeciesEntry "H2" None [1 # 4]; mkSpeciesEntry "O2" None [3 # 4] ]
           "mole fraction") = "mole fraction" \/
   kind (mkCompositionDict
           [ mkSpeciesEntry "H2" None [1 # 4]; mkSpeciesEntry "O2" None [3 # 4] ]
           "mole fraction") = "mass fraction") /\
  (forall child,
     child ∈ iter (sample_composition "mole fraction" "mole fraction") "component" ->
     amount_units child = Some "mole fraction") /\
  2 = length (iter (sample_composition "mole fraction" "mole fraction") "component").
Proof.
  apply (composition_units_consistent
           (sample_composition "mole fraction" "mole fraction")
           (mkCompositionDict
              [ mkSpeciesEntry "H2" None [1 # 4]; mkSpeciesEntry "O2" None [3 # 4] ]
              "mole fraction")).
  - intros child Hin. apply list_elem_of_In in Hin. cbn in Hin.
    destruct Hin as [<-|[<-|[]]]; vm_compute; discriminate.
  - vm_compute. reflexivity.
Defined.

(** ** Common properties of several data points *)

Lemma getattr_all_map (dps : list DataPoint) (attribute : string)
    (f : DataPoint -> option Quantity) :
  (forall dp, getattr dp attribute = Ok (f dp)) ->
  getattr_all dps attribute = Ok (f <$> dps).
Proof.
  intros Hf. unfold getattr_all. induction dps as [|dp dps IH]; [reflexivity|].
  cbn [load_all]. now rewrite Hf, mbind_Ok, IH.
Qed.

Lemma forallb_fmap {A B : Type} (p : B -> bool) (f : A -> B) (l : list A) :
  forallb p (f <$> l) = forallb (fun a => p (f a)) l.
Proof. induction l as [|a l IH]; [reflexivity|]. cbn. now rewrite IH. Qed.

Lemma find_common_step (first : DataPoint) (rest : list DataPoint)
    (name : string) (names : list string) (f : DataPoint -> option Quantity) :
  (forall dp, getattr dp (replace_char " " "_" name) = Ok (f dp)) ->
  find_common (first :: rest) (name :: names) =
  '(common, props) ← find_common (first :: rest) names;
  match f first with
  | Some q =>
      if shared f (first :: rest) then
        Ok (name :: common,
            element "property"
              [("description", ""); ("name", name); ("units", str_units q)]
              None
              [element "value" [] (Some (str_magnitude q)) []] :: props)
      else Ok (common, props)
  | None => Ok (common, props)
  end.
Proof.
  intros Hf. cbn [find_common].
  change (py_index (first :: rest) 0) with (Ok first : result DataPoint).
  rewrite mbind_Ok, Hf, mbind_Ok, (getattr_all_map _ _ f Hf), mbind_Ok.
  destruct (find_common (first :: rest) names) as [[common props]|e];
    [|reflexivity].
  rewrite !mbind_Ok. unfold shared.
  destruct (f first) as [q|]; [|reflexivity].
  now rewrite forallb_fmap.
Qed.

(** X2: when a record has more than one data point, each of temperature,
    pressure and pressure rise is among the common properties of the export
    exactly when the first data point defines it and every data point has
    an equal value for it, and it is then written once under
    [commonProperties] (and not at all otherwise). *)
Theorem common_scalars_factored (c : ChemKED) (common : list string)
    (cp : Element) :
  (1 < length (c_datapoints c))%nat ->
  export_common c = Ok (common, cp) ->
  ("temperature" ∈ common <-> shared temperature (c_datapoints c) = true) /\
  ("pressure" ∈ common <-> shared pressure (c_datapoints c) = true) /\
  ("pressure rise" ∈ common <-> shared pressure_rise (c_datapoints c) = true) /\
  count_named cp "temperature"
    = (if shared temperature (c_datapoints c) then 1 else 0)%nat /\
  count_named cp "pressure"
    = (if shared pressure (c_datapoints c) then 1 else 0)%nat /\
  count_named cp "pressure rise"
    = (if shared pressure_rise (c_datapoints c) then 1 else 0)%nat.
Proof.
  intros Hlen H. unfold export_common in H.
  destruct (c_datapoints c) as [|first rest] eqn:Hdps; [cbn in Hlen; lia|].
  change (py_index (first :: rest) 0) with (Ok first : result DataPoint) in H.
  rewrite mbind_Ok in H.
  apply Nat.ltb_lt in Hlen. rewrite Hlen in H.
  unfold datagroup_properties in H.
  rewrite (find_common_step _ _ "temperature" _ temperature) in H by reflexivity.
  rewrite (find_common_step _ _ "pressure" _ pressure) in H by reflexivity.
  rewrite (find_common_step _ _ "ignition delay" _ ignition_delay) in H by reflexivity.
  rewrite (find_common_step _ _ "pressure rise" _ pressure_rise) in H by reflexivity.
  cbn [find_common] in H. rewrite mbind_Ok in H.
  assert (Hsome : forall f, shared f (first :: rest) = true ->
                            exists q, f first = Some q).
  { intros f Hf. unfold shared in Hf. destruct (f first) as [q|]; [|discriminate].
    now exists q. }
  assert (Hskip : forall f (A : Type) (a b : Quantity -> A) (d : A),
             shared f (first :: rest) = false ->
             match f first with
             | Some q => if shared f (first :: rest) then a q else d
             | None => d
             end = d).
  { intros f A a b d ->. now destruct (f first). }
  destruct (shared pressure_rise (first :: rest)) eqn:E4;
    [destruct (Hsome _ E4) as [? Hq4]; rewrite Hq4 in H
    |destruct (pressure_rise first)];
  rewrite ?mbind_Ok in H; cbv beta iota in H;
  (destruct (shared ignition_delay (first :: rest)) eqn:E3;
    [destruct (Hsome _ E3) as [? Hq3]; rewrite Hq3 in H
    |destruct (ignition_delay first)]);
  rewrite ?mbind_Ok in H; cbv beta iota in H;
  (destruct (shared pressure (first :: rest)) eqn:E2;
    [destruct (Hsome _ E2) as [? Hq2]; rewrite Hq2 in H
    |destruct (pressure first)]);
  rewrite ?mbind_Ok in H; cbv beta iota in H;
  (destruct (shared temperature (first :: rest)) eqn:E1;
    [destruct (Hsome _ E1) as [? Hq1]; rewrite Hq1 in H
    |destruct (temperature first)]);
  rewrite ?mbind_Ok in H; cbv beta iota in H;
  destruct (forallb _ (first :: rest)) in H;
  injection H as <- <-.
  all: repeat split; try reflexivity; try discriminate.
  all: try (intros _; apply list_elem_of_In; vm_compute; tauto).
  all: intros Hin; apply list_elem_of_In in Hin; vm_compute in Hin;
       intuition discriminate.
Qed.

(** The theorem at [equal_delay_record], whose data points share the
    pressure and differ in temperature. *)
Lemma common_scalars_factored_witness :
  ("temperature" ∈ fst (exported_common equal_delay_record) <->
   shared temperature (c_datapoints equal_delay_record) = true) /\
  ("pressure" ∈ fst (exported_common equal_delay_record) <->
   shared pressure (c_datapoints equal_delay_record) = true) /\
  count_named (snd (exported_common equal_delay_record)) "pressure" = 1%nat /\
  count_named (snd (exported_common equal_delay_record)) "temperature" = 0%nat.
Proof.
  destruct (common_scalars_factored equal_delay_record
              (fst (exported_common equal_delay_record))
              (snd (exported_common equal_delay_record)))
    as (Ht & Hp & _ & Hct & Hcp & _).
  - vm_compute. lia.
  - vm_compute. reflexivity.
  - repeat split; try apply Ht; try apply Hp; assumption.
Defined.

Lemma compare_name_tokens (g f q : string) :
  compare_name g f q =
  let name_split := question_tokens q in
  n0 ← py_index name_split 0;
  first_name ←
    (if (length name_split =? 3)%nat
     then n1 ← py_index name_split 1 ; Ok [n0; n1]
     else Ok [n0]);
  let given_name := name_tokens (lower g) in
  '(first_name, given_name) ←
    (if (length first_name =? 2)%nat && (length given_name =? 2)%nat then
       f1 ← py_index first_name 1 ; f1i ← str_first f1;
       first_name ← py_setitem first_name 1 f1i;
       g1 ← py_index given_name 1 ; g1i ← str_first g1;
       given_name ← py_setitem given_name 1 g1i;
       Ok (first_name, given_name)
     else if (length given_name =? 2)%nat && (length first_name =? 1)%nat then
       given_name ← py_delitem given_name 1 ; Ok (first_name, given_name)
     else if (length first_name =? 2)%nat && (length given_name =? 1)%nat then
       first_name ← py_delitem first_name 1 ; Ok (first_name, given_name)
     else Ok (first_name, given_name));
  f0 ← py_index first_name 0;
  cond ← (if (len f0 =? 1)%nat then Ok true
           else g0 ← py_index given_name 0 ; Ok (len g0 =? 1)%nat);
  '(first_name, given_name) ←
    (if cond : bool then
       g0 ← py_index given_name 0 ; g0i ← str_first g0;
       given_name ← py_setitem given_name 0 g0i;
       f0 ← py_index first_name 0 ; f0i ← str_first f0;
       first_name ← py_setitem first_name 0 f0i;
       Ok (first_name, given_name)
     else Ok (first_name, given_name));
  f0 ← py_index first_name 0;
  cond ← (if (len f0 =? 2)%nat then Ok true
           else g0 ← py_index given_name 0 ; Ok (len g0 =? 2)%nat);
  '(first_name, given_name) ←
    (if cond : bool then
       g0 ← py_index given_name 0 ; g0i ← str_first g0;
       given_name ← py_setitem given_name 0 g0i;
       n0 ← py_index name_split 0 ; n0i ← str_first n0;
       first_name ← py_setitem first_name 0 n0i;
       Ok (first_name, given_name)
     else Ok (first_name, given_name));
  last_name ← of_option (last name_split) IndexError;
  Ok (bool_decide (given_name = first_name)
      && bool_decide (lower f = last_name)).
Proof. reflexivity. Qed.

Lemma compare_name_true_family (g f q : string) :
  compare_name g f q = Ok true -> last (question_tokens q) = Some (lower f).
Proof.
  rewrite compare_name_tokens. cbv zeta. intros H.
  bind_ok H as n0 Hn0. bind_ok H as first_name Hfirst.
  bind_ok H as [fn1 gn1] H1. bind_ok H as f0 Hf0. bind_ok H as c1 Hc1.
  bind_ok H as [fn2 gn2] H2. bind_ok H as f0' Hf0'. bind_ok H as c2 Hc2.
  bind_ok H as [fn3 gn3] H3. bind_ok H as last_name Hlast.
  injection H as H. apply andb_true_iff in H as [_ H].
  apply bool_decide_eq_true in H. subst last_name.
  destruct (last (question_tokens q)); [|discriminate]. now injection Hlast as ->.
Qed.

Lemma name_tokens_nonempty (s : string) :
  Forall (fun t => t <> "") (name_tokens s).
Proof.
  unfold name_tokens. apply Forall_forall. intros t Ht.
  apply list_elem_of_filter in Ht as [Ht _]. now destruct t.
Qed.

Lemma question_tokens_nonempty (q : string) :
  Forall (fun t => t <> "") (question_tokens q).
Proof. apply name_tokens_nonempty. Qed.

Lemma compare_name_true_initial (g f q : string) :
  compare_name g f q = Ok true ->
  exists c a b,
    head (name_tokens (lower g)) = Some (String c a) /\
    head (question_tokens q) = Some (String c b).
Proof.
  rewrite compare_name_tokens. cbv zeta.
  pose proof (question_tokens_nonempty q) as Hq.
  pose proof (name_tokens_nonempty (lower g)) as Hg.
  generalize dependent (question_tokens q). intros qs Hq.
  generalize dependent (name_tokens (lower g)). intros gs Hg.
  generalize (lower f). intros lf H.
  destruct qs as [|n0 qs]; [discriminate|].
  destruct gs as [|g0 gs].
  { exfalso. destruct qs as [|n1 [|n2 [|n3 qs]]];
      destruct n0 as [|c0 [|c1 [|c2 n0]]]; cbn in H; discriminate. }
  apply Forall_cons in Hq as [Hn0 Hq]. apply Forall_cons in Hg as [Hg0 Hg].
  destruct n0 as [|c n0]; [contradiction|].
  destruct g0 as [|d g0]; [contradiction|].
  exists d, g0, n0. split; [reflexivity|]. cbn [head]. do 2 f_equal.
  assert (Hhead : forall (x y : list string) (r : bool),
             Ok (bool_decide (x = y) && r) = Ok true -> head x = head y).
  { intros x y r [= E]. apply andb_true_iff in E as [E _].
    apply bool_decide_eq_true in E. now subst. }
  destruct qs as [|n1 [|n2 [|n3 qs]]];
    destruct gs as [|g1 [|g2 gs]];
    repeat match goal with
           | E : Forall _ (_ :: _) |- _ => apply Forall_cons in E as [? E]
           end;
    try (destruct n1 as [|? n1]; [contradiction|]);
    try (destruct g1 as [|? g1]; [contradiction|]);
    destruct n0 as [|c1 [|c2 n0]]; destruct g0 as [|d1 [|d2 g0]];
    cbn in H; try discriminate;
    first [apply Hhead in H | bind_ok H as ln Hl; apply Hhead in H];
    cbn in H; congruence.
Qed.

(** X3: when [compare_name] answers [True], the lower-cased family name is
    the last token of the question name, and the first token of the given
    name and the first token of the question name begin with the same
    letter. *)
Theorem compare_name_match_requires (g f q : string) :
  compare_name g f q = Ok true ->
  last (question_tokens q) = Some (lower f) /\
  exists c a b,
    head (name_tokens (lower g)) = Some (String c a) /\
    head (question_tokens q) = Some (String c b).
Proof.
  intros H. split; [now apply (compare_name_true_family g)|].
  now apply (compare_name_true_initial g f).
Qed.

(** A comma-ordered question name with initials. *)
Lemma compare_name_match_requires_witness :
  last (question_tokens "Niemeyer, K. E.") = Some (lower "Niemeyer") /\
  exists c a b,
    head (name_tokens (lower "Kyle")) = Some (String c a) /\
    head (question_tokens "Niemeyer, K. E.") = Some (String c b).
Proof.
  apply (compare_name_match_requires "Kyle" "Niemeyer" "Niemeyer, K. E.").
  vm_compute. reflexivity.
Defined.

(** *** Tokens hold no separator *)

Lemma all_chars_app (p : ascii -> bool) (a b : string) :
  all_chars p (a +:+ b) = all_chars p a && all_chars p b.
Proof.
  induction a as [|c a IH]; [reflexivity|].
  change (String c a +:+ b) with (String c (a +:+ b)). cbn [all_chars].
  now rewrite IH, andb_assoc.
Qed.

Lemma re_split_from_pieces (sep : ascii -> bool) (s cur : string) (in_run : bool) :
  all_chars (fun c => negb (sep c)) cur = true ->
  Forall (fun t => all_chars (fun c => negb (sep c)) t = true)
         (re_split_from sep s cur in_run).
Proof.
  revert cur in_run. induction s as [|c s IH]; intros cur in_run Hcur; cbn.
  - now constructor.
  - destruct (sep c) eqn:Hc.
    + destruct in_run; [now apply IH|]. constructor; [exact Hcur|]. now apply IH.
    + apply IH. rewrite all_chars_app, Hcur. cbn. now rewrite Hc.
Qed.

Lemma name_tokens_pieces (s t : string) :
  t ∈ name_tokens s ->
  all_chars (fun c => negb (name_separator c)) t = true.
Proof.
  unfold name_tokens. intros Ht. apply list_elem_of_filter in Ht as [_ Ht].
  pose proof (re_split_from_pieces name_separator s "" false eq_refl) as H.
  rewrite Forall_forall in H. now apply H.
Qed.

Lemma name_separator_lower (c : ascii) :
  name_separator (lower_char c) = name_separator c.
Proof. destruct c as [[] [] [] [] [] [] [] []]; reflexivity. Qed.

Lemma all_chars_lower (p : ascii -> bool) (s : string) :
  (forall c, p (lower_char c) = p c) ->
  all_chars p (lower s) = all_chars p s.
Proof.
  intros Hp. unfold lower. induction s as [|c s IH]; [reflexivity|].
  cbn. now rewrite Hp, IH.
Qed.

(** X4: a family name that holds a comma, a space, a hyphen or a period is
    never matched, whatever the given name and the question name: the
    question name's last token has none of them. *)
Theorem compound_family_name_never_matches (g f q : string) :
  all_chars (fun c => negb (name_separator c)) f = false ->
  compare_name g f q <> Ok true.
Proof.
  intros Hf H. apply compare_name_true_family in H.
  apply last_Some_elem_of, name_tokens_pieces in H.
  rewrite all_chars_lower in H by (intros c; now rewrite name_separator_lower).
  congruence.
Qed.

Lemma compound_family_name_never_matches_witness :
  compare_name "Henry" "Curran-Smith" "Henry Curran-Smith" <> Ok true.
Proof.
  apply compound_family_name_never_matches. reflexivity.
Defined.

(** *** Names without a token *)

Lemma re_split_from_separators (sep : ascii -> bool) (s : string) (in_run : bool) :
  all_chars sep s = true ->
  Forall (fun t => t = "") (re_split_from sep s "" in_run).
Proof.
  revert in_run. induction s as [|c s IH]; intros in_run H; cbn.
  - now constructor.
  - cbn in H. apply andb_true_iff in H as [Hc H]. rewrite Hc.
    destruct in_run; [now apply IH|]. constructor; [reflexivity|now apply IH].
Qed.

Lemma name_tokens_separators (s : string) :
  all_chars name_separator s = true -> name_tokens s = [].
Proof.
  intros H. unfold name_tokens, re_split.
  pose proof (re_split_from_separators name_separator s false H) as Hall.
  induction Hall as [|t l -> _ IH]; [reflexivity|].
  rewrite filter_cons_False by (cbn; tauto). exact IH.
Qed.

Lemma split_char_pieces (p : ascii -> bool) (c : ascii) (s : string) :
  all_chars p s = true ->
  Forall (fun t => all_chars p t = true) (split_char c s).
Proof.
  induction s as [|d s IH]; intros H; cbn.
  - now repeat constructor.
  - cbn in H. apply andb_true_iff in H as [Hd H]. specialize (IH H).
    destruct (Ascii.eqb c d); [now constructor|].
    destruct (split_char c s) as [|piece rest]; [now repeat constructor; cbn; rewrite Hd|].
    apply Forall_cons in IH as [Hp Hr]. constructor; [|exact Hr].
    cbn. now rewrite Hd, Hp.
Qed.

Lemma join_pieces (p : ascii -> bool) (sep : string) (l : list string) :
  all_chars p sep = true ->
  Forall (fun t => all_chars p t = true) l ->
  all_chars p (join sep l) = true.
Proof.
  intros Hsep Hl. induction Hl as [|t l Ht Hl IH]; [reflexivity|].
  destruct l as [|u l]; [exact Ht|].
  change (join sep (t :: u :: l)) with (t +:+ sep +:+ join sep (u :: l)).
  now rewrite !all_chars_app, Ht, Hsep, IH.
Qed.

Lemma lstrip_pieces (p : ascii -> bool) (s : string) :
  all_chars p s = true -> all_chars p (lstrip s) = true.
Proof.
  induction s as [|c s IH]; [reflexivity|]. intros H. cbn [lstrip].
  destruct (is_space c); [|exact H].
  cbn in H. apply andb_true_iff in H as [_ H]. now apply IH.
Qed.

Lemma rstrip_by_pieces (p q : ascii -> bool) (s : string) :
  all_chars p s = true -> all_chars p (rstrip_by q s) = true.
Proof.
  induction s as [|c s IH]; [reflexivity|]. intros H. cbn [rstrip_by].
  cbn in H. apply andb_true_iff in H as [Hc H]. specialize (IH H).
  destruct (rstrip_by q s) as [|d t].
  - destruct (q c); [reflexivity|]. cbn. now rewrite Hc.
  - cbn [all_chars] in IH |- *. now rewrite Hc, IH.
Qed.

Lemma question_tokens_separators (q : string) :
  all_chars name_separator q = true -> question_tokens q = [].
Proof.
  intros H. unfold question_tokens. cbv zeta.
  assert (Hl : all_chars name_separator (lower q) = true)
    by (rewrite all_chars_lower; [exact H|exact name_separator_lower]).
  apply name_tokens_separators.
  destruct (contains_char "," (lower q)); [|exact Hl].
  unfold strip. apply lstrip_pieces, rstrip_by_pieces, join_pieces; [reflexivity|].
  apply Forall_rev. now apply split_char_pieces.
Qed.

(** X5: when the given name or the question name has no token (it is empty
    or made of commas, spaces, hyphens and periods only), [compare_name]
    raises [IndexError] instead of answering. *)
Theorem compare_name_without_token_raises (g f q : string) :
  all_chars name_separator g = true \/ all_chars name_separator q = true ->
  compare_name g f q = Raise IndexError.
Proof.
  intros H. rewrite compare_name_tokens. cbv zeta.
  destruct H as [H|H].
  - rewrite (name_tokens_separators (lower g))
      by (rewrite all_chars_lower; [exact H|exact name_separator_lower]).
    pose proof (question_tokens_nonempty q) as Hq.
    destruct (question_tokens q) as [|n0 [|n1 [|n2 [|n3 qs]]]]; [reflexivity|..];
      apply Forall_cons in Hq as [Hn0 _];
      destruct n0 as [|c0 [|c1 [|c2 n0]]]; try contradiction; reflexivity.
  - now rewrite (question_tokens_separators q H).
Qed.

Lemma compare_name_without_token_raises_witness :
  compare_name "" "Niemeyer" "Kyle Niemeyer" = Raise IndexError /\
  compare_name "Kyle" "Niemeyer" " , ." = Raise IndexError.
Proof.
  split; apply compare_name_without_token_raises; [left|right]; reflexivity.
Defined.

(** *** A full name matches itself *)

Lemma append_nil_r (s : string) : s +:+ "" = s.
Proof.
  induction s as [|c s IH]; [reflexivity|].
  change (String c s +:+ "") with (String c (s +:+ "")). now rewrite IH.
Qed.

Lemma append_assoc (a b c : string) : (a +:+ b) +:+ c = a +:+ (b +:+ c).
Proof.
  induction a as [|d a IH]; [reflexivity|].
  change ((String d a +:+ b) +:+ c) with (String d ((a +:+ b) +:+ c)).
  now rewrite IH.
Qed.

Lemma lower_app (a b : string) : lower (a +:+ b) = lower a +:+ lower b.
Proof.
  unfold lower. induction a as [|c a IH]; [reflexivity|].
  change (String c a +:+ b) with (String c (a +:+ b)). cbn [map_string].
  now rewrite IH.
Qed.

Lemma name_char_lower (c : ascii) : name_char (lower_char c) = name_char c.
Proof. destruct c as [[] [] [] [] [] [] [] []]; reflexivity. Qed.

Lemma single_word_lower (w : string) :
  single_word w = true -> single_word (lower w) = true.
Proof.
  unfold single_word. intros H. apply andb_true_iff in H as [Hne Hall].
  rewrite all_chars_lower by exact name_char_lower. rewrite Hall, andb_true_r.
  now destruct w.
Qed.

Lemma all_chars_impl (p q : ascii -> bool) (s : string) :
  (forall c, p c = true -> q c = true) ->
  all_chars p s = true -> all_chars q s = true.
Proof.
  intros Hpq. induction s as [|c s IH]; [reflexivity|]. cbn. intros H.
  apply andb_true_iff in H as [Hc H]. now rewrite (Hpq c Hc), IH.
Qed.

Lemma re_split_from_word (sep : ascii -> bool) (w rest cur : string) (b : bool) :
  w <> "" -> all_chars (fun c => negb (sep c)) w = true ->
  re_split_from sep (w +:+ rest) cur b = re_split_from sep rest (cur +:+ w) false.
Proof.
  revert cur b. induction w as [|c w IH]; intros cur b Hne Hall; [contradiction|].
  cbn in Hall. apply andb_true_iff in Hall as [Hc Hall].
  apply negb_true_iff in Hc.
  change (String c w +:+ rest) with (String c (w +:+ rest)).
  cbn [re_split_from]. rewrite Hc.
  destruct w as [|d w].
  - reflexivity.
  - rewrite IH by first [discriminate | exact Hall]. now rewrite append_assoc.
Qed.

Lemma name_tokens_word (w : string) :
  single_word w = true -> name_tokens w = [w].
Proof.
  unfold single_word. intros H. apply andb_true_iff in H as [Hne Hall].
  unfold name_tokens, re_split.
  rewrite <- (append_nil_r w) at 1.
  rewrite re_split_from_word.
  - cbn [re_split_from append]. rewrite filter_cons_True by now apply Is_true_true.
    reflexivity.
  - now destruct w.
  - revert Hall. apply all_chars_impl. intros c Hc. unfold name_char in Hc.
    now apply andb_true_iff in Hc as [Hc _].
Qed.

Lemma name_tokens_two_words (a b : string) :
  single_word a = true -> single_word b = true ->
  name_tokens (a +:+ " " +:+ b) = [a; b].
Proof.
  unfold single_word. intros Ha Hb.
  apply andb_true_iff in Ha as [Hane Ha]. apply andb_true_iff in Hb as [Hbne Hb].
  assert (Hsep : forall s, all_chars name_char s = true ->
                   all_chars (fun c => negb (name_separator c)) s = true).
  { intros s. apply all_chars_impl. intros c Hc. unfold name_char in Hc.
    now apply andb_true_iff in Hc as [Hc _]. }
  unfold name_tokens, re_split.
  rewrite re_split_from_word by first [now destruct a | now apply Hsep].
  change (" " +:+ b) with (String " " b).
  cbn [re_split_from append name_separator Ascii.eqb Bool.eqb orb].
  change (name_separator " ") with true. cbv iota.
  rewrite <- (append_nil_r b) at 1.
  rewrite re_split_from_word by first [now destruct b | now apply Hsep].
  cbn [re_split_from append].
  rewrite filter_cons_True by now apply Is_true_true.
  rewrite filter_cons_True by now apply Is_true_true.
  reflexivity.
Qed.

Lemma contains_char_app (c : ascii) (a b : string) :
  contains_char c (a +:+ b) = contains_char c a || contains_char c b.
Proof.
  induction a as [|d a IH]; [reflexivity|].
  change (String d a +:+ b) with (String d (a +:+ b)). cbn [contains_char].
  now rewrite IH, orb_assoc.
Qed.

Lemma contains_char_word (c : ascii) (w : string) :
  name_char c = false -> all_chars name_char w = true ->
  contains_char c w = false.
Proof.
  intros Hc. induction w as [|d w IH]; [reflexivity|].
  cbn [all_chars contains_char]. intros H.
  apply andb_true_iff in H as [Hd H]. rewrite (IH H), orb_false_r.
  destruct (Ascii.eqb_spec c d) as [<-|]; [congruence|reflexivity].
Qed.

Lemma question_tokens_given_first (a b : string) :
  single_word a = true -> single_word b = true ->
  question_tokens (a +:+ " " +:+ b) = [lower a; lower b].
Proof.
  intros Ha Hb. unfold question_tokens. cbv zeta.
  rewrite !lower_app. change (lower " ") with " ".
  apply single_word_lower in Ha, Hb.
  rewrite !contains_char_app.
  pose proof Ha as Ha'. pose proof Hb as Hb'.
  unfold single_word in Ha', Hb'.
  apply andb_true_iff in Ha' as [_ Ha']. apply andb_true_iff in Hb' as [_ Hb'].
  rewrite (contains_char_word "," (lower a)), (contains_char_word "," (lower b))
    by first [reflexivity | assumption].
  change (contains_char "," " ") with false. cbv beta iota delta [orb].
  now apply name_tokens_two_words.
Qed.

Lemma split_char_none (c : ascii) (s : string) :
  contains_char c s = false -> split_char c s = [s].
Proof.
  induction s as [|d s IH]; [reflexivity|]. cbn [contains_char split_char].
  intros H. apply orb_false_iff in H as [Hd H]. now rewrite Hd, (IH H).
Qed.

Lemma split_char_first (c : ascii) (a b : string) :
  contains_char c a = false ->
  split_char c (a +:+ String c b) = a :: split_char c b.
Proof.
  induction a as [|d a IH]; intros H.
  - change ("" +:+ String c b) with (String c b). cbn [split_char].
    now rewrite Ascii.eqb_refl.
  - cbn [contains_char] in H. apply orb_false_iff in H as [Hd H].
    change (String d a +:+ String c b) with (String d (a +:+ String c b)).
    cbn [split_char]. now rewrite Hd, (IH H).
Qed.

Lemma rstrip_by_word (p : ascii -> bool) (a w : string) :
  w <> "" -> all_chars (fun c => negb (p c)) w = true ->
  rstrip_by p (a +:+ w) = a +:+ w.
Proof.
  intros Hne Hall.
  assert (Hw : rstrip_by p w = w).
  { clear a. induction w as [|c w IH]; [contradiction|].
    cbn in Hall. apply andb_true_iff in Hall as [Hc Hall].
    apply negb_true_iff in Hc. cbn [rstrip_by].
    destruct w as [|d w].
    - cbn. now rewrite Hc.
    - now rewrite IH by first [discriminate | exact Hall]. }
  induction a as [|c a IH]; [exact Hw|].
  change (String c a +:+ w) with (String c (a +:+ w)). cbn [rstrip_by].
  rewrite IH. destruct (a +:+ w) eqn:E; [|reflexivity].
  destruct a; [cbn in E; contradiction|discriminate].
Qed.

Lemma question_tokens_family_first (a b : string) :
  single_word a = true -> single_word b = true ->
  question_tokens (b +:+ ", " +:+ a) = [lower a; lower b].
Proof.
  intros Ha Hb. unfold question_tokens. cbv zeta.
  rewrite !lower_app. change (lower ", ") with ", ".
  apply single_word_lower in Ha, Hb.
  pose proof Ha as Ha'. pose proof Hb as Hb'.
  unfold single_word in Ha', Hb'.
  apply andb_true_iff in Ha' as [Hane Ha']. apply andb_true_iff in Hb' as [Hbne Hb'].
  rewrite !contains_char_app. cbn [contains_char Ascii.eqb Bool.eqb orb].
  change (Ascii.eqb "," ",") with true. rewrite orb_true_r. cbv iota.
  change (", " +:+ lower a) with (String "," (" " +:+ lower a)).
  rewrite split_char_first by now apply contains_char_word.
  rewrite split_char_none
    by (rewrite contains_char_app, (contains_char_word "," (lower a)) by easy;
        reflexivity).
  cbn [rev app join].
  unfold strip.
  assert (Hsp : forall s, all_chars name_char s = true ->
                  all_chars (fun c => negb (is_space c)) s = true).
  { intros s. apply all_chars_impl. intros c Hc. unfold name_char in Hc.
    now apply andb_true_iff in Hc as [_ Hc]. }
  rewrite <- append_assoc.
  rewrite rstrip_by_word by first [now destruct (lower b) | now apply Hsp].
  rewrite !append_assoc.
  change (" " +:+ lower a +:+ " " +:+ lower b)
    with (String " " (lower a +:+ " " +:+ lower b)).
  cbn [lstrip]. change (is_space " ") with true. cbv iota.
  destruct (lower a) as [|c la] eqn:Ela; [discriminate|].
  change (String c la +:+ " " +:+ lower b) with (String c (la +:+ " " +:+ lower b)).
  cbn [lstrip].
  assert (Hc : is_space c = false).
  { cbn in Ha'. apply andb_true_iff in Ha' as [Hc _]. unfold name_char in Hc.
    apply andb_true_iff in Hc as [_ Hc]. now apply negb_true_iff in Hc. }
  rewrite Hc.
  change (String c (la +:+ " " +:+ lower b)) with (String c la +:+ " " +:+ lower b).
  rewrite <- Ela. rewrite <- Ela in Ha. now apply name_tokens_two_words.
Qed.

Lemma compare_name_of_tokens (g f q : string) :
  single_word g = true ->
  question_tokens q = [lower g; lower f] ->
  compare_name g f q = Ok true.
Proof.
  intros Hg Hq. rewrite compare_name_tokens. cbv zeta. rewrite Hq.
  apply single_word_lower in Hg. rewrite (name_tokens_word _ Hg).
  generalize (lower f). intros lf.
  destruct (lower g) as [|c [|c' [|c'' t]]]; [discriminate|..]; cbn;
    now rewrite !bool_decide_eq_true_2.
Qed.

(** X6: for a given name and a family name of one word each, the full
    name matches in both orders, "Given Family" and "Family, Given". *)
Theorem compare_name_accepts_full_name (g f : string) :
  single_word g = true -> single_word f = true ->
  compare_name g f (g +:+ " " +:+ f) = Ok true /\
  compare_name g f (f +:+ ", " +:+ g) = Ok true.
Proof.
  intros Hg Hf. split; apply compare_name_of_tokens; try exact Hg.
  - now apply question_tokens_given_first.
  - now apply question_tokens_family_first.
Qed.

Lemma compare_name_accepts_full_name_witness :
  compare_name "Kyle" "Niemeyer" ("Kyle" +:+ " " +:+ "Niemeyer") = Ok true /\
  compare_name "Kyle" "Niemeyer" ("Niemeyer" +:+ ", " +:+ "Kyle") = Ok true.
Proof.
  apply compare_name_accepts_full_name; reflexivity.
Defined.

(** ** The unit rule *)

(** X7: for a field flagged for unit validation, on a validator that does
    not skip, when the field has a reference unit and the value's [units]
    entry is a unit of the registry: the rule returns normally, leaves the
    process as it was, and records nothing when the two units have the same
    dimension and exactly one error for the field otherwise. *)
Theorem unit_validity (field : string) (value : gmap string string)
    (s target : string) (w u : Unit) (p : process) (v : OurValidator) :
  _skip_validation v = false ->
  property_units !! field = Some target ->
  lookup_unit (strip target) = Some u ->
  value !! "units" = Some s ->
  lookup_unit (strip s) = Some w ->
  run (_validate_isvalid_unit true field value) (p, v)
  = (Ok tt,
     (p, mkValidator false
           (errors v ++
            if dim_eqb (dim w) (dim u) then []
            else [(field, "incompatible units; should be consistent with " +:+ target)]))).
Proof.
  intros Hskip Htarget Hu Hs Hw.
  unfold _validate_isvalid_unit. rewrite run_bind. cbn [run self_skip_validation snd].
  rewrite Hskip. cbn [andb negb]. rewrite run_bind. cbn [run lift].
  unfold getitem at 1. rewrite Hs. cbn [of_option].
  rewrite run_bind. cbn [run lift]. unfold units at 1. rewrite Hw.
  unfold except_dimensionality. cbn [run]. rewrite run_bind. cbn [run lift].
  unfold getitem. rewrite Htarget. cbn [of_option]. rewrite run_bind. cbn [run lift].
  unfold to, units. rewrite Hu, mbind_Ok. unfold magnitude_in.
  cbn [q_units scale].
  destruct v as [skip errs0]. cbn in Hskip. subst skip. cbn [errors].
  destruct (dim_eqb (dim w) (dim u)).
  - cbn. now rewrite app_nil_r.
  - reflexivity.
Qed.

(** Pressure in torr passes, temperature in pascal does not. *)
Lemma unit_validity_witness :
  run (_validate_isvalid_unit true "pressure" {["units" := "torr"]})
      (initial_process, OurValidator_init initial_process)
  = (Ok tt, (initial_process, mkValidator false [])) /\
  run (_validate_isvalid_unit true "temperature" {["units" := "pascal"]})
      (initial_process, OurValidator_init initial_process)
  = (Ok tt,
     (initial_process,
      mkValidator false
        [("temperature", "incompatible units; should be consistent with kelvin")])).
Proof.
  split.
  - exact (unit_validity "pressure" {["units" := "torr"]} "torr" "pascal"
             (mkUnit "torr" dim_pressure (101325 # 760) 0) pascal initial_process
             (OurValidator_init initial_process)
             eq_refl eq_refl eq_refl eq_refl eq_refl).
  - exact (unit_validity "temperature" {["units" := "pascal"]} "pascal" "kelvin"
             pascal kelvin initial_process
             (OurValidator_init initial_process)
             eq_refl eq_refl eq_refl eq_refl eq_refl).
Defined.

(** ** What a rule leaves in place *)

Lemma adds_ret {A : Type} (a : A) : only_adds (mret a).
Proof.
  intros [flag evs] [skip errs]. exists (Ok a), [], []. cbn.
  now rewrite !app_nil_r.
Qed.

Lemma adds_lift {A : Type} (r : result A) : only_adds (lift r).
Proof.
  intros [flag evs] [skip errs]. exists r, [], []. cbn. now rewrite !app_nil_r.
Qed.

Lemma adds_warn (msg : string) : only_adds (warn msg).
Proof.
  intros [flag evs] [skip errs]. exists (Ok tt), [Warning msg], []. cbn.
  now rewrite app_nil_r.
Qed.

Lemma adds_query (e : event) : only_adds (query e).
Proof.
  intros [flag evs] [skip errs]. exists (Ok tt), [e], []. cbn.
  now rewrite app_nil_r.
Qed.

Lemma adds_error (field msg : string) : only_adds (_error field msg).
Proof.
  intros [flag evs] [skip errs]. exists (Ok tt), [], [(field, msg)]. cbn.
  now rewrite app_nil_r.
Qed.

Lemma adds_self_skip : only_adds self_skip_validation.
Proof.
  intros [flag evs] [skip errs]. exists (Ok skip), [], []. cbn.
  now rewrite !app_nil_r.
Qed.

Lemma adds_bind {A B : Type} (m : M A) (k : A -> M B) :
  only_adds m -> (forall a, only_adds (k a)) -> only_adds (m ≫= k).
Proof.
  intros Hm Hk p v. destruct (Hm p v) as (r & added1 & errs1 & H1).
  rewrite run_bind, H1. destruct r as [a|e].
  - destruct (Hk a (mkProcess (_mod_skip_validation p) (events p ++ added1))
                   (mkValidator (_skip_validation v) (errors v ++ errs1)))
      as (r2 & added2 & errs2 & H2).
    exists r2, (added1 ++ added2), (errs1 ++ errs2). rewrite H2. cbn.
    now rewrite !app_assoc.
  - now exists (Raise e), added1, errs1.
Qed.

Lemma adds_except {A : Type} (m h : M A) :
  only_adds m -> only_adds h -> only_adds (except_dimensionality m h).
Proof.
  intros Hm Hh p v. destruct (Hm p v) as (r & added1 & errs1 & H1).
  destruct (Hh (mkProcess (_mod_skip_validation p) (events p ++ added1))
               (mkValidator (_skip_validation v) (errors v ++ errs1)))
    as (r2 & added2 & errs2 & H2).
  unfold except_dimensionality. cbn [run]. rewrite H1.
  destruct r as [a|e]; [now exists (Ok a), added1, errs1|].
  destruct e;
    try (eexists _, added1, errs1; reflexivity).
  exists r2, (added1 ++ added2), (errs1 ++ errs2). rewrite H2. cbn.
  now rewrite !app_assoc.
Qed.

Ltac adds_step :=
  first
    [ apply adds_ret | apply adds_lift | apply adds_warn | apply adds_query
    | apply adds_error | apply adds_self_skip
    | apply adds_except
    | apply adds_bind; [|intros ?]
    | match goal with
      | |- only_adds (if ?b then _ else _) => destruct b
      | |- only_adds (match ?x with _ => _ end) => destruct x
      | |- only_adds (let '(_, _) := ?x in _) => destruct x
      end ].

Lemma adds_check_authors field authors ref_authors names :
  only_adds (check_authors field authors ref_authors names).
Proof.
  revert names. induction ref_authors as [|a rest IH]; intros names;
    cbn [check_authors].
  - apply adds_ret.
  - apply adds_bind; [unfold check_author; repeat adds_step | intros ?; apply IH].
Qed.

(** X8: whatever its arguments, the state it runs in and the answers of
    the external services, and whether it returns or raises, a rule leaves
    the module's flag and the instance's flag as they were and keeps every
    earlier event and every earlier error, in order, before those it
    adds. *)
Theorem rules_only_add (srv : services) (call : rule_call) :
  only_adds (invoke srv call).
Proof.
  destruct call; cbn [invoke].
  - unfold _validate_isvalid_unit. repeat adds_step.
  - unfold _validate_isvalid_quantity. repeat adds_step.
  - unfold _validate_isvalid_reference, check_reference.
    repeat first [apply adds_check_authors | adds_step].
  - unfold _validate_isvalid_orcid. repeat adds_step.
Qed.

(** ** The instance's own switch *)

(** X9: after the instance's own [disable_validation] every rule returns
    on that instance without error, warning or query, and the errors it
    held are kept; the module's flag is not touched, so a validator
    constructed afterwards is what it would have been; and the instance's
    [enable_validation] sets its flag back. *)
Theorem instance_switch_is_local (srv : services) (call : rule_call)
    (p : process) (v : OurValidator) :
  run (OurValidator_disable_validation ≫= fun _ => invoke srv call) (p, v)
  = (Ok tt, (emit (Warning "validation disabled.") p, mkValidator true (errors v))) /\
  OurValidator_init (fst (snd (run OurValidator_disable_validation (p, v))))
  = OurValidator_init p /\
  run (OurValidator_disable_validation ≫= fun _ => OurValidator_enable_validation)
      (p, v)
  = (Ok tt,
     (emit (Warning "validation enabled.") (emit (Warning "validation disabled.") p),
      mkValidator false (errors v))).
Proof.
  split; [|split; reflexivity].
  rewrite run_bind.
  change (run OurValidator_disable_validation (p, v))
    with (Ok tt, (emit (Warning "validation disabled.") p, mkValidator true (errors v))).
  cbv beta iota. now apply invoke_skipped.
Qed.

(** ** Two authors of the record matching one listed author *)

(** X10: in the loop over the authors of the Crossref record, when two of
    them match the same and only listed author, the second turn raises
    [ValueError] (the name was removed in the first turn) instead of
    recording an error. *)
Theorem second_match_of_one_author_raises (field : string) (a : Author)
    (c1 c2 : CrossrefAuthor) (s : process * OurValidator) :
  compare_name (given c1) (family c1) (a_name a) = Ok true ->
  compare_name (given c2) (family c2) (a_name a) = Ok true ->
  fst (run (check_authors field [a] [c1; c2] [a_name a]) s) = Raise ValueError.
Proof.
  intros H1 H2. cbn [check_authors]. rewrite run_bind.
  assert (Hfirst : exists s', run (check_author field [a] c1 [a_name a]) s = (Ok [], s')).
  { unfold check_author. rewrite run_bind. cbn [run lift py_next].
    rewrite H1, mbind_Ok. cbv beta iota. rewrite run_bind. cbn [run lift py_remove].
    rewrite String.eqb_refl.
    destruct (cr_ORCID c1) as [o|]; [|now eexists].
    destruct (nonempty o); [|now eexists].
    destruct (a_ORCID a) as [given_orcid|].
    - destruct (String.eqb given_orcid (after_last_slash o)); now eexists.
    - now eexists. }
  destruct Hfirst as [s' ->]. rewrite run_bind.
  unfold check_author. rewrite run_bind. cbn [run lift py_next].
  rewrite H2, mbind_Ok. cbv beta iota. rewrite run_bind. cbn [run lift py_remove].
  reflexivity.
Qed.

(** Wei Wang and Wen Wang against the single listed author W. Wang. *)
Lemma second_match_of_one_author_raises_witness :
  fst (run (check_authors "reference" [mkAuthor "W. Wang" None]
              [mkCrossrefAuthor "Wei" "Wang" None; mkCrossrefAuthor "Wen" "Wang" None]
              ["W. Wang"])
           (initial_process, OurValidator_init initial_process))
  = Raise ValueError.
Proof.
  apply (second_match_of_one_author_raises "reference" (mkAuthor "W. Wang" None)
           (mkCrossrefAuthor "Wei" "Wang" None) (mkCrossrefAuthor "Wen" "Wang" None));
    vm_compute; reflexivity.
Defined.

(** ** The reference read from a source *)

Lemma last_char_is_snoc (c : ascii) (s : string) :
  last_char_is c (s +:+ String c "") = Ok true.
Proof.
  unfold last_char_is.
  assert (H : list_ascii_of_string (s +:+ String c "")
              = list_ascii_of_string s ++ [c]).
  { induction s as [|d s IH]; [reflexivity|].
    change (String d s +:+ String c "") with (String d (s +:+ String c "")).
    cbn [list_ascii_of_string]. now rewrite IH. }
  rewrite H, rev_app_distr. cbn. now rewrite Ascii.eqb_refl.
Qed.

Lemma last_char_is_nonempty (c : ascii) (s : string) (b : bool) :
  last_char_is c s = Ok b -> s <> "".
Proof. intros H ->. discriminate. Qed.

(** X11: a reference read without error keeps the [doi] attribute of the
    [bibliographyLink] element, and either comes whole from Crossref
    (journal, year, volume and authors, and no detail) or has a detail,
    which is the not empty [preferredKey] attribute, as it is when it ends
    with a period and with one period appended when it does not; either way
    the detail ends with a period. *)
Theorem get_reference_shape (srv : services) (root : Element) (r : Reference) :
  get_reference srv root = Ok r ->
  exists elem,
    find root "bibliographyLink" = Some elem /\
    r_doi r = attrib elem !! "doi" /\
    ((r_detail r = None /\ is_Some (r_doi r) /\ is_Some (r_journal r) /\
      is_Some (r_year r) /\ is_Some (r_volume r) /\ is_Some (r_authors r)) \/
     (exists key dotted,
        attrib elem !! "preferredKey" = Some key /\ key <> "" /\
        last_char_is "." key = Ok dotted /\
        r_detail r = Some (if dotted : bool then key else key +:+ ".") /\
        last_char_is "." (if dotted : bool then key else key +:+ ".") = Ok true)).
Proof.
  unfold get_reference. intros H.
  destruct (find root "bibliographyLink") as [elem|]; [|discriminate].
  exists elem. split; [reflexivity|].
  assert (Hfall : forall r0 : Reference,
             r_doi r0 = attrib elem !! "doi" ->
             match attrib elem !! "preferredKey" with
             | None => Raise (MissingAttributeError "preferredKey" "bibliographyLink")
             | Some detail =>
                 dotted ← last_char_is "." detail;
                 Ok (mkReference (r_doi r0) (r_journal r0) (r_year r0) (r_volume r0)
                       (r_pages r0) (r_authors r0)
                       (Some (if dotted : bool then detail else detail +:+ ".")))
             end = Ok r ->
             r_doi r = attrib elem !! "doi" /\
             exists key dotted,
               attrib elem !! "preferredKey" = Some key /\ key <> "" /\
               last_char_is "." key = Ok dotted /\
               r_detail r = Some (if dotted : bool then key else key +:+ ".") /\
               last_char_is "." (if dotted : bool then key else key +:+ ".")
               = Ok true).
  { intros r0 Hdoi Hr. destruct (attrib elem !! "preferredKey") as [key|];
      [|discriminate].
    bind_ok Hr as dotted Hdotted. injection Hr as <-. cbn [r_doi r_detail].
    split; [exact Hdoi|]. exists key, dotted. split; [reflexivity|].
    split; [now apply (last_char_is_nonempty "." key dotted)|].
    split; [exact Hdotted|]. split; [reflexivity|].
    destruct dotted; [exact Hdotted|apply last_char_is_snoc]. }
  destruct (attrib elem !! "doi") as [doi|] eqn:Edoi.
  - unfold reference_from_doi in H.
    destruct (crossref_works srv doi) as [ref| |].
    + destruct (py_index (container_title ref) 0) as [journal|e].
      * destruct (of_option _ TypeError) as [year|e].
        -- destruct (_ ≫= _) as [volume|e] in H.
           ++ destruct (cr_author ref) as [ref_authors|].
              ** injection H as <-. cbn. split; [reflexivity|]. left.
                 repeat split; eauto.
              ** cbn [is_KeyError] in H. cbv iota in H.
                 apply Hfall in H as [Hd Hk]; [|reflexivity]. split; [exact Hd|now right].
           ++ destruct (is_KeyError e); [|discriminate].
              apply Hfall in H as [Hd Hk]; [|reflexivity]. split; [exact Hd|now right].
        -- destruct (is_KeyError e); [|discriminate].
           apply Hfall in H as [Hd Hk]; [|reflexivity]. split; [exact Hd|now right].
      * destruct (is_KeyError e); [|discriminate].
        apply Hfall in H as [Hd Hk]; [|reflexivity]. split; [exact Hd|now right].
    + cbn [is_KeyError] in H. cbv iota in H.
      apply Hfall in H as [Hd Hk]; [|reflexivity]. split; [exact Hd|now right].
    + cbn [is_KeyError] in H. cbv iota in H.
      apply Hfall in H as [Hd Hk]; [|reflexivity]. split; [exact Hd|now right].
  - cbn [is_KeyError] in H. cbv iota in H.
    apply Hfall in H as [Hd Hk]; [|reflexivity]. split; [exact Hd|now right].
Qed.

(** The source without a [doi] attribute: the detail is the key, closed. *)
Lemma get_reference_shape_witness :
  exists elem,
    find detail_only_document "bibliographyLink" = Some elem /\
    r_doi (mkReference None None None None None None (Some "Niemeyer 2016."))
    = attrib elem !! "doi" /\
    ((r_detail (mkReference None None None None None None (Some "Niemeyer 2016."))
      = None /\
      is_Some (r_doi (mkReference None None None None None None (Some "Niemeyer 2016."))) /\
      is_Some (r_journal (mkReference None None None None None None (Some "Niemeyer 2016."))) /\
      is_Some (r_year (mkReference None None None None None None (Some "Niemeyer 2016."))) /\
      is_Some (r_volume (mkReference None None None None None None (Some "Niemeyer 2016."))) /\
      is_Some (r_authors (mkReference None None None None None None (Some "Niemeyer 2016.")))) \/
     (exists key dotted,
        attrib elem !! "preferredKey" = Some key /\ key <> "" /\
        last_char_is "." key = Ok dotted /\
        r_detail (mkReference None None None None None None (Some "Niemeyer 2016."))
        = Some (if dotted : bool then key else key +:+ ".") /\
        last_char_is "." (if dotted : bool then key else key +:+ ".") = Ok true)).
Proof.
  apply (get_reference_shape sample_services detail_only_document).
  vm_compute. reflexivity.
Defined.

Lemma get_reference_unresolved (srv : services) (root elem : Element) :
  find root "bibliographyLink" = Some elem ->
  unresolved srv elem = true ->
  get_reference srv root = fallback_reference elem.
Proof.
  intros Hfind Hun.
  unfold get_reference, fallback_reference, unresolved in *. rewrite Hfind.
  destruct (attrib elem !! "doi") as [doi|].
  - unfold reference_from_doi.
    destruct (crossref_works srv doi); [discriminate|reflexivity..].
  - reflexivity.
Qed.

(** X12: when Crossref has no record to give (no [doi] attribute, DOI not
    found, service out of reach), the reference is the fallback: the [doi]
    attribute if any and the detail, nothing else; an absent [preferredKey]
    raises [MissingAttributeError] and an empty one [IndexError]. *)
Theorem get_reference_fallback (srv : services) (root elem : Element) :
  find root "bibliographyLink" = Some elem ->
  unresolved srv elem = true ->
  get_reference srv root = fallback_reference elem /\
  (attrib elem !! "preferredKey" = None ->
   get_reference srv root
   = Raise (MissingAttributeError "preferredKey" "bibliographyLink")) /\
  (attrib elem !! "preferredKey" = Some "" ->
   get_reference srv root = Raise IndexError).
Proof.
  intros Hfind Hun. rewrite (get_reference_unresolved srv root elem Hfind Hun).
  split; [reflexivity|]. unfold fallback_reference.
  split; intros ->; reflexivity.
Qed.

(** The source without a [doi] attribute. *)
Lemma get_reference_fallback_witness :
  get_reference sample_services detail_only_document
  = Ok (mkReference None None None None None None (Some "Niemeyer 2016.")).
Proof.
  destruct (get_reference_fallback sample_services detail_only_document
              (element "bibliographyLink" [("preferredKey", "Niemeyer 2016")] None []))
    as (H & _).
  - reflexivity.
  - reflexivity.
  - rewrite H. vm_compute. reflexivity.
Defined.

(** ** The common properties read from a source *)

Lemma units_lookup (s : string) (q : Quantity) :
  units s = Ok q -> lookup_unit (strip s) = Some (q_units q) /\ q = mkQuantity 1 (q_units q).
Proof.
  unfold units. destruct (lookup_unit (strip s)) as [u|]; [|discriminate].
  now intros [= <-].
Qed.

Lemma to_compatible (q : Quantity) (target : string) (r : Quantity) :
  to q target = Ok r ->
  exists reference_unit,
    lookup_unit (strip target) = Some reference_unit /\
    dim_eqb (dim (q_units q)) (dim reference_unit) = true.
Proof.
  unfold to. intros H. bind_ok H as t Ht. bind_ok H as m Hm.
  apply units_lookup in Ht as [Ht _]. exists (q_units t). split; [exact Ht|].
  unfold magnitude_in in Hm. now destruct (dim_eqb _ _).
Qed.

Lemma read_common_scalar_shape (name : string) (elem : Element) (field : string)
    (v : pval) :
  name ∈ common_scalar_names ->
  read_common_scalar name elem = Ok (field, v) ->
  field ∈ common_scalar_fields /\
  exists value units_attr,
    v = PQuantity [value +:+ " " +:+ units_attr] /\ units_attr <> "Torr" /\
    compatible_units field units_attr.
Proof.
  intros Hname H. unfold read_common_scalar in H.
  bind_ok H as u Hu. bind_ok H as one Hone. bind_ok H as target Htarget.
  bind_ok H as conv Hconv. bind_ok H as vt Hvt. bind_ok H as value Hvalue.
  injection H as <- <-. split.
  { unfold common_scalar_names in Hname.
    repeat (apply elem_of_cons in Hname as [->|Hname];
            [apply list_elem_of_In; vm_compute; tauto|]).
    inversion Hname. }
  exists value, (normalize_torr u). split; [reflexivity|]. split.
  { unfold normalize_torr. destruct (String.eqb_spec u "Torr"); [discriminate|assumption]. }
  apply units_lookup in Hone as [Hone _].
  unfold try_except in Hconv.
  destruct (to (scale 1 one) target) as [c|e] eqn:Hto;
    [|destruct e; discriminate].
  apply to_compatible in Hto as (ru & Hru & Hdim).
  exists (q_units one), ru. split; [exact Hone|]. split; [|exact Hdim].
  unfold semantic_unit. unfold getitem in Htarget.
  destruct (property_units !! _) as [t|]; [|discriminate].
  injection Htarget as ->. exact Hru.
Qed.

Lemma read_composition_kind (elem : Element) (c : CompositionDict) :
  read_composition elem = Ok c ->
  kind c = "mole fraction" \/ kind c = "mass fraction".
Proof.
  unfold read_composition. intros H. bind_ok H as [species ct] Hread.
  destruct ct as [t|]; [|discriminate].
  destruct (String.eqb_spec t "mole fraction") as [->|_].
  - injection H as <-. now left.
  - destruct (String.eqb_spec t "mass fraction") as [->|_]; [|discriminate].
    injection H as <-. now right.
Qed.

(** X13: every common property read from a source is the composition,
    tagged mole fraction or mass fraction, or one of temperature, pressure,
    pressure rise and compression time, held as the one-element list of the
    value text, a space and the unit, where the unit is not written Torr
    and is a unit of the registry with the dimension of the property's
    reference unit. *)
Theorem common_properties_well_formed (root : Element)
    (properties : gmap string pval) (field : string) (v : pval) :
  get_common_properties root = Ok properties ->
  properties !! field = Some v ->
  (field = "composition" /\
   exists c, v = PComposition c /\
             (kind c = "mole fraction" \/ kind c = "mass fraction")) \/
  (field ∈ common_scalar_fields /\
   exists value units_attr,
     v = PQuantity [value +:+ " " +:+ units_attr] /\ units_attr <> "Torr" /\
     compatible_units field units_attr).
Proof.
  unfold get_common_properties. intros H.
  set (P := fun (field : string) (v : pval) =>
    (field = "composition" /\
     exists c, v = PComposition c /\
               (kind c = "mole fraction" \/ kind c = "mass fraction")) \/
    (field ∈ common_scalar_fields /\
     exists value units_attr,
       v = PQuantity [value +:+ " " +:+ units_attr] /\ units_attr <> "Torr" /\
       compatible_units field units_attr)).
  assert (Hall : map_Forall P properties); [|exact (Hall field v)].
  assert (Hempty : map_Forall P (∅ : gmap string pval)) by apply map_Forall_empty.
  revert H Hempty. generalize (∅ : gmap string pval) as acc.
  generalize (iterfind2 root "commonProperties" "property") as l.
  induction l as [|elem l IH]; intros acc H Hacc.
  - cbn in H. now injection H as <-.
  - cbn [read_common_properties] in H. bind_ok H as name Hname.
    destruct (String.eqb name "initial composition").
    + bind_ok H as c Hc. apply (IH _ H). apply map_Forall_insert_2; [|exact Hacc].
      left. split; [reflexivity|]. exists c. split; [reflexivity|].
      now apply (read_composition_kind elem).
    + destruct (bool_decide_reflect (name ∈ common_scalar_names)) as [Hin|_];
        [|discriminate].
      bind_ok H as [f x] Hfx. apply (IH _ H). apply map_Forall_insert_2; [|exact Hacc].
      right. now apply (read_common_scalar_shape name elem).
Qed.

(** The pressure of [overlapping_document], given in atm. *)
Lemma common_properties_well_formed_witness :
  exists value units_attr,
    PQuantity ["1.0 atm"] = PQuantity [value +:+ " " +:+ units_attr] /\
    units_attr <> "Torr" /\ compatible_units "pressure" units_attr.
Proof.
  destruct (common_properties_well_formed overlapping_document
              (<["temperature" := PQuantity ["1200 K"]]>
                 (<["pressure" := PQuantity ["1.0 atm"]]>
                    (<["composition" :=
                         PComposition
                           (mkCompositionDict
                              [ mkSpeciesEntry "H2" None [1 # 4];
                                mkSpeciesEntry "O2" None [3 # 4] ]
                              "mole fraction")]> ∅)))
              "pressure" (PQuantity ["1.0 atm"]))
    as [[Hfield _]|[_ H]].
  - vm_compute. reflexivity.
  - reflexivity.
  - discriminate.
  - exact H.
Defined.

(** ** The ignition definition read from a source *)

(** X14: an ignition definition read without error has one of the four
    types and one of the six targets of a converted record: [P] and [T]
    are written out, and no target is left in another spelling. *)
Theorem ignition_type_canonical (root : Element) (ign : IgnitionType) :
  get_ignition_type root = Ok ign ->
  ign_type ign ∈ ignition_types /\ ign_target ign ∈ converted_targets.
Proof.
  intros H. apply get_ignition_type_inv in H
    as (elem & target & type & _ & _ & _ & Hct & Hty & ->).
  split; [exact Hty|]. cbn [ign_target].
  unfold ignition_targets in Hct.
  repeat (apply elem_of_cons in Hct as [->|Hct];
          [apply list_elem_of_In; vm_compute; tauto|]).
  inversion Hct.
Qed.

(** The target OHEX of [noncanonical_document] is read as OH*. *)
Lemma ignition_type_canonical_witness :
  ign_type (mkIgnitionType "max" "OH*") ∈ ignition_types /\
  ign_target (mkIgnitionType "max" "OH*") ∈ converted_targets.
Proof.
  apply (ignition_type_canonical noncanonical_document). vm_compute. reflexivity.
Defined.

Lemma split_char_not_nil (c : ascii) (s : string) : split_char c s <> [].
Proof.
  destruct s as [|d s]; [discriminate|]. cbn [split_char].
  destruct (Ascii.eqb c d); [discriminate|].
  destruct (split_char c s); discriminate.
Qed.

Lemma split_char_several (c : ascii) (s : string) :
  contains_char c s = true -> (1 <? length (split_char c s))%nat = true.
Proof.
  induction s as [|d s IH]; [discriminate|]. cbn [contains_char split_char].
  destruct (Ascii.eqb c d).
  - intros _. pose proof (split_char_not_nil c s).
    destruct (split_char c s); [contradiction|reflexivity].
  - cbn [orb]. intros H. specialize (IH H).
    destruct (split_char c s) as [|piece rest]; [discriminate|exact IH].
Qed.

Lemma semicolon_upper_char (c : ascii) :
  Ascii.eqb ";" (upper_char c) = Ascii.eqb ";" c.
Proof. destruct c as [[] [] [] [] [] [] [] []]; reflexivity. Qed.

Lemma contains_semicolon_upper (s : string) :
  contains_char ";" (upper s) = contains_char ";" s.
Proof.
  unfold upper. induction s as [|c s IH]; [reflexivity|].
  cbn [map_string contains_char]. now rewrite semicolon_upper_char, IH.
Qed.

(** X15: with both attributes present, the importer refuses the ignition
    definition as one of multiple targets exactly when the target, its
    trailing semicolons set aside, still holds a semicolon. *)
Theorem multiple_ignition_targets_rejected (root elem : Element)
    (target type : string) :
  find root "ignitionType" = Some elem ->
  attrib elem !! "target" = Some target ->
  attrib elem !! "type" = Some type ->
  get_ignition_type root
  = Raise (NotImplementedError "Multiple ignition targets not supported.") <->
  contains_char ";" (rstrip_by (Ascii.eqb ";") target) = true.
Proof.
  intros Hfind Htarget Htype. unfold get_ignition_type.
  rewrite Hfind, Htarget, Htype. cbn [of_option]. rewrite !mbind_Ok.
  destruct (contains_char ";" (rstrip_by (Ascii.eqb ";") target)) eqn:E.
  - rewrite split_char_several by now rewrite contains_semicolon_upper.
    split; reflexivity.
  - rewrite split_char_none by now rewrite contains_semicolon_upper.
    cbn [length Nat.ltb Nat.leb].
    split; [|discriminate]. intros H.
    destruct (negb _) in H; [discriminate|].
    destruct (negb _) in H; discriminate.
Qed.

(** Two targets, and one target closed by a semicolon. *)
Lemma multiple_ignition_targets_rejected_witness :
  get_ignition_type
    (element "experiment" [] None
       [element "ignitionType" [("target", "P;T"); ("type", "max")] None []])
  = Raise (NotImplementedError "Multiple ignition targets not supported.").
Proof.
  apply (multiple_ignition_targets_rejected _
           (element "ignitionType" [("target", "P;T"); ("type", "max")] None [])
           "P;T" "max"); reflexivity.
Defined.

Lemma rstrip_by_snoc (p : ascii -> bool) (s : string) (c : ascii) :
  p c = true -> rstrip_by p (s +:+ String c "") = rstrip_by p s.
Proof.
  intros Hc. induction s as [|d s IH].
  - change ("" +:+ String c "") with (String c ""). cbn [rstrip_by].
    now rewrite Hc.
  - change (String d s +:+ String c "") with (String d (s +:+ String c "")).
    cbn [rstrip_by]. now rewrite IH.
Qed.

Lemma rstrip_by_map (p : ascii -> bool) (f : ascii -> ascii) (s : string) :
  (forall c, p (f c) = p c) ->
  rstrip_by p (map_string f s) = map_string f (rstrip_by p s).
Proof.
  intros Hf. induction s as [|c s IH]; [reflexivity|].
  cbn [map_string rstrip_by]. rewrite IH.
  destruct (rstrip_by p s) as [|d t]; cbn [map_string]; [|reflexivity].
  rewrite Hf. now destruct (p c).
Qed.

Lemma upper_lower_char (c : ascii) : upper_char (lower_char c) = upper_char c.
Proof. destruct c as [[] [] [] [] [] [] [] []]; reflexivity. Qed.

Lemma upper_lower (s : string) : upper (lower s) = upper s.
Proof.
  unfold lower, upper. induction s as [|c s IH]; [reflexivity|].
  cbn [map_string]. now rewrite upper_lower_char, IH.
Qed.

Lemma semicolon_lower_char (c : ascii) :
  Ascii.eqb ";" (lower_char c) = Ascii.eqb ";" c.
Proof. destruct c as [[] [] [] [] [] [] [] []]; reflexivity. Qed.

(** X16: the importer reads the same ignition definition (or raises the
    same exception) when the target is written in lower case and closed by
    a semicolon. *)
Theorem ignition_target_spelling (root root' elem : Element) (target : string) :
  find root "ignitionType" = Some elem ->
  attrib elem !! "target" = Some target ->
  find root' "ignitionType" = Some (with_target (lower target +:+ ";") elem) ->
  get_ignition_type root' = get_ignition_type root.
Proof.
  intros Hfind Htarget Hfind'. unfold get_ignition_type.
  rewrite Hfind, Hfind', Htarget. unfold with_target. cbn [attrib].
  rewrite lookup_insert_eq. rewrite (lookup_insert_ne _ "target" "type") by discriminate.
  cbn [of_option]. rewrite !mbind_Ok.
  rewrite rstrip_by_snoc by reflexivity.
  assert (E : rstrip_by (Ascii.eqb ";") (lower target)
              = lower (rstrip_by (Ascii.eqb ";") target))
    by (unfold lower; apply rstrip_by_map; exact semicolon_lower_char).
  rewrite E, upper_lower. reflexivity.
Qed.

(** The target OHEX of [noncanonical_document] written ohex; instead. *)
Lemma ignition_target_spelling_witness :
  get_ignition_type
    (element "experiment" [] None
       [element "ignitionType" [("target", "ohex;"); ("type", "max")] None []])
  = get_ignition_type noncanonical_document.
Proof.
  apply (ignition_target_spelling noncanonical_document _
           (element "ignitionType" [("target", "OHEX"); ("type", "max")] None [])
           "OHEX").
  - reflexivity.
  - reflexivity.
  - vm_compute. reflexivity.
Defined.

(** ** The data points read from a source *)

Lemma read_datapoint_values (unit_id property_id : gmap string string)
    (l : list Element) (datapoint result : gmap string pval) :
  (forall k n, property_id !! k = Some n -> n ∈ datagroup_properties) ->
  map_Forall row_value datapoint ->
  read_datapoint unit_id property_id datapoint l = Ok result ->
  map_Forall row_value result.
Proof.
  intros Hnames. revert datapoint.
  induction l as [|val l IH]; intros datapoint Hinv H.
  - cbn in H. now injection H as <-.
  - cbn [read_datapoint] in H.
    bind_ok H as u Hu. bind_ok H as name Hname. bind_ok H as t Ht.
    refine (IH _ _ H). apply map_Forall_insert_2; [|exact Hinv].
    split; [|now eexists].
    unfold getitem in Hname.
    destruct (property_id !! tag val) as [n|] eqn:Hn; [|discriminate].
    injection Hname as ->. apply Hnames in Hn. unfold datagroup_properties in Hn.
    repeat (apply elem_of_cons in Hn as [->|Hn];
            [apply list_elem_of_In; vm_compute; tauto|]).
    inversion Hn.
Qed.

Lemma read_datapoints_shape (unit_id property_id : gmap string string)
    (l : list Element) (dps : list (gmap string pval)) :
  (forall k n, property_id !! k = Some n -> n ∈ datagroup_properties) ->
  read_datapoints unit_id property_id l = Ok dps ->
  length dps = length l /\ Forall (map_Forall row_value) dps.
Proof.
  intros Hnames. revert dps. induction l as [|dp l IH]; intros dps H.
  - cbn in H. injection H as <-. now split.
  - cbn [read_datapoints] in H. bind_ok H as own Hown. bind_ok H as others Hothers.
    injection H as <-. destruct (IH _ Hothers) as [Hlen Hall].
    split; [cbn; now rewrite Hlen|]. constructor; [|exact Hall].
    apply (read_datapoint_values _ _ _ _ _ Hnames (map_Forall_empty _) Hown).
Qed.

Lemma read_history_rows_length (time_tag volume_tag : string) (l : list Element)
    (rows : list (option Q * option Q)) :
  read_history_rows time_tag volume_tag l = Ok rows -> length rows = length l.
Proof.
  revert rows. induction l as [|dp l IH]; intros rows H.
  - cbn in H. now injection H as <-.
  - cbn [read_history_rows] in H. bind_ok H as row Hrow.
    bind_ok H as others Hothers. injection H as <-. cbn. now rewrite (IH _ Hothers).
Qed.

Lemma read_history_columns_numbers (l : list Element)
    (cols cols' : option (ColumnDict * string) * option (ColumnDict * string)) :
  (forall cd t, fst cols = Some (cd, t) -> column cd = 0%nat) ->
  (forall cd t, snd cols = Some (cd, t) -> column cd = 1%nat) ->
  read_history_columns cols l = Ok cols' ->
  (forall cd t, fst cols' = Some (cd, t) -> column cd = 0%nat) /\
  (forall cd t, snd cols' = Some (cd, t) -> column cd = 1%nat).
Proof.
  revert cols. induction l as [|prop l IH]; intros cols H0 H1 H.
  - cbn in H. injection H as <-. now split.
  - cbn [read_history_columns] in H. bind_ok H as name Hname.
    destruct (String.eqb name "time").
    + bind_ok H as u Hu. bind_ok H as id Hid. apply (IH _) in H; [exact H| |exact H1].
      cbn. now intros cd t [= <- _].
    + destruct (String.eqb name "volume").
      * bind_ok H as u Hu. bind_ok H as id Hid. apply (IH _) in H; [exact H|exact H0|].
        cbn. now intros cd t [= <- _].
      * now apply (IH _) in H.
Qed.

(** X17: data points read without error come from one or two data groups
    and are as many as the rows of the first, at least one.  With one data
    group each holds, under tracked fields, one-element lists only; with two
    the apparatus is a rapid compression machine and the only data point
    holds besides those the volume history, which has one pair per row of
    the second group, the time in column 0 and the volume in column 1. *)
Theorem get_datapoints_shape (root : Element) (dps : list (gmap string pval)) :
  get_datapoints root = Ok dps ->
  exists g rest,
    findall root "dataGroup" = g :: rest /\
    length dps = length (findall g "dataPoint") /\ (0 < length dps)%nat /\
    match rest with
    | [] => Forall (map_Forall row_value) dps
    | [h] =>
        text_of (find2 root "apparatus" "kind")
        = Ok (Some "rapid compression machine") /\
        exists own vh,
          dps = [<["volume-history" := PVolumeHistory vh]> own] /\
          map_Forall row_value own /\
          length (vh_values vh) = length (findall h "dataPoint") /\
          column (vh_time vh) = 0%nat /\ column (vh_volume vh) = 1%nat
    | _ => False
    end.
Proof.
  unfold get_datapoints. intros H.
  destruct (findall root "dataGroup") as [|g rest]; [discriminate|].
  exists g, rest. split; [reflexivity|].
  bind_ok H as [unit_id property_id] Hids.
  destruct (bool_decide _); [discriminate|].
  bind_ok H as points Hpoints.
  apply read_datapoints_shape in Hpoints as [Hlen Hall];
    [|apply (read_datagroup_properties_names _ _ _ _ _
               ltac:(intros k n Hk; now rewrite lookup_empty in Hk) Hids)].
  destruct (Nat.eqb_spec (length points) 0) as [|Hpos]; [discriminate|].
  destruct rest as [|h [|h' rest]]; cbn [length Nat.eqb Nat.ltb Nat.leb] in H.
  - injection H as <-. repeat split; [exact Hlen|lia|exact Hall].
  - bind_ok H as kind Hkind. bind_ok H as a1 Ha1. bind_ok H as a2 Ha2.
    cbn [py_index lookup list_lookup of_option] in H. rewrite mbind_Ok in H.
    bind_ok H as cols Hcols. bind_ok H as [time_dict time_tag] Htime.
    bind_ok H as [volume_dict volume_tag] Hvolume. bind_ok H as values Hvalues.
    bind_ok H as first Hfirst.
    unfold py_assert in Ha1, Ha2.
    destruct (bool_decide_reflect (kind = Some "rapid compression machine"))
      as [->|]; [|discriminate].
    destruct (Nat.eqb_spec (length points) 1) as [Hone|]; [|discriminate].
    destruct points as [|own [|? ?]]; try discriminate.
    injection Hfirst as <-. cbn in H. injection H as <-.
    apply Forall_cons in Hall as [Hown _].
    apply read_history_rows_length in Hvalues.
    apply read_history_columns_numbers in Hcols as [Hc0 Hc1]; try discriminate.
    destruct cols as [[c0|] [c1|]]; try discriminate.
    cbn in Htime, Hvolume. injection Htime as ->. injection Hvolume as ->.
    split; [exact Hlen|]. split; [cbn; lia|]. split; [exact Hkind|].
    eexists own, _. split; [reflexivity|]. split; [exact Hown|].
    cbn [vh_values vh_time vh_volume].
    split; [exact Hvalues|]. split; [now apply (Hc0 _ time_tag)|now apply (Hc1 _ volume_tag)].
  - discriminate.
Qed.

(** The single data group of [overlapping_document]. *)
Lemma get_datapoints_shape_witness :
  exists g rest,
    findall overlapping_document "dataGroup" = g :: rest /\
    length [({["temperature" := PQuantity ["1000 K"]]}
             ∪ {["ignition-delay" := PQuantity ["100 us"]]} : gmap string pval)]
    = length (findall g "dataPoint").
Proof.
  destruct (get_datapoints_shape overlapping_document
              [{["temperature" := PQuantity ["1000 K"]]}
               ∪ {["ignition-delay" := PQuantity ["100 us"]]}])
    as (g & rest & Hg & Hlen & _).
  - vm_compute. reflexivity.
  - now exists g, rest.
Defined.

(** ** The converted record *)

Lemma get_datapoints_values (root : Element) (dps : list (gmap string pval)) :
  get_datapoints root = Ok dps -> Forall (map_Forall point_value) dps.
Proof.
  unfold get_datapoints. intros H.
  destruct (findall root "dataGroup") as [|g rest]; [discriminate|].
  bind_ok H as [unit_id property_id] Hids.
  destruct (bool_decide _); [discriminate|].
  bind_ok H as points Hpoints.
  apply read_datapoints_shape in Hpoints as [_ Hall];
    [|apply (read_datagroup_properties_names _ _ _ _ _
               ltac:(intros k n Hk; now rewrite lookup_empty in Hk) Hids)].
  assert (Hrow : Forall (map_Forall point_value) points).
  { eapply Forall_impl; [exact Hall|]. intros dp Hdp k v Hk. left. now apply Hdp. }
  destruct (length points =? 0)%nat; [discriminate|].
  destruct (length (g :: rest) =? 2)%nat.
  - bind_ok H as kind Hkind. bind_ok H as a1 Ha1. bind_ok H as a2 Ha2.
    bind_ok H as h Hh. bind_ok H as cols Hcols.
    bind_ok H as [time_dict time_tag] Htime.
    bind_ok H as [volume_dict volume_tag] Hvolume. bind_ok H as values Hvalues.
    bind_ok H as first Hfirst.
    destruct points as [|own points]; [discriminate|].
    injection Hfirst as <-. cbn in H. injection H as <-.
    apply Forall_cons in Hrow as [Hown Hrest]. constructor; [|exact Hrest].
    apply map_Forall_insert_2; [|exact Hown]. right. split; [reflexivity|]. now eexists.
  - destruct (2 <? _)%nat; [discriminate|]. now injection H as <-.
Qed.

Lemma point_value_key (k : string) (v : pval) :
  point_value k v -> k ∈ tracked_fields ++ ["volume-history"].
Proof.
  intros [[Hk _]|[-> _]].
  - apply elem_of_app. now left.
  - apply list_elem_of_In. vm_compute. tauto.
Qed.

Lemma common_keys (root : Element) (common : gmap string pval) (k : string) :
  get_common_properties root = Ok common ->
  is_Some (common !! k) -> k ∈ "composition" :: common_scalar_fields.
Proof.
  intros H [v Hv].
  assert (Hall : map_Forall (fun k _ => k ∈ "composition" :: common_scalar_fields)
                            common); [|exact (Hall k v Hv)].
  unfold get_common_properties in H.
  assert (Hempty : map_Forall (fun k (_ : pval) =>
                                 k ∈ "composition" :: common_scalar_fields)
                              (∅ : gmap string pval)) by apply map_Forall_empty.
  revert H Hempty. generalize (∅ : gmap string pval) as acc.
  generalize (iterfind2 root "commonProperties" "property") as l.
  clear Hv. induction l as [|elem l IH]; intros acc H Hacc.
  - cbn in H. now injection H as <-.
  - cbn [read_common_properties] in H. bind_ok H as name Hname.
    destruct (String.eqb name "initial composition").
    + bind_ok H as c Hc. apply (IH _ H). apply map_Forall_insert_2; [|exact Hacc].
      apply list_elem_of_here.
    + destruct (bool_decide_reflect (name ∈ common_scalar_names)) as [Hin|_];
        [|discriminate].
      bind_ok H as [f x] Hfx. apply (IH _ H). apply map_Forall_insert_2; [|exact Hacc].
      apply list_elem_of_further.
      now apply (read_common_scalar_shape name elem f x).
Qed.

Lemma not_among (k : string) (l : list string) :
  forallb (fun x => negb (String.eqb k x)) l = true -> k ∉ l.
Proof.
  intros H Hin. apply list_elem_of_In in Hin.
  apply (proj1 (forallb_forall _ _) H) in Hin.
  now rewrite String.eqb_refl in Hin.
Qed.

(** X18: in a converted record the common properties are those read from
    the source with the ignition definition added and the compression time
    taken out; every data point holds the ignition definition and, under
    each key of the common properties, the common value; and its
    compression time is the common one, if any. *)
Theorem converted_points_carry_common (srv : services) (version : string)
    (root : Element) (basename file_author file_author_orcid : string)
    (p : Properties) :
  read_ReSpecTh srv version root basename file_author file_author_orcid = Ok p ->
  exists ign common,
    get_ignition_type root = Ok ign /\
    get_common_properties root = Ok common /\
    common_properties p
    = delete "compression-time" (<["ignition-type" := PIgnitionType ign]> common) /\
    forall dp, dp ∈ datapoints p ->
      dp !! "ignition-type" = Some (PIgnitionType ign) /\
      (forall k v, common_properties p !! k = Some v -> dp !! k = Some v) /\
      dp !! "compression-time" = common !! "compression-time".
Proof.
  unfold read_ReSpecTh. intros H.
  bind_ok H as author_name Hauthor. bind_ok H as ref Href.
  bind_ok H as ek Hek. bind_ok H as common Hcommon.
  bind_ok H as ign Hign. bind_ok H as dps Hdps.
  bind_ok H as u1 H1. bind_ok H as u2 H2. bind_ok H as u3 H3.
  bind_ok H as u4 H4. injection H as <-. cbn [common_properties datapoints].
  exists ign, common. split; [exact Hign|]. split; [exact Hcommon|].
  split; [reflexivity|]. intros dp Hdp.
  apply list_elem_of_fmap in Hdp as (own & -> & Hown). split; [|split].
  - rewrite apply_common_properties_lookup. now rewrite lookup_insert_eq.
  - intros k v Hk. rewrite apply_common_properties_lookup.
    apply lookup_delete_Some in Hk as [_ Hk]. now rewrite Hk.
  - rewrite apply_common_properties_lookup, lookup_insert_ne by discriminate.
    destruct (common !! "compression-time") as [v|]; [reflexivity|].
    apply get_datapoints_values in Hdps. rewrite Forall_forall in Hdps.
    specialize (Hdps own Hown).
    destruct (own !! "compression-time") as [v|] eqn:E; [|reflexivity].
    apply Hdps, point_value_key in E. exfalso. revert E. now apply not_among.
Qed.

(** The record read from [overlapping_document]. *)
Lemma converted_points_carry_common_witness :
  exists ign common,
    get_ignition_type overlapping_document = Ok ign /\
    get_common_properties overlapping_document = Ok common /\
    common_properties
      (imported (read_ReSpecTh sample_services "0.1" overlapping_document "st.xml" "" ""))
    = delete "compression-time" (<["ignition-type" := PIgnitionType ign]> common) /\
    forall dp,
      dp ∈ datapoints
             (imported (read_ReSpecTh sample_services "0.1" overlapping_document
                          "st.xml" "" "")) ->
      dp !! "ignition-type" = Some (PIgnitionType ign) /\
      (forall k v,
         common_properties
           (imported (read_ReSpecTh sample_services "0.1" overlapping_document
                        "st.xml" "" "")) !! k = Some v ->
         dp !! k = Some v) /\
      dp !! "compression-time" = common !! "compression-time".
Proof.
  apply (converted_points_carry_common sample_services "0.1" overlapping_document
           "st.xml" "" "").
  vm_compute. reflexivity.
Defined.

Lemma point_value_truth (k : string) (v : pval) :
  point_value k v -> pval_truth v = true.
Proof. now intros [[_ [s ->]]|[_ [vh ->]]]. Qed.

Lemma existsb_false {A : Type} (f : A -> bool) (l : list A) :
  existsb f l = false -> Forall (fun a => f a = false) l.
Proof.
  induction l as [|a l IH]; [constructor|]. cbn. intros H.
  apply orb_false_iff in H as [Ha H]. constructor; [exact Ha|now apply IH].
Qed.

Lemma get_experiment_kind_kinds (root : Element) (ek : ExperimentKind) :
  get_experiment_kind root = Ok ek ->
  ek_apparatus_kind ek = "shock tube" \/
  ek_apparatus_kind ek = "rapid compression machine".
Proof.
  unfold get_experiment_kind. intros H. bind_ok H as t Ht.
  destruct (bool_decide _).
  - bind_ok H as kind Hkind.
    destruct (bool_decide_reflect (kind = Some "shock tube")) as [->|_].
    + cbn in H. injection H as <-. now left.
    + destruct (bool_decide_reflect (kind = Some "rapid compression machine"))
        as [->|_].
      * cbn in H. injection H as <-. now right.
      * cbn [orb] in H. bind_ok H as k Hk. discriminate.
  - bind_ok H as t' Ht'. discriminate.
Qed.

(** X19: a converted record is for a shock tube or for a rapid compression
    machine.  For a shock tube no data point and not the common properties
    hold a compression time, and no data point holds a volume history; for a
    rapid compression machine none holds a pressure rise. *)
Theorem apparatus_exclusivity (srv : services) (version : string)
    (root : Element) (basename file_author file_author_orcid : string)
    (p : Properties) :
  read_ReSpecTh srv version root basename file_author file_author_orcid = Ok p ->
  (apparatus_kind p = "shock tube" /\
   common_properties p !! "compression-time" = None /\
   forall dp, dp ∈ datapoints p ->
     dp !! "compression-time" = None /\ dp !! "volume-history" = None) \/
  (apparatus_kind p = "rapid compression machine" /\
   common_properties p !! "pressure-rise" = None /\
   forall dp, dp ∈ datapoints p -> dp !! "pressure-rise" = None).
Proof.
  unfold read_ReSpecTh. intros H.
  bind_ok H as author_name Hauthor. bind_ok H as ref Href.
  bind_ok H as ek Hek. bind_ok H as common Hcommon.
  bind_ok H as ign Hign. bind_ok H as dps Hdps.
  bind_ok H as u1 H1. bind_ok H as u2 H2. bind_ok H as u3 H3.
  bind_ok H as u4 H4. injection H as <-.
  cbn [common_properties datapoints apparatus_kind].
  pose proof (get_datapoints_values _ _ Hdps) as Hvalues.
  rewrite Forall_forall in Hvalues.
  pose proof (fun k => common_keys root common k Hcommon) as Hkeys.
  pose proof (get_experiment_kind_kinds _ _ Hek) as Hkinds.
  apply get_experiment_kind_inv in Hek as (k & _ & Hk & ->).
  cbn [ek_apparatus_kind] in *.
  assert (Hkey : forall key, has_key (<["ignition-type" := PIgnitionType ign]> common) key
                             = false ->
                   key <> "ignition-type" -> common !! key = None).
  { intros key Hfalse Hne. unfold has_key in Hfalse.
    apply bool_decide_eq_false in Hfalse. rewrite lookup_insert_ne in Hfalse by congruence.
    now apply eq_None_not_Some. }
  assert (Hown : forall key own, own ∈ dps ->
                   existsb (fun dp => get_truth dp key) dps = false ->
                   own !! key = None).
  { intros key own Hin Hfalse. apply existsb_false in Hfalse.
    rewrite Forall_forall in Hfalse. specialize (Hfalse own Hin).
    unfold get_truth in Hfalse. destruct (own !! key) as [v|] eqn:E; [|reflexivity].
    apply (Hvalues own Hin), point_value_truth in E. congruence. }
  destruct Hkinds as [->| ->].
  - left. split; [reflexivity|]. rewrite andb_true_r in H2.
    destruct (has_key _ "compression-time" || _) eqn:E2; [discriminate|].
    apply orb_false_iff in E2 as [Ec Ed].
    split; [apply lookup_delete_eq|].
    intros dp Hdp. apply list_elem_of_fmap in Hdp as (own & -> & Hin).
    rewrite !apply_common_properties_lookup, !lookup_insert_ne by discriminate.
    rewrite (Hkey _ Ec) by discriminate. split; [now apply Hown|].
    destruct (common !! "volume-history") as [v|] eqn:E.
    { exfalso. assert (Hin' : "volume-history" ∈ "composition" :: common_scalar_fields)
        by (apply Hkeys; now rewrite E).
      revert Hin'. now apply not_among. }
    destruct (own !! "volume-history") as [v|] eqn:E'; [|reflexivity]. exfalso.
    clear - Hdps Hk Hin E'. unfold get_datapoints in Hdps.
    destruct (findall root "dataGroup") as [|g rest]; [discriminate|].
    bind_ok Hdps as [unit_id property_id] Hids.
    destruct (bool_decide _); [discriminate|].
    bind_ok Hdps as points Hpoints.
    apply read_datapoints_shape in Hpoints as [_ Hall];
      [|apply (read_datagroup_properties_names _ _ _ _ _
                 ltac:(intros k n Hk'; now rewrite lookup_empty in Hk') Hids)].
    destruct (length points =? 0)%nat; [discriminate|].
    destruct (length (g :: rest) =? 2)%nat.
    + bind_ok Hdps as kind Hkind. bind_ok Hdps as a1 Ha1.
      rewrite Hk in Hkind. injection Hkind as <-. discriminate.
    + destruct (2 <? _)%nat; [discriminate|]. injection Hdps as <-.
      rewrite Forall_forall in Hall. apply (Hall own Hin) in E' as [E' _].
      revert E'. now apply not_among.
  - right. split; [reflexivity|]. rewrite andb_true_r in H3.
    destruct (has_key _ "pressure-rise" || _) eqn:E3; [discriminate|].
    apply orb_false_iff in E3 as [Ec Ed].
    split; [rewrite lookup_delete_ne, lookup_insert_ne by discriminate;
            now apply Hkey|].
    intros dp Hdp. apply list_elem_of_fmap in Hdp as (own & -> & Hin).
    rewrite !apply_common_properties_lookup, !lookup_insert_ne by discriminate.
    rewrite (Hkey _ Ec) by discriminate. now apply Hown.
Qed.

(** The source of [overlapping_document] is for a shock tube. *)
Lemma apparatus_exclusivity_witness :
  (apparatus_kind
     (imported (read_ReSpecTh sample_services "0.1" overlapping_document "st.xml" "" ""))
   = "shock tube" /\
   common_properties
     (imported (read_ReSpecTh sample_services "0.1" overlapping_document "st.xml" "" ""))
     !! "compression-time" = None /\
   forall dp,
     dp ∈ datapoints
            (imported (read_ReSpecTh sample_services "0.1" overlapping_document
                         "st.xml" "" "")) ->
     dp !! "compression-time" = None /\ dp !! "volume-history" = None) \/
  (apparatus_kind
     (imported (read_ReSpecTh sample_services "0.1" overlapping_document "st.xml" "" ""))
   = "rapid compression machine" /\
   common_properties
     (imported (read_ReSpecTh sample_services "0.1" overlapping_document "st.xml" "" ""))
     !! "pressure-rise" = None /\
   forall dp,
     dp ∈ datapoints
            (imported (read_ReSpecTh sample_services "0.1" overlapping_document
                         "st.xml" "" "")) ->
     dp !! "pressure-rise" = None).
Proof.
  apply (apparatus_exclusivity sample_services "0.1" overlapping_document
           "st.xml" "" "").
  vm_compute. reflexivity.
Defined.

(** ** Exceptions of the importer *)

Lemma mbind_raise {A B : Type} (r : result A) (k : A -> result B) (e : exn) :
  r ≫= k = Raise e -> r = Raise e \/ exists a, r = Ok a /\ k a = Raise e.
Proof.
  destruct r as [a|e']; intros H; [right; now exists a|left].
  now injection H as ->.
Qed.

Lemma not_keyword_not_history (e : exn) :
  is_keyword_error e = false -> not_history_error e.
Proof. intros H. split; intros ->; discriminate. Qed.

Lemma of_option_raises {A : Type} (o : option A) (e0 e : exn) :
  of_option o e0 = Raise e -> e = e0.
Proof. destruct o; [discriminate|]. now intros [= <-]. Qed.

Lemma getitem_raises {V : Type} (d : gmap string V) (k : string) (e : exn) :
  getitem d k = Raise e -> is_keyword_error e = false.
Proof. unfold getitem. intros H. now apply of_option_raises in H as ->. Qed.

Lemma text_of_raises (x : option Element) (e : exn) :
  text_of x = Raise e -> is_keyword_error e = false.
Proof. destruct x; [discriminate|]. now intros [= <-]. Qed.

Lemma attrib_of_raises (x : option Element) (e : exn) :
  attrib_of x = Raise e -> is_keyword_error e = false.
Proof. destruct x; [discriminate|]. now intros [= <-]. Qed.

Lemma str_of_text_raises (t : option string) (e : exn) :
  str_of_text t = Raise e -> is_keyword_error e = false.
Proof. unfold str_of_text. intros H. now apply of_option_raises in H as ->. Qed.

Lemma float_of_string_raises (s : string) (e : exn) :
  float_of_string s = Raise e -> is_keyword_error e = false.
Proof.
  unfold float_of_string.
  destruct (read_sign (strip s)) as [neg s1].
  destruct (read_digits s1 0 0) as [[ip n_int] s2].
  destruct (match s2 with String "." s' => read_digits s' 0 0 | _ => (0%Z, 0%nat, s2) end)
    as [[fp n_frac] s3].
  destruct (0 <? n_int + n_frac)%nat; [|now intros [= <-]].
  destruct (read_exponent s3) as [[x [|? ?]]|]; try discriminate; now intros [= <-].
Qed.

Lemma float_of_text_raises (t : option string) (e : exn) :
  float_of_text t = Raise e -> is_keyword_error e = false.
Proof.
  destruct t; [apply float_of_string_raises|]. now intros [= <-].
Qed.

Lemma int_of_string_raises (s : string) (e : exn) :
  int_of_string s = Raise e -> is_keyword_error e = false.
Proof.
  unfold int_of_string.
  destruct (read_sign (strip s)) as [neg s1].
  destruct (read_digits s1 0 0) as [[v n] rest].
  destruct (_ && _); [discriminate|]. now intros [= <-].
Qed.

Lemma py_index_raises {A : Type} (l : list A) (i : nat) (e : exn) :
  py_index l i = Raise e -> is_keyword_error e = false.
Proof. unfold py_index. intros H. now apply of_option_raises in H as ->. Qed.

Lemma py_setitem_raises {A : Type} (l : list A) (i : nat) (x : A) (e : exn) :
  py_setitem l i x = Raise e -> is_keyword_error e = false.
Proof. unfold py_setitem. destruct (_ <? _)%nat; [discriminate|]. now intros [= <-]. Qed.

Lemma units_raises (s : string) (e : exn) :
  units s = Raise e -> is_keyword_error e = false.
Proof. unfold units. destruct (lookup_unit _); [discriminate|]. now intros [= <-]. Qed.

Lemma last_char_is_raises (c : ascii) (s : string) (e : exn) :
  last_char_is c s = Raise e -> is_keyword_error e = false.
Proof. unfold last_char_is. destruct (rev _); [|discriminate]. now intros [= <-]. Qed.

Lemma py_assert_raises (b : bool) (msg : string) (e : exn) :
  py_assert b msg = Raise e -> is_keyword_error e = false.
Proof. unfold py_assert. destruct b; [discriminate|]. now intros [= <-]. Qed.

Create HintDb raises.
#[local] Hint Resolve getitem_raises text_of_raises attrib_of_raises
  str_of_text_raises float_of_string_raises float_of_text_raises
  int_of_string_raises py_index_raises py_setitem_raises units_raises
  last_char_is_raises py_assert_raises not_keyword_not_history : raises.

(** One step through a chain of binds that ends in an exception: either the
    first computation raised it, which the hints settle, or the chain goes
    on after its value. *)
Tactic Notation "bind_raise" hyp(H) "as" simple_intropattern(a) ident(Ha) :=
  apply mbind_raise in H as [H|(a & Ha & H)]; [solve [eauto with raises]|].

Lemma list_ascii_of_string_app (s t : string) :
  list_ascii_of_string (s +:+ t) = list_ascii_of_string s ++ list_ascii_of_string t.
Proof.
  induction s as [|c s IH]; [reflexivity|].
  change (String c s +:+ t) with (String c (s +:+ t)).
  cbn [list_ascii_of_string]. now rewrite IH.
Qed.

Lemma last_char_is_app (c : ascii) (s t : string) :
  t <> "" -> last_char_is c (s +:+ t) = last_char_is c t.
Proof.
  intros Ht. unfold last_char_is. rewrite list_ascii_of_string_app, rev_app_distr.
  destruct (rev (list_ascii_of_string t)) as [|d l] eqn:E; [|reflexivity].
  exfalso. apply Ht. apply (f_equal (@rev ascii)) in E.
  rewrite rev_involutive in E. cbn in E. now destruct t.
Qed.

Lemma suffix_differs (c : ascii) (x t m : string) :
  t <> "" -> last_char_is c t <> last_char_is c m -> x +:+ t <> m.
Proof. intros Ht Hne <-. now rewrite last_char_is_app in Hne. Qed.

Ltac literal_differs :=
  unfold not_history_error, time_needed_message, volume_and_rise_message;
  split; (discriminate || (cbn [append]; discriminate)).

Ltac raise_done H :=
  cbv beta iota in H;
  first [ discriminate H
        | solve [eauto with raises]
        | injection H as <-; first [solve [eauto with raises] | literal_differs] ].

Lemma get_file_metadata_raises (root : Element) (e : exn) :
  get_file_metadata root = Raise e -> not_history_error e.
Proof.
  unfold get_file_metadata. intros H.
  apply mbind_raise in H as [H|(name & Hname & H)].
  - unfold try_except in H. destruct (text_of _) as [t|e'] eqn:Ht; [discriminate|].
    apply text_of_raises in Ht. destruct e'; try discriminate Ht; raise_done H.
  - destruct name as [[|? ?]|]; raise_done H.
Qed.

Lemma get_reference_raises (srv : services) (root : Element) (e : exn) :
  get_reference srv root = Raise e -> not_history_error e.
Proof.
  unfold get_reference. intros H.
  destruct (find root "bibliographyLink") as [elem|]; [|raise_done H].
  destruct (match attrib elem !! "doi" with
            | Some doi => reference_from_doi srv doi
            | None => (empty_reference, Raise (KeyError "doi"))
            end) as [r [u|e']] eqn:E; [discriminate|].
  destruct (is_KeyError e') eqn:Ekey.
  - destruct (attrib elem !! "preferredKey"); [|raise_done H].
    bind_raise H as dotted Hdotted. discriminate.
  - injection H as <-. apply not_keyword_not_history.
    destruct (attrib elem !! "doi") as [doi|]; [|now injection E as _ <-].
    unfold reference_from_doi in E.
    destruct (crossref_works srv doi) as [ref| |]; try (now injection E as _ <-).
    destruct (py_index (container_title ref) 0) as [journal|e0] eqn:E0;
      [|injection E as _ <-; eauto with raises].
    destruct (of_option _ TypeError) as [year|e1] eqn:E1;
      [|injection E as _ <-; now apply of_option_raises in E1 as ->].
    destruct (_ ≫= _) as [volume|e2] eqn:E2 in E.
    + destruct (cr_author ref); [discriminate|now injection E as _ <-].
    + injection E as _ <-.
      apply mbind_raise in E2 as [E2|(v & Hv & E2)]; [|eauto with raises].
      now apply of_option_raises in E2 as ->.
Qed.

Lemma get_experiment_kind_raises (root : Element) (e : exn) :
  get_experiment_kind root = Raise e -> not_history_error e.
Proof.
  unfold get_experiment_kind. intros H.
  bind_raise H as t Ht. destruct (bool_decide _).
  - apply mbind_raise in H as [H|(kind & Hkind & H)].
    + unfold try_except in H.
      destruct (text_of (find2 root "apparatus" "kind")); raise_done H.
    + destruct (_ || _); bind_raise H as k Hk; raise_done H.
  - bind_raise H as t' Ht'. raise_done H.
Qed.

Lemma read_component_raises (acc : list SpeciesEntry * option string)
    (child : Element) (e : exn) :
  read_component acc child = Raise e -> not_history_error e.
Proof.
  unfold read_component. destruct acc as [species ct]. intros H.
  bind_raise H as link Hlink. bind_raise H as name Hname.
  bind_raise H as amount_text Htext. bind_raise H as x Hx.
  bind_raise H as a Ha.
  destruct ct as [[|c t]|]; bind_raise H as u Hu; try raise_done H.
  destruct (negb _); raise_done H.
Qed.

Lemma read_components_raises (l : list Element)
    (acc : list SpeciesEntry * option string) (e : exn) :
  read_components acc l = Raise e -> not_history_error e.
Proof.
  revert acc. induction l as [|child l IH]; intros acc H; [discriminate|].
  cbn [read_components] in H.
  apply mbind_raise in H as [H|(acc' & Hacc & H)];
    [now apply read_component_raises in H|now apply IH in H].
Qed.

Lemma read_composition_raises (elem : Element) (e : exn) :
  read_composition elem = Raise e -> not_history_error e.
Proof.
  unfold read_composition. intros H.
  apply mbind_raise in H as [H|([species ct] & Hread & H)];
    [now apply read_components_raises in H|].
  destruct ct as [t|]; [destruct (_ || _)|]; raise_done H.
Qed.

Lemma read_common_scalar_raises (name : string) (elem : Element) (e : exn) :
  read_common_scalar name elem = Raise e -> not_history_error e.
Proof.
  unfold read_common_scalar. intros H.
  bind_raise H as u Hu. bind_raise H as one Hone. bind_raise H as target Htarget.
  apply mbind_raise in H as [H|(conv & Hconv & H)].
  - unfold try_except in H. destruct (to _ _) as [c|e'] eqn:Hto; [discriminate|].
    unfold to in Hto.
    apply mbind_raise in Hto as [Hto|(t & Ht & Hto)].
    { apply units_raises in Hto. destruct e'; try discriminate; raise_done H. }
    apply mbind_raise in Hto as [Hto|(m & Hm & Hto)]; [|discriminate].
    unfold magnitude_in in Hto. destruct (dim_eqb _ _); [discriminate|].
    injection Hto as <-. raise_done H.
  - bind_raise H as vt Hvt. bind_raise H as value Hvalue. discriminate.
Qed.

Lemma read_common_properties_raises (l : list Element)
    (properties : gmap string pval) (e : exn) :
  read_common_properties properties l = Raise e -> not_history_error e.
Proof.
  revert properties. induction l as [|elem l IH]; intros properties H;
    [discriminate|].
  cbn [read_common_properties] in H. bind_raise H as name Hname.
  destruct (String.eqb name "initial composition").
  - apply mbind_raise in H as [H|(c & Hc & H)];
      [now apply read_composition_raises in H|now apply IH in H].
  - destruct (bool_decide _); [|raise_done H].
    apply mbind_raise in H as [H|([field v] & Hfv & H)];
      [now apply read_common_scalar_raises in H|now apply IH in H].
Qed.

Lemma get_ignition_type_raises (root : Element) (e : exn) :
  get_ignition_type root = Raise e -> not_history_error e.
Proof.
  unfold get_ignition_type. intros H.
  destruct (find root "ignitionType") as [elem|]; [|raise_done H].
  apply mbind_raise in H as [H|(target & Htarget & H)];
    [apply of_option_raises in H as ->; literal_differs|].
  apply mbind_raise in H as [H|(type & Htype & H)];
    [apply of_option_raises in H as ->; literal_differs|].
  destruct (1 <? _)%nat; [raise_done H|].
  destruct (negb _).
  { injection H as <-. split; intros [= E]; revert E;
      apply (suffix_differs "t"); discriminate. }
  destruct (negb _); [|discriminate].
  injection H as <-. split; intros [= E]; revert E;
    apply (suffix_differs "e"); discriminate.
Qed.

Lemma read_datagroup_properties_raises (l : list Element)
    (ids : gmap string string * gmap string string) (e : exn) :
  read_datagroup_properties ids l = Raise e -> not_history_error e.
Proof.
  revert ids. induction l as [|prop l IH]; intros [unit_id property_id] H;
    [discriminate|].
  cbn [read_datagroup_properties] in H.
  bind_raise H as u Hu. bind_raise H as id Hid. bind_raise H as name Hname.
  destruct (negb _); [raise_done H|now apply IH in H].
Qed.

Lemma read_datapoint_raises (unit_id property_id : gmap string string)
    (l : list Element) (datapoint : gmap string pval) (e : exn) :
  read_datapoint unit_id property_id datapoint l = Raise e -> not_history_error e.
Proof.
  revert datapoint. induction l as [|val l IH]; intros datapoint H; [discriminate|].
  cbn [read_datapoint] in H.
  bind_raise H as u Hu. bind_raise H as name Hname. bind_raise H as t Ht.
  now apply IH in H.
Qed.

Lemma read_datapoints_raises (unit_id property_id : gmap string string)
    (l : list Element) (e : exn) :
  read_datapoints unit_id property_id l = Raise e -> not_history_error e.
Proof.
  induction l as [|dp l IH]; intros H; [discriminate|].
  cbn [read_datapoints] in H.
  apply mbind_raise in H as [H|(own & Hown & H)];
    [now apply read_datapoint_raises in H|].
  apply mbind_raise in H as [H|(others & Hothers & H)]; [now apply IH|discriminate].
Qed.

Lemma read_history_columns_raises (l : list Element)
    (cols : option (ColumnDict * string) * option (ColumnDict * string)) (e : exn) :
  read_history_columns cols l = Raise e -> not_history_error e.
Proof.
  revert cols. induction l as [|prop l IH]; intros cols H; [discriminate|].
  cbn [read_history_columns] in H. bind_raise H as name Hname.
  destruct (String.eqb name "time");
    [|destruct (String.eqb name "volume")];
    try (bind_raise H as u Hu; bind_raise H as id Hid);
    now apply IH in H.
Qed.

Lemma read_history_row_raises (time_tag volume_tag : string) (l : list Element)
    (row : option Q * option Q) (e : exn) :
  read_history_row time_tag volume_tag row l = Raise e -> not_history_error e.
Proof.
  revert row. induction l as [|val l IH]; intros row H; [discriminate|].
  cbn [read_history_row] in H.
  destruct (String.eqb (tag val) time_tag);
    [|destruct (String.eqb (tag val) volume_tag)];
    try (bind_raise H as x Hx);
    now apply IH in H.
Qed.

Lemma read_history_rows_raises (time_tag volume_tag : string) (l : list Element)
    (e : exn) :
  read_history_rows time_tag volume_tag l = Raise e -> not_history_error e.
Proof.
  induction l as [|dp l IH]; intros H; [discriminate|].
  cbn [read_history_rows] in H.
  apply mbind_raise in H as [H|(row & Hrow & H)];
    [now apply read_history_row_raises in H|].
  apply mbind_raise in H as [H|(others & Hothers & H)]; [now apply IH|discriminate].
Qed.

Lemma get_datapoints_raises (root : Element) (e : exn) :
  get_datapoints root = Raise e -> not_history_error e.
Proof.
  unfold get_datapoints. intros H.
  destruct (findall root "dataGroup") as [|g rest]; [raise_done H|].
  apply mbind_raise in H as [H|([unit_id property_id] & Hids & H)];
    [now apply read_datagroup_properties_raises in H|].
  destruct (bool_decide _); [raise_done H|].
  apply mbind_raise in H as [H|(points & Hpoints & H)];
    [now apply read_datapoints_raises in H|].
  destruct (length points =? 0)%nat; [raise_done H|].
  destruct (length (g :: rest) =? 2)%nat.
  - bind_raise H as kind Hkind. bind_raise H as a1 Ha1. bind_raise H as a2 Ha2.
    bind_raise H as h Hh.
    apply mbind_raise in H as [H|(cols & Hcols & H)];
      [now apply read_history_columns_raises in H|].
    apply mbind_raise in H as [H|([time_dict time_tag] & Htime & H)];
      [apply of_option_raises in H as ->; literal_differs|].
    apply mbind_raise in H as [H|([volume_dict volume_tag] & Hvolume & H)];
      [apply of_option_raises in H as ->; literal_differs|].
    apply mbind_raise in H as [H|(values & Hvalues & H)];
      [now apply read_history_rows_raises in H|].
    bind_raise H as first Hfirst. eauto with raises.
  - destruct (2 <? _)%nat; raise_done H.
Qed.

Lemma common_has_no_volume (root : Element) (common : gmap string pval)
    (ign : IgnitionType) :
  get_common_properties root = Ok common ->
  has_key (<["ignition-type" := PIgnitionType ign]> common) "volume" = false.
Proof.
  intros H. unfold has_key. apply bool_decide_eq_false.
  rewrite lookup_insert_ne by discriminate. intros Hsome.
  apply (common_keys root) in Hsome; [|exact H].
  revert Hsome. now apply not_among.
Qed.

Lemma points_have_no_volume (root : Element) (dps : list (gmap string pval)) :
  get_datapoints root = Ok dps ->
  existsb (fun dp => has_key dp "volume") dps = false /\
  existsb (fun dp => get_truth dp "volume") dps = false.
Proof.
  intros H. apply get_datapoints_values in H.
  assert (Hnone : Forall (fun dp : gmap string pval => dp !! "volume" = None) dps).
  { eapply Forall_impl; [exact H|]. intros dp Hdp.
    destruct (dp !! "volume") as [v|] eqn:E; [|reflexivity].
    apply Hdp, point_value_key in E. exfalso. revert E. now apply not_among. }
  clear H. induction Hnone as [|dp dps Hdp _ [IH1 IH2]]; [now split|].
  cbn [existsb]. unfold has_key at 1, get_truth at 1. rewrite Hdp, IH1, IH2.
  split; [|reflexivity]. rewrite orb_false_r. apply bool_decide_eq_false.
  now intros [? ?].
Qed.

(** X20: the conversion never raises the error of either check on a volume
    given as a property: no common property and no value of a row can be a
    volume. *)
Theorem history_checks_never_fire (srv : services) (version : string)
    (root : Element) (basename file_author file_author_orcid : string) :
  read_ReSpecTh srv version root basename file_author file_author_orcid
  <> Raise (KeywordError time_needed_message) /\
  read_ReSpecTh srv version root basename file_author file_author_orcid
  <> Raise (KeywordError volume_and_rise_message).
Proof.
  assert (Hall : forall e,
             read_ReSpecTh srv version root basename file_author file_author_orcid
             = Raise e -> not_history_error e).
  { intros e H. unfold read_ReSpecTh in H.
    apply mbind_raise in H as [H|(author_name & Hauthor & H)];
      [now apply get_file_metadata_raises in H|].
    apply mbind_raise in H as [H|(ref & Href & H)];
      [now apply get_reference_raises in H|].
    apply mbind_raise in H as [H|(ek & Hek & H)];
      [now apply get_experiment_kind_raises in H|].
    apply mbind_raise in H as [H|(common & Hcommon & H)];
      [now apply read_common_properties_raises in H|].
    apply mbind_raise in H as [H|(ign & Hign & H)];
      [now apply get_ignition_type_raises in H|].
    apply mbind_raise in H as [H|(dps & Hdps & H)];
      [now apply get_datapoints_raises in H|].
    rewrite (common_has_no_volume root common ign Hcommon) in H.
    destruct (points_have_no_volume root dps Hdps) as [Hk Ht].
    rewrite Hk, Ht in H. cbn [andb orb] in H. rewrite andb_false_r in H.
    rewrite mbind_Ok in H.
    apply mbind_raise in H as [H|(u2 & _ & H)];
      [destruct (_ && _); raise_done H|].
    apply mbind_raise in H as [H|(u3 & _ & H)];
      [destruct (_ && _); raise_done H|].
    discriminate. }
  split; intros H; apply Hall in H as [H1 H2]; congruence.
Qed.

(** ** File metadata and reference of the converted record *)

Lemma get_reference_detail (srv : services) (root : Element) (r : Reference) :
  get_reference srv root = Ok r ->
  r_detail r = None \/
  exists d, r_detail r = Some d /\ last_char_is "." d = Ok true.
Proof.
  unfold get_reference. intros H.
  destruct (find root "bibliographyLink") as [elem|]; [|discriminate].
  destruct (match attrib elem !! "doi" with
            | Some doi => reference_from_doi srv doi
            | None => (empty_reference, Raise (KeyError "doi"))
            end) as [r0 [u|e]] eqn:E.
  - injection H as <-. left.
    destruct (attrib elem !! "doi") as [doi|]; [|discriminate].
    unfold reference_from_doi in E.
    destruct (crossref_works srv doi) as [ref| |]; try discriminate.
    destruct (py_index _ 0); [|discriminate].
    destruct (of_option _ TypeError); [|discriminate].
    destruct (_ ≫= _) in E; [|discriminate].
    destruct (cr_author ref); [|discriminate]. now injection E as <-.
  - destruct (is_KeyError e); [|discriminate].
    destruct (attrib elem !! "preferredKey") as [key|]; [|discriminate].
    bind_ok H as dotted Hdotted. injection H as <-. right. cbn [r_detail].
    eexists. split; [reflexivity|].
    destruct dotted; [exact Hdotted|apply last_char_is_snoc].
Qed.

Lemma get_file_metadata_name (root : Element) (name : option string) :
  get_file_metadata root = Ok name ->
  name <> Some "" /\ text_of (find root "fileAuthor") = Ok name.
Proof.
  unfold get_file_metadata, try_except. intros H.
  destruct (text_of (find root "fileAuthor")) as [t|e];
    [|destruct e; discriminate].
  rewrite mbind_Ok in H. destruct t as [[|c t]|]; try discriminate;
    injection H as <-; split; (discriminate || reflexivity).
Qed.

(** X21: a converted record has file version 0, the given schema version
    and the experiment type ignition delay; its file author is the override
    if one is given and the text of [fileAuthor] otherwise, never the empty
    text; it has an ORCID exactly when one is given; and its reference
    always has a detail, which ends with the name of the source file after
    nothing or after a text closed by a period. *)
Theorem converted_record_metadata (srv : services) (version : string)
    (root : Element) (basename file_author file_author_orcid : string)
    (p : Properties) :
  read_ReSpecTh srv version root basename file_author file_author_orcid = Ok p ->
  file_version p = 0%Z /\ chemked_version p = version /\
  experiment_type p = "ignition delay" /\
  file_author_name p <> Some "" /\
  (file_author <> "" -> file_author_name p = Some file_author) /\
  (file_author = "" -> text_of (find root "fileAuthor") = Ok (file_author_name p)) /\
  file_author_ORCID p
  = (if nonempty file_author_orcid then Some file_author_orcid else None) /\
  exists d,
    r_detail (reference p) = Some (d +:+ "Converted from XML file " +:+ basename) /\
    (d = "" \/ last_char_is "." d = Ok true).
Proof.
  unfold read_ReSpecTh. intros H.
  bind_ok H as author_name Hauthor. bind_ok H as ref Href.
  bind_ok H as ek Hek. bind_ok H as common Hcommon.
  bind_ok H as ign Hign. bind_ok H as dps Hdps.
  bind_ok H as u1 H1. bind_ok H as u2 H2. bind_ok H as u3 H3.
  bind_ok H as u4 H4. injection H as <-.
  cbn [file_version chemked_version experiment_type file_author_name
       file_author_ORCID reference r_detail].
  apply get_experiment_kind_inv in Hek as (k & _ & _ & ->).
  apply get_file_metadata_name in Hauthor as [Hne Htext].
  apply get_reference_detail in Href.
  split; [reflexivity|]. split; [reflexivity|]. split; [reflexivity|].
  split; [destruct file_author; [exact Hne|discriminate]|].
  split; [destruct file_author; [contradiction|reflexivity]|].
  split; [now intros ->|]. split; [reflexivity|].
  destruct Href as [->|(d & -> & Hd)].
  - exists "". split; [reflexivity|now left].
  - exists d. split; [reflexivity|now right].
Qed.

(** The record read from [detail_only_document] under another author. *)
Lemma converted_record_metadata_witness :
  file_author_name
    (imported (read_ReSpecTh sample_services "0.1" detail_only_document "st.xml"
                 "Chih-Jen Sung" ""))
  = Some "Chih-Jen Sung" /\
  exists d,
    r_detail
      (reference
         (imported (read_ReSpecTh sample_services "0.1" detail_only_document "st.xml"
                      "Chih-Jen Sung" "")))
    = Some (d +:+ "Converted from XML file " +:+ "st.xml") /\
    (d = "" \/ last_char_is "." d = Ok true).
Proof.
  destruct (converted_record_metadata sample_services "0.1" detail_only_document
              "st.xml" "Chih-Jen Sung" ""
              (imported (read_ReSpecTh sample_services "0.1" detail_only_document
                           "st.xml" "Chih-Jen Sung" "")))
    as (_ & _ & _ & _ & Hname & _ & _ & Hdetail).
  - vm_compute. reflexivity.
  - split; [apply Hname; discriminate|exact Hdetail].
Defined.

(** ** The broadcast, as an operation on dictionaries *)

(** X22: applying the common properties twice is applying them once,
    applying none changes nothing, and the keys of the result are those of
    the common properties and those of the data point. *)
Theorem broadcast_idempotent (common datapoint : gmap string pval) :
  apply_common_properties common (apply_common_properties common datapoint)
  = apply_common_properties common datapoint /\
  apply_common_properties ∅ datapoint = datapoint /\
  dom (apply_common_properties common datapoint) = dom common ∪ dom datapoint.
Proof.
  rewrite !apply_common_properties_union. split; [|split].
  - now rewrite (assoc_L (∪)), (idemp_L (∪)).
  - now rewrite (left_id_L ∅ (∪)).
  - now rewrite dom_union_L.
Qed.

(** ** What the export needs from the record *)

Lemma export_header_ok (c : ChemKED) (header : list Element) :
  export_header c = Ok header ->
  c_experiment_type c = "ignition delay" /\ citable (c_reference c).
Proof.
  unfold export_header, citation_of. intros H.
  bind_ok H as exp Hexp. bind_ok H as citation Hcit. bind_ok H as doi Hdoi.
  bind_ok Hcit as authors Hauthors. bind_ok Hcit as journal Hjournal.
  bind_ok Hcit as pages Hpages. bind_ok Hcit as detail Hdetail.
  destruct (String.eqb_spec (c_experiment_type c) "ignition delay") as [Heq|];
    [|discriminate].
  split; [exact Heq|]. unfold citable.
  destruct (r_authors _), (r_journal _), (r_pages _), (r_detail _), (r_doi _);
    try discriminate.
  repeat split; eauto.
Qed.

(** X23: the export raises [NotImplementedError] for an experiment type
    other than ignition delay, and otherwise [TypeError] when the reference
    lacks its authors, journal, pages, detail or DOI; so an exported record
    has all of these. *)
Theorem export_needs_full_reference (c : ChemKED) :
  (c_experiment_type c <> "ignition delay" ->
   export_ReSpecTh c
   = Raise (NotImplementedError "Only ignition delay type supported for conversion.")) /\
  (c_experiment_type c = "ignition delay" -> ~ citable (c_reference c) ->
   export_ReSpecTh c = Raise TypeError) /\
  (forall doc, export_ReSpecTh c = Ok doc ->
     c_experiment_type c = "ignition delay" /\ citable (c_reference c)).
Proof.
  split; [|split].
  - intros Hne. unfold export_ReSpecTh, export_header.
    destruct (String.eqb_spec (c_experiment_type c) "ignition delay");
      [contradiction|reflexivity].
  - intros Heq Hnot. unfold export_ReSpecTh, export_header, citation_of.
    rewrite Heq. cbn [String.eqb Ascii.eqb Bool.eqb]. rewrite mbind_Ok.
    unfold citable in Hnot.
    destruct (r_authors _) as [authors|]; [|reflexivity].
    destruct (r_journal _) as [journal|]; [|reflexivity].
    destruct (r_pages _) as [pages|]; [|reflexivity].
    destruct (r_detail _) as [detail|]; [|reflexivity].
    destruct (r_doi _) as [doi|]; [|reflexivity].
    exfalso. apply Hnot. repeat split; eauto.
  - intros doc H. unfold export_ReSpecTh in H. bind_ok H as header Hheader.
    now apply (export_header_ok c header).
Qed.

(** X24: a source for which Crossref has no record to give is converted to
    a record that cannot be converted back: its export raises
    [TypeError]. *)
Theorem unresolved_source_not_exportable (srv : services)
    (version basename file_author file_author_orcid : string)
    (root elem : Element) (p : Properties) :
  find root "bibliographyLink" = Some elem ->
  unresolved srv elem = true ->
  convert_ReSpecTh srv version root basename file_author file_author_orcid = Ok p ->
  convert_to_ReSpecTh p = Raise TypeError.
Proof.
  intros Hfind Hun H. unfold convert_ReSpecTh in H.
  bind_ok H as p' Hread. bind_ok H as c Hc. injection H as ->.
  unfold convert_to_ReSpecTh. rewrite Hc, mbind_Ok.
  unfold ChemKED_init in Hc. bind_ok Hc as dps Hdps. injection Hc as <-.
  unfold read_ReSpecTh in Hread.
  bind_ok Hread as author_name Hauthor. bind_ok Hread as ref Href.
  bind_ok Hread as ek Hek. bind_ok Hread as common Hcommon.
  bind_ok Hread as ign Hign. bind_ok Hread as points Hpoints.
  bind_ok Hread as u1 H1. bind_ok Hread as u2 H2. bind_ok Hread as u3 H3.
  bind_ok Hread as u4 H4. injection Hread as <-.
  cbn [file_author_name file_version experiment_type reference apparatus_kind].
  apply get_experiment_kind_inv in Hek as (k & _ & _ & ->).
  rewrite (get_reference_unresolved srv root elem Hfind Hun) in Href.
  unfold fallback_reference in Href.
  destruct (attrib elem !! "preferredKey") as [key|]; [|discriminate].
  bind_ok Href as dotted Hdotted. injection Href as <-.
  reflexivity.
Qed.

(** The source without a [doi] attribute. *)
Lemma unresolved_source_not_exportable_witness :
  convert_to_ReSpecTh
    (imported (convert_ReSpecTh sample_services "0.1" detail_only_document
                 "st.xml" "" ""))
  = Raise TypeError.
Proof.
  apply (unresolved_source_not_exportable sample_services "0.1" "st.xml" "" ""
           detail_only_document
           (element "bibliographyLink" [("preferredKey", "Niemeyer 2016")] None [])).
  - reflexivity.
  - reflexivity.
  - vm_compute. reflexivity.
Defined.

(** ** The common properties of a single data point *)

(** X25: for a record with a single data point the composition is the one
    common property: the [commonProperties] element holds the initial
    composition, one component per species, and nothing else, whatever the
    data point's temperature, pressure, ignition delay and pressure rise. *)
Theorem single_point_common (c : ChemKED) (dp : DataPoint) :
  c_datapoints c = [dp] ->
  export_common c
  = Ok (["composition"],
        element "commonProperties" [] None
          [element "property" [("name", "initial composition")] None
             (component_of (composition_type dp) <$> composition dp)]).
Proof.
  intros Hdps. unfold export_common. rewrite Hdps.
  cbn [py_index lookup list_lookup of_option length Nat.ltb Nat.leb].
  rewrite mbind_Ok. cbn [forallb]. rewrite composition_eqb_refl. reflexivity.
Qed.

(** The single data point of [single_history_record]. *)
Lemma single_point_common_witness :
  fst <$> export_common single_history_record = Ok ["composition"].
Proof.
  rewrite (single_point_common single_history_record
             (sample_point 800 100 (Some sample_history)) eq_refl).
  reflexivity.
Defined.

(** ** The columns of the data group *)

Lemma declare_columns_ids (dps : list DataPoint) (common names : list string)
    (pidx pidx' : list (string * string)) (props : list Element) :
  declare_columns dps common pidx names = Ok (pidx', props) ->
  exists added,
    pidx' = pidx ++ added /\
    fst <$> added = column_id <$> seq (length pidx + 1) (length added) /\
    (fun e => attrib e !! "id") <$> props = Some <$> (fst <$> added) /\
    Forall (fun e => tag e = "property") props.
Proof.
  revert pidx pidx' props. induction names as [|name names IH];
    intros pidx pidx' props H.
  - cbn in H. injection H as <- <-. exists []. rewrite app_nil_r. now repeat split.
  - cbn [declare_columns] in H. bind_ok H as values Hvalues.
    destruct (_ && _).
    + bind_ok H as first Hfirst. bind_ok H as x Hx. bind_ok H as q Hq.
      bind_ok H as label Hlabel. bind_ok H as [pidx1 props1] Hrest.
      injection H as <- <-.
      apply IH in Hrest as (added & -> & Hids & Hattr & Htags).
      rewrite length_app in Hids. cbn [length] in Hids.
      exists ((column_id (length pidx + 1), name) :: added).
      split; [now rewrite <- app_assoc|]. split; [|split].
      * cbn [fmap list_fmap length seq]. f_equal.
        rewrite Hids. do 2 f_equal. lia.
      * cbn [fmap list_fmap]. apply (f_equal2 cons); [|exact Hattr].
        generalize (column_id (length pidx + 1)), (str_units q). intros i u.
        vm_compute. reflexivity.
      * constructor; [reflexivity|exact Htags].
    + now apply IH in H.
Qed.

Lemma declare_species_ids (composition_type : string) (l : list Species)
    (pidx pidx' : list (string * string)) (props : list Element) :
  declare_species composition_type pidx l = (pidx', props) ->
  exists added,
    pidx' = pidx ++ added /\
    fst <$> added = column_id <$> seq (length pidx + 1) (length added) /\
    snd <$> added = sp_name <$> l /\
    (fun e => attrib e !! "id") <$> props = Some <$> (fst <$> added) /\
    Forall (fun e => tag e = "property") props.
Proof.
  revert pidx pidx' props. induction l as [|sp l IH]; intros pidx pidx' props H.
  - cbn in H. injection H as <- <-. exists []. rewrite app_nil_r. now repeat split.
  - cbn [declare_species] in H.
    destruct (declare_species composition_type _ l) as [pidx1 props1] eqn:Hrest.
    injection H as <- <-.
    apply IH in Hrest as (added & -> & Hids & Hnames & Hattr & Htags).
    rewrite length_app in Hids. cbn [length] in Hids.
    exists ((column_id (length pidx + 1), sp_name sp) :: added).
    split; [now rewrite <- app_assoc|]. split; [|split; [|split]].
    + cbn [fmap list_fmap length seq]. f_equal.
      rewrite Hids. do 2 f_equal. lia.
    + cbn [fmap list_fmap]. now rewrite Hnames.
    + cbn [fmap list_fmap]. apply (f_equal2 cons); [|exact Hattr].
      generalize (column_id (length pidx + 1)), ("[" +:+ sp_name sp +:+ "]").
      intros i lab. generalize (species_link sp). intros link.
      vm_compute. reflexivity.
    + constructor; [reflexivity|exact Htags].
Qed.

Lemma load_all_shape {A B : Type} (f : A -> result B) (P : A -> B -> Prop)
    (l : list A) (r : list B) :
  (forall a b, f a = Ok b -> P a b) ->
  load_all f l = Ok r -> Forall2 P l r.
Proof.
  intros Hf. revert r. induction l as [|a l IH]; intros r H.
  - cbn in H. injection H as <-. constructor.
  - cbn [load_all] in H. bind_ok H as b Hb. bind_ok H as bs Hbs.
    injection H as <-. constructor; [now apply Hf|now apply IH].
Qed.

Lemma datapoint_row_shape (pidx : list (string * string)) (dp : DataPoint)
    (row : Element) :
  datapoint_row pidx dp = Ok row ->
  tag row = "dataPoint" /\ tag <$> children row = fst <$> pidx.
Proof.
  unfold datapoint_row. intros H. bind_ok H as values Hvalues.
  injection H as <-. split; [reflexivity|]. cbn [children element].
  apply (load_all_shape _ (fun col e => tag e = fst col)) in Hvalues.
  - induction Hvalues as [|col e l r He _ IH]; [reflexivity|].
    cbn [fmap list_fmap]. now rewrite He, IH.
  - intros col e He. bind_ok He as x Hx. bind_ok He as q Hq. now injection He as <-.
Qed.

Lemma filter_tag_all (t : string) (l : list Element) :
  Forall (fun e => tag e = t) l -> List.filter (has_tag t) l = l.
Proof.
  induction 1 as [|e l He _ IH]; [reflexivity|]. cbn [List.filter].
  unfold has_tag at 1. now rewrite He, String.eqb_refl, IH.
Qed.

Lemma filter_tag_none (t u : string) (l : list Element) :
  t <> u -> Forall (fun e => tag e = u) l -> List.filter (has_tag t) l = [].
Proof.
  intros Hne. induction 1 as [|e l He _ IH]; [reflexivity|]. cbn [List.filter].
  unfold has_tag at 1. rewrite He.
  destruct (String.eqb_spec u t); [congruence|exact IH].
Qed.

Lemma column_ids_distinct (n k : nat) : NoDup (column_id <$> seq n k).
Proof.
  apply NoDup_fmap_2_strong; [|apply NoDup_seq].
  intros x y _ _ H. unfold column_id in H.
  apply (f_equal list_ascii_of_string) in H. cbn in H.
  injection H as H. apply (f_equal string_of_list_ascii) in H.
  rewrite !string_of_list_ascii_of_string in H. now apply pretty_nat_inj in H.
Qed.

(** X26: in the first data group of an export the columns are numbered
    x1, x2, ... in the order they are declared, without repetition; the
    [property] elements of the group carry these identifiers in that order;
    the group has one [dataPoint] row per data point; and each row has one
    value per column, tagged with the column's identifier, in the same
    order. *)
Theorem column_ids_consecutive (c : ChemKED) (common : list string)
    (pidx : list (string * string)) (dg : Element) :
  export_datagroup c common = Ok (pidx, dg) ->
  fst <$> pidx = column_id <$> seq 1 (length pidx) /\
  NoDup (fst <$> pidx) /\
  (fun e => attrib e !! "id") <$> findall dg "property" = Some <$> (fst <$> pidx) /\
  length (findall dg "dataPoint") = length (c_datapoints c) /\
  forall row, row ∈ findall dg "dataPoint" -> tag <$> children row = fst <$> pidx.
Proof.
  unfold export_datagroup. intros H.
  bind_ok H as [pidx1 column_props] Hcols. bind_ok H as first Hfirst.
  apply declare_columns_ids in Hcols as (added1 & -> & Hids1 & Hattr1 & Htags1).
  cbn [app length] in Hids1. change ([] ++ added1) with added1 in H.
  destruct (if negb (bool_decide ("composition" ∈ common))
            then declare_species (composition_type first) added1 (composition first)
            else (added1, [])) as [pidx2 species_props] eqn:Hsp.
  bind_ok H as rows Hrows. injection H as <- <-.
  assert (Hspecies : exists added2,
             pidx2 = added1 ++ added2 /\
             fst <$> added2 = column_id <$> seq (length added1 + 1) (length added2) /\
             (fun e => attrib e !! "id") <$> species_props = Some <$> (fst <$> added2) /\
             Forall (fun e => tag e = "property") species_props).
  { destruct (negb _).
    - apply declare_species_ids in Hsp as (added2 & -> & Hids2 & _ & Hattr2 & Htags2).
      now exists added2.
    - injection Hsp as <- <-. exists []. rewrite app_nil_r. now repeat split. }
  destruct Hspecies as (added2 & -> & Hids2 & Hattr2 & Htags2).
  assert (Hall : fst <$> (added1 ++ added2)
                 = column_id <$> seq 1 (length (added1 ++ added2))).
  { rewrite fmap_app, length_app, seq_app, fmap_app, Hids1, Hids2.
    do 3 f_equal. lia. }
  apply (load_all_shape _ (fun dp row => tag row = "dataPoint" /\
                                         tag <$> children row
                                         = fst <$> (added1 ++ added2))) in Hrows;
    [|intros dp row; apply datapoint_row_shape].
  assert (Hrowtags : Forall (fun e => tag e = "dataPoint") rows).
  { clear - Hrows. induction Hrows as [|dp row l r [Hr _] _ IH]; constructor; auto. }
  assert (Hprops : findall
                     (element "dataGroup" [("id", "dg1")] None
                        (datagroup_link :: column_props ++ species_props ++ rows))
                     "property"
                   = column_props ++ species_props).
  { unfold findall. cbn [children element List.filter].
    change (has_tag "property" datagroup_link) with false. cbv iota.
    rewrite !List.filter_app.
    rewrite (filter_tag_all _ _ Htags1), (filter_tag_all _ _ Htags2).
    rewrite (filter_tag_none "property" "dataPoint" rows) by (discriminate || assumption).
    now rewrite app_nil_r. }
  assert (Hpoints : findall
                      (element "dataGroup" [("id", "dg1")] None
                         (datagroup_link :: column_props ++ species_props ++ rows))
                      "dataPoint"
                    = rows).
  { unfold findall. cbn [children element List.filter].
    change (has_tag "dataPoint" datagroup_link) with false. cbv iota.
    rewrite !List.filter_app.
    rewrite (filter_tag_none "dataPoint" "property" column_props)
      by (discriminate || assumption).
    rewrite (filter_tag_none "dataPoint" "property" species_props)
      by (discriminate || assumption).
    rewrite (filter_tag_all _ _ Hrowtags). reflexivity. }
  split; [exact Hall|]. split; [rewrite Hall; apply column_ids_distinct|].
  split; [|split].
  - rewrite Hprops, !fmap_app, Hattr1, Hattr2. reflexivity.
  - rewrite Hpoints. symmetry. now apply (Forall2_length _ _ _ Hrows).
  - rewrite Hpoints. intros row Hrow.
    apply list_elem_of_lookup in Hrow as [i Hi].
    destruct (Forall2_lookup_r _ _ _ i row Hrows Hi) as (dp & _ & _ & Hrow).
    exact Hrow.
Qed.

(** The two columns of [equal_delay_record], whose pressure and ignition
    delay are common. *)
Lemma column_ids_consecutive_witness :
  (fun e => attrib e !! "id")
    <$> findall (exported (export_ReSpecTh equal_delay_record)) "dataGroup"
        ≫= (fun dg => findall dg "property")
  = [Some "x1"].
Proof.
  destruct (export_datagroup equal_delay_record
              ["composition"; "pressure"; "ignition delay"])
    as [[pidx dg]|e] eqn:E; [|discriminate E].
  pose proof (column_ids_consecutive equal_delay_record
                ["composition"; "pressure"; "ignition delay"] pidx dg E)
    as (_ & _ & Hattr & _).
  vm_compute in E. injection E as <- <-. vm_compute. reflexivity.
Defined.

(** ** A composition that is not common *)

Lemma declare_columns_raises (dps : list DataPoint) (common names : list string)
    (pidx : list (string * string)) (e : exn) :
  names ⊆ datagroup_properties ->
  declare_columns dps common pidx names = Raise e -> e = AttributeError.
Proof.
  revert pidx. induction names as [|name names IH]; intros pidx Hsub H;
    [discriminate|].
  assert (Hname : name ∈ datagroup_properties) by (apply Hsub, list_elem_of_here).
  assert (Hrest : names ⊆ datagroup_properties)
    by (intros x Hx; apply Hsub; now apply list_elem_of_further).
  cbn [declare_columns] in H.
  assert (Hattr : forall dp, exists x, getattr dp (replace_char " " "_" name) = Ok x).
  { intros dp. unfold datagroup_properties in Hname.
    repeat (apply elem_of_cons in Hname as [->|Hname]; [now eexists|]).
    inversion Hname. }
  assert (Hall : exists values, getattr_all dps (replace_char " " "_" name) = Ok values).
  { clear - Hattr. unfold getattr_all. induction dps as [|dp dps IHd]; [now eexists|].
    cbn [load_all]. destruct (Hattr dp) as [x ->]. destruct IHd as [vs ->].
    now eexists. }
  destruct Hall as [values Hvalues]. rewrite Hvalues, mbind_Ok in H.
  destruct (_ && _) eqn:Hcond; [|now apply IH in H].
  apply andb_true_iff in Hcond as [_ Hex].
  destruct dps as [|first dps].
  { cbn in Hvalues. injection Hvalues as <-. discriminate. }
  change (py_index (first :: dps) 0) with (Ok first : result DataPoint) in H.
  rewrite mbind_Ok in H. destruct (Hattr first) as [x Hx]. rewrite Hx, mbind_Ok in H.
  apply mbind_raise in H as [H|(q & Hq & H)].
  { unfold the_quantity in H. now apply of_option_raises in H. }
  assert (Hlabel : exists label, getitem labels name = Ok label).
  { unfold datagroup_properties in Hname.
    repeat (apply elem_of_cons in Hname as [->|Hname]; [now eexists|]).
    inversion Hname. }
  destruct Hlabel as [label Hlabel]. rewrite Hlabel, mbind_Ok in H.
  apply mbind_raise in H as [H|([pidx1 props1] & Hrest' & H)];
    [now apply IH in H|discriminate].
Qed.

Lemma getattr_unknown (dp : DataPoint) (attribute : string) :
  attribute ∉ quantity_attributes -> getattr dp attribute = Raise AttributeError.
Proof.
  intros Hnot. unfold getattr.
  repeat match goal with
         | |- context [String.eqb attribute ?s] =>
             destruct (String.eqb_spec attribute s) as [->|_];
             [exfalso; apply Hnot; apply list_elem_of_In; vm_compute; tauto|]
         end.
  reflexivity.
Qed.

Lemma getattr_raises (dp : DataPoint) (attribute : string) (e : exn) :
  getattr dp attribute = Raise e -> e = AttributeError.
Proof.
  unfold getattr.
  repeat match goal with
         | |- context [String.eqb attribute ?s] => destruct (String.eqb attribute s)
         end; try discriminate.
  now intros [= <-].
Qed.

Lemma load_all_raises {A B : Type} (f : A -> result B) (e0 : exn)
    (l1 l2 : list A) (a : A) :
  (forall x e, f x = Raise e -> e = e0) ->
  f a = Raise e0 ->
  load_all f (l1 ++ a :: l2) = Raise e0.
Proof.
  intros Hf Ha. induction l1 as [|x l1 IH].
  - cbn [app load_all]. now rewrite Ha.
  - cbn [app load_all]. destruct (f x) as [b|e] eqn:E.
    + now rewrite mbind_Ok, IH.
    + now rewrite (Hf x e E).
Qed.

Lemma species_column_raises (pidx : list (string * string)) (dp : DataPoint)
    (id name : string) (cols : list (string * string)) :
  replace_char " " "_" name ∉ quantity_attributes ->
  datapoint_row (pidx ++ (id, name) :: cols) dp = Raise AttributeError.
Proof.
  intros Hname. unfold datapoint_row. rewrite (load_all_raises _ AttributeError).
  - reflexivity.
  - intros col e H. apply mbind_raise in H as [H|(x & Hx & H)];
      [now apply getattr_raises in H|].
    apply mbind_raise in H as [H|(q & Hq & H)]; [|discriminate].
    unfold the_quantity in H. now apply of_option_raises in H.
  - cbn [snd]. now rewrite getattr_unknown.
Qed.

Lemma uncommon_composition_raises (c : ChemKED) (common : list string)
    (first : DataPoint) (rest : list DataPoint) (sp : Species) (sps : list Species) :
  c_datapoints c = first :: rest ->
  "composition" ∉ common ->
  composition first = sp :: sps ->
  replace_char " " "_" (sp_name sp) ∉ quantity_attributes ->
  export_datagroup c common = Raise AttributeError.
Proof.
  intros Hdps Hcommon Hcomp Hname. unfold export_datagroup. rewrite Hdps.
  destruct (declare_columns (first :: rest) common []
              ["temperature"; "pressure"; "ignition delay"; "pressure rise"])
    as [[pidx1 cols]|e] eqn:Hcols.
  - rewrite mbind_Ok.
    change (py_index (first :: rest) 0) with (Ok first : result DataPoint).
    rewrite mbind_Ok, bool_decide_eq_false_2 by exact Hcommon. cbn [negb].
    rewrite Hcomp. cbn [declare_species].
    destruct (declare_species _ _ sps) as [pidx2 props] eqn:Hsp.
    apply declare_species_ids in Hsp as (added & -> & _).
    cbn [load_all]. rewrite <- app_assoc. cbn [app].
    now rewrite species_column_raises.
  - apply declare_columns_raises in Hcols as ->; [reflexivity|].
    intros x Hx. exact Hx.
Qed.

Lemma find_common_total (first : DataPoint) (rest : list DataPoint)
    (names : list string) :
  names ⊆ datagroup_properties ->
  exists found props,
    find_common (first :: rest) names = Ok (found, props) /\ found ⊆ names.
Proof.
  induction names as [|name names IH]; intros Hsub.
  - exists [], []. now split.
  - assert (Hname : name ∈ datagroup_properties) by (apply Hsub, list_elem_of_here).
    destruct IH as (found & props & Hrest & Hfound).
    { intros x Hx. apply Hsub. now apply list_elem_of_further. }
    assert (Hattr : exists f : DataPoint -> option Quantity,
               forall dp, getattr dp (replace_char " " "_" name) = Ok (f dp)).
    { unfold datagroup_properties in Hname.
      repeat (apply elem_of_cons in Hname as [->|Hname]; [now eexists|]).
      inversion Hname. }
    destruct Hattr as [f Hf]. rewrite (find_common_step _ _ _ _ f Hf), Hrest, mbind_Ok.
    cbv beta iota.
    destruct (f first) as [q|]; [destruct (shared f (first :: rest))|].
    + eexists _, _. split; [reflexivity|]. intros x Hx.
      apply elem_of_cons in Hx as [->|Hx]; [apply list_elem_of_here|].
      now apply list_elem_of_further, Hfound.
    + eexists _, _. split; [reflexivity|]. intros x Hx.
      now apply list_elem_of_further, Hfound.
    + eexists _, _. split; [reflexivity|]. intros x Hx.
      now apply list_elem_of_further, Hfound.
Qed.

(** X27: a record whose data points do not all have the composition of
    the first cannot be exported: when the first composition has a species,
    and the name of its first species is not the name of an attribute that
    holds a quantity, writing the first row raises [AttributeError]. *)
Theorem varying_composition_not_exportable (c : ChemKED) (header : list Element)
    (first : DataPoint) (rest : list DataPoint) (sp : Species) (sps : list Species) :
  export_header c = Ok header ->
  c_datapoints c = first :: rest ->
  forallb (fun dp => composition_eqb (composition first) (composition dp))
          (first :: rest) = false ->
  composition first = sp :: sps ->
  replace_char " " "_" (sp_name sp) ∉ quantity_attributes ->
  export_ReSpecTh c = Raise AttributeError.
Proof.
  intros Hheader Hdps Hdiffer Hcomp Hname.
  unfold export_ReSpecTh. rewrite Hheader, mbind_Ok.
  unfold export_common. rewrite Hdps.
  change (py_index (first :: rest) 0) with (Ok first : result DataPoint).
  rewrite mbind_Ok, Hdiffer.
  destruct (find_common_total first rest datagroup_properties)
    as (found & props & Hfound & Hsub); [intros x Hx; exact Hx|].
  assert (Hnot : "composition" ∉ found).
  { intros Hin. apply Hsub in Hin. revert Hin. now apply not_among. }
  destruct (1 <? length (first :: rest))%nat.
  - rewrite Hfound, !mbind_Ok. cbv beta iota. cbn [app].
    now rewrite (uncommon_composition_raises c found first rest sp sps).
  - rewrite !mbind_Ok. cbv beta iota.
    rewrite (uncommon_composition_raises c [] first rest sp sps);
      [reflexivity|assumption| |assumption..].
    intros Hin. inversion Hin.
Qed.

(** Two data points with hydrogen and oxygen in different proportions. *)
Lemma varying_composition_not_exportable_witness :
  export_ReSpecTh varying_composition_record = Raise AttributeError.
Proof.
  destruct (export_header varying_composition_record) as [header|e] eqn:E;
    [|discriminate E].
  eapply (varying_composition_not_exportable varying_composition_record header).
  - exact E.
  - reflexivity.
  - vm_compute. reflexivity.
  - reflexivity.
  - apply not_among. vm_compute. reflexivity.
Defined.

(** ** The data group of the volume history *)

Lemma zip_with_tags {A B : Type} (f : A -> B -> Element) (t : string)
    (l : list A) (k : list B) :
  (forall a b, tag (f a b) = t) -> Forall (fun e => tag e = t) (zip_with f l k).
Proof.
  intros Hf. revert k. induction l as [|a l IH]; intros [|b k]; cbn;
    constructor; auto.
Qed.

(** X28: the second data group of an export declares the time and the
    volume under the two identifiers that follow those of the first group,
    which differ; the importer finds in it the time column, numbered 0, and
    the volume column, numbered 1, with the names of the units of the
    history; and it has one row per pair of a time and a volume. *)
Theorem history_columns_read_back (property_idx : list (string * string))
    (vh : VolumeHistory) :
  read_history_columns (None, None)
    (findall (history_datagroup property_idx vh) "property")
  = Ok (Some (mkColumnDict (unit_name (a_units (time vh))) 0,
              column_id (length property_idx + 1)),
        Some (mkColumnDict (unit_name (a_units (volume vh))) 1,
              column_id (length property_idx + 2))) /\
  column_id (length property_idx + 1) <> column_id (length property_idx + 2) /\
  length (findall (history_datagroup property_idx vh) "dataPoint")
  = min (length (a_magnitudes (time vh))) (length (a_magnitudes (volume vh))).
Proof.
  set (rows := zip_with
          (fun t v =>
             element "dataPoint" [] None
               [ element (column_id (length property_idx + 1)) [] (Some (str_float t)) [];
                 element (column_id (length property_idx + 2)) [] (Some (str_float v)) [] ])
          (a_magnitudes (time vh)) (a_magnitudes (volume vh))).
  assert (Hrows : Forall (fun e => tag e = "dataPoint") rows)
    by (apply zip_with_tags; reflexivity).
  split; [|split].
  - unfold findall, history_datagroup. cbn [children element].
    fold rows. rewrite List.filter_app.
    rewrite (filter_tag_none "property" "dataPoint" rows) by (discriminate || assumption).
    rewrite app_nil_r.
    generalize (column_id (length property_idx + 1)),
      (column_id (length property_idx + 2)),
      (unit_name (a_units (time vh))), (unit_name (a_units (volume vh))).
    intros i j u w. vm_compute. reflexivity.
  - unfold column_id. intros H.
    apply (f_equal list_ascii_of_string) in H. cbn in H. injection H as H.
    apply (f_equal string_of_list_ascii) in H.
    rewrite !string_of_list_ascii_of_string in H. apply pretty_nat_inj in H. lia.
  - unfold findall, history_datagroup. cbn [children element].
    fold rows. rewrite List.filter_app.
    rewrite (filter_tag_all "dataPoint" rows Hrows).
    match goal with
    | |- context [List.filter ?f [?a; ?b; ?d]] =>
        change (List.filter f [a; b; d]) with (@nil Element)
    end.
    cbn [app]. unfold rows. now rewrite length_zip_with.
Qed.

(** ** Numbers written and read back *)














































(** ** Import, export and import again *)



(** The round trip is not the identity: [noncanonical_document] imports and
    exports, but the exported ignition target is OH* where the source has
    OHEX, and the exported data point has the temperature 1200.0 kelvin
    where the row of the source has 1000 K. *)
Lemma round_trip_changes_document :
  is_ok (round_trip sample_services noncanonical_document) = true /\
  target_attribute noncanonical_document = Some "OHEX" /\
  target_attribute (exported (round_trip sample_services noncanonical_document))
    = Some "OH*" /\
  values_of "temperature" <$> get_datapoints noncanonical_document
    = Ok [Some (PQuantity ["1000 K"])] /\
  values_of "temperature"
    <$> get_datapoints (exported (round_trip sample_services noncanonical_document))
    = Ok [Some (PQuantity ["1200.0 kelvin"])].
Proof. repeat split; vm_compute; reflexivity. Qed.

(** ** Round trip of a source whose reference is not resolved *)

(** C2: for a source whose [bibliographyLink] gives no DOI that Crossref
    resolves, import followed by export never yields a document: it raises
    what the import raises, and [TypeError] when the import succeeds. *)
Theorem round_trip_without_resolved_reference (srv : services)
    (version basename file_author file_author_orcid : string)
    (root elem : Element) :
  find root "bibliographyLink" = Some elem ->
  unresolved srv elem = true ->
  convert_ReSpecTh srv version root basename file_author file_author_orcid
    ≫= convert_to_ReSpecTh
  = match convert_ReSpecTh srv version root basename file_author file_author_orcid with
    | Ok _ => Raise TypeError
    | Raise e => Raise e
    end.
Proof.
  intros Hfind Hun.
  destruct (convert_ReSpecTh srv version root basename file_author file_author_orcid)
    as [p|e] eqn:H; [|reflexivity].
  rewrite mbind_Ok. unfold convert_ReSpecTh in H.
  bind_ok H as p' Hread. bind_ok H as c Hc. injection H as ->.
  unfold convert_to_ReSpecTh. rewrite Hc, mbind_Ok.
  unfold ChemKED_init in Hc. bind_ok Hc as dps Hdps. injection Hc as <-.
  unfold read_ReSpecTh in Hread.
  bind_ok Hread as author_name Hauthor. bind_ok Hread as ref Href.
  rewrite (get_reference_unresolved srv root elem Hfind Hun) in Href.
  unfold fallback_reference in Href.
  destruct (attrib elem !! "preferredKey") as [key|]; [|discriminate].
  bind_ok Href as dotted Hdotted. injection Href as <-.
  bind_ok Hread as ek Hek. bind_ok Hread as common Hcommon.
  bind_ok Hread as ign Hign. bind_ok Hread as points Hpoints.
  bind_ok Hread as u1 H1. bind_ok Hread as u2 H2. bind_ok Hread as u3 H3.
  bind_ok Hread as u4 H4. injection Hread as <-.
  cbn [file_author_name file_version experiment_type reference apparatus_kind].
  apply get_experiment_kind_inv in Hek as (k & _ & _ & ->).
  reflexivity.
Qed.

(** The source without a [doi] attribute: it is imported, and the imported
    record is not exported. *)
Lemma round_trip_without_resolved_reference_witness :
  is_ok (convert_ReSpecTh sample_services "0.1" detail_only_document "st.xml" "" "")
  = true /\
  round_trip sample_services detail_only_document = Raise TypeError.
Proof.
  split; [vm_compute; reflexivity|].
  unfold round_trip.
  rewrite (round_trip_without_resolved_reference sample_services "0.1" "st.xml" "" ""
             detail_only_document
             (element "bibliographyLink" [("preferredKey", "Niemeyer 2016")] None []));
    [|reflexivity|reflexivity].
  vm_compute. reflexivity.
Defined.
